(** * Scope enforcement and human approval: a shallow embedding

    The development follows three TypeScript classes of the repository:

    - [ScopeValidator]   (src/core/intent/ScopeValidator.ts)
    - [ApprovalManager]  (src/core/intent/ApprovalManager.ts)
    - [IntentHookEngine] (src/core/intent/IntentHookEngine.ts)

    and, beside them, the lesson recorder of
    src/core/prompts/tools/native-tools/append_lesson_to_claude.ts and
    the functions of src/hello.js.

    A JavaScript string is modelled by the [string] of its code units,
    for strings whose code units are below 256.  Clock readings, random
    draws and the outcome of file writes are inputs of the operations
    that consume them. *)

From Stdlib Require Import String Ascii List Bool Arith Lia NArith.
From Stdlib Require Import DecimalString DecimalPos DecimalN.
From Stdlib Require PrimFloat FloatOps SpecFloat Uint63.
From stdpp Require Import gmap strings.
Import ListNotations.
Open Scope string_scope.
Open Scope list_scope.

#[local] Arguments String.append !_ _ / : simpl nomatch.

(* ===================================================================== *)
(** ** JavaScript string primitives used by the program *)
(* ===================================================================== *)

Module Js.

Definition LF : ascii := "010"%char.
Definition CR : ascii := "013"%char.
Definition dquote : string := String "034"%char EmptyString.

(** [s.startsWith(p)] *)
Fixpoint startsWith (s p : string) {struct p} : bool :=
    match p with
    | EmptyString => true
    | String a p' =>
        match s with
        | EmptyString => false
        | String b s' => Ascii.eqb a b && startsWith s' p'
        end
    end.

(** [s.endsWith(suf)]: some suffix of [s] equals [suf]. *)
Fixpoint endsWith (s suf : string) : bool :=
    String.eqb s suf ||
    match s with
    | EmptyString => false
    | String _ s' => endsWith s' suf
    end.

(** [s.includes(sub)] *)
Fixpoint includes (s sub : string) : bool :=
    startsWith s sub ||
    match s with
    | EmptyString => false
    | String _ s' => includes s' sub
    end.

(** [s.replace(/needle/g, repl)] for a needle that is a non-empty
      literal text and a replacement without dollar patterns: leftmost
      occurrences, not overlapping.  [skip] counts the characters of a
      replaced occurrence that are still to be passed over. *)
Fixpoint replaceAllFrom (skip : nat) (needle repl s : string) : string :=
    match s with
    | EmptyString => EmptyString
    | String c s' =>
        match skip with
        | S k => replaceAllFrom k needle repl s'
        | O =>
            if startsWith s needle
            then repl +:+ replaceAllFrom (String.length needle - 1) needle repl s'
            else String c (replaceAllFrom 0 needle repl s')
        end
    end.

Definition replaceAll (needle repl s : string) : string :=
    replaceAllFrom 0 needle repl s.

(** [s.replace(/[class]/g, f)] where the replacement of a character
      depends on that character only. *)
Fixpoint replaceChars (f : ascii -> string) (s : string) : string :=
    match s with
    | EmptyString => EmptyString
    | String c s' => f c +:+ replaceChars f s'
    end.

(** [s.split(sep)] for a one-character separator. *)
Fixpoint split (sep : ascii) (s : string) : list string :=
    match s with
    | EmptyString => [EmptyString]
    | String c s' =>
        if Ascii.eqb c sep then EmptyString :: split sep s'
        else match split sep s' with
             | [] => [String c EmptyString]
             | l :: ls => String c l :: ls
             end
    end.

(** [l.join(sep)] *)
Fixpoint join (sep : string) (l : list string) : string :=
    match l with
    | [] => EmptyString
    | x :: rest =>
        match rest with
        | [] => x
        | _ :: _ => x +:+ sep +:+ join sep rest
        end
    end.

(** [s.substr(start, len)] *)
Definition substr (start len : nat) (s : string) : string :=
    String.substring start len s.

(** Template rendering of a non-negative integer. *)
Definition numberToString (n : N) : string :=
    NilEmpty.string_of_uint (N.to_uint n).

(** [s.toLowerCase()] on the letters A to Z. *)
Definition lowerChar (c : ascii) : ascii :=
    let n := nat_of_ascii c in
    if Nat.leb 65 n && Nat.leb n 90 then ascii_of_nat (n + 32) else c.

Fixpoint toLowerCase (s : string) : string :=
    match s with
    | EmptyString => EmptyString
    | String c s' => String (lowerChar c) (toLowerCase s')
    end.

End Js.

(* ===================================================================== *)
(** ** The fragment of regular expressions the program uses

    Every matching expression of the program is anchored at both ends
    and is a sequence of quantified one-character matchers, at most one
    of them inside a capture group.  [exec] is a backtracking matcher
    with the priorities of the JavaScript one: a greedy quantifier tries
    the longest repetition first. *)
(* ===================================================================== *)

Module RegExp.

Inductive atom : Type :=
  | Chr (c : ascii)        (* a literal or escaped character *)
  | Dot                    (* .      any character but a line terminator *)
  | OneOf (cs : string)    (* [cs]   *)
  | NoneOf (cs : string)   (* [^cs]  *)
  | Space.                 (* \s     *)

Inductive quant : Type :=
  | One
  | Times (n : nat)        (* {n} *)
  | Star                   (* *   *)
  | Plus.                  (* +   *)

Record item : Type := Item {
    item_atom : atom;
    item_quant : quant;
    item_captured : bool   (* inside the capture group *)
  }.

(** An expression [^ items $]. *)
Definition regex : Type := list item.

Definition isLineTerminator (c : ascii) : bool :=
    Ascii.eqb c Js.LF || Ascii.eqb c Js.CR.

Definition isWhiteSpace (c : ascii) : bool :=
    existsb (Nat.eqb (nat_of_ascii c)) [9; 10; 11; 12; 13; 32; 160].

Fixpoint memChar (c : ascii) (cs : string) : bool :=
    match cs with
    | EmptyString => false
    | String x cs' => Ascii.eqb c x || memChar c cs'
    end.

Definition accepts (a : atom) (c : ascii) : bool :=
    match a with
    | Chr x => Ascii.eqb x c
    | Dot => negb (isLineTerminator c)
    | OneOf cs => memChar c cs
    | NoneOf cs => negb (memChar c cs)
    | Space => isWhiteSpace c
    end.

(** The text captured so far grows by [c] when the item is captured. *)
Definition keep (cap : bool) (c : ascii) (r : option string) : option string :=
    match r with
    | Some g => Some (if cap then String c g else g)
    | None => None
    end.

Section Quantifiers.
Variable p : ascii -> bool.
Variable cap : bool.
Variable k : string -> option string.

Definition one (s : string) : option string :=
      match s with
      | String c s' => if p c then keep cap c (k s') else None
      | EmptyString => None
      end.

Fixpoint star (s : string) : option string :=
      match s with
      | String c s' =>
          if p c then
            match star s' with
            | Some g => keep cap c (Some g)
            | None => k s
            end
          else k s
      | EmptyString => k s
      end.

Definition plus (s : string) : option string :=
      match s with
      | String c s' => if p c then keep cap c (star s') else None
      | EmptyString => None
      end.

Fixpoint times (n : nat) (s : string) : option string :=
      match n with
      | O => k s
      | S n' =>
          match s with
          | String c s' => if p c then keep cap c (times n' s') else None
          | EmptyString => None
          end
      end.
End Quantifiers.

(** [exec r s]: the text of the capture group when [s] matches [r]
      (the empty text when [r] has no group), [None] when it does not. *)
Fixpoint exec (r : regex) : string -> option string :=
    match r with
    | [] => fun s => match s with EmptyString => Some EmptyString | _ => None end
    | it :: r' =>
        let p := accepts (item_atom it) in
        let cap := item_captured it in
        match item_quant it with
        | One => one p cap (exec r')
        | Times n => times p cap (exec r') n
        | Star => star p cap (exec r')
        | Plus => plus p cap (exec r')
        end
    end.

(** [r.test(s)] *)
Definition test (r : regex) (s : string) : bool :=
    match exec r s with Some _ => true | None => false end.

(** Literal text as a sequence of items. *)
Fixpoint lit (s : string) : regex :=
    match s with
    | EmptyString => []
    | String c s' => Item (Chr c) One false :: lit s'
    end.

(** The characters that [ScopeValidator.globToRegex] escapes. *)
Definition isEscaped (c : ascii) : bool := memChar c ".+^${}()|[]\".

(** Characters with a meaning of their own in an expression. *)
Definition isSyntaxChar (c : ascii) : bool := memChar c "^$\.*+?()[]{}|".

(** [new RegExp(src)] on the fragment: [^], then atoms

        - backslash and an escaped character,
        - the class of all characters but the slash,
        - the dot,
        - a character without a meaning of its own,

      each optionally followed by a star, then [$].  Any other text is
      outside the fragment and yields [None]. *)
Local Abbreviation quantified rec a rest :=
    (match rest with
     | String q rest' =>
         if Ascii.eqb q "*"
         then option_map (cons (Item a Star false)) (rec rest')
         else option_map (cons (Item a One false)) (rec rest)
     | EmptyString => option_map (cons (Item a One false)) (rec rest)
     end) (only parsing).

Fixpoint parseItems (s : string) : option regex :=
    match s with
    | EmptyString => None
    | String c s1 =>
        if Ascii.eqb c "$" then
          match s1 with EmptyString => Some [] | _ => None end
        else if Ascii.eqb c "\" then
          match s1 with
          | String e s2 =>
              if isEscaped e then quantified parseItems (Chr e) s2 else None
          | EmptyString => None
          end
        else if Ascii.eqb c "[" then
          match s1 with
          | String "^" (String "/" (String "]" s4)) =>
              quantified parseItems (NoneOf "/") s4
          | _ => None
          end
        else if Ascii.eqb c "." then quantified parseItems Dot s1
        else if isSyntaxChar c then None
        else quantified parseItems (Chr c) s1
    end.

Definition parse (src : string) : option regex :=
    match src with
    | String "^" s => parseItems s
    | _ => None
    end.

End RegExp.

(* ===================================================================== *)
(** ** ScopeValidator *)
(* ===================================================================== *)

Module ScopeValidator.

Record ScopeValidationResult : Type := {
  isWithinScope : bool;
  reason : option string;
  allowedPaths : option (list string);
  attemptedPath : option string
}.

(** [s.replace(/\\/g, "/")] *)
Definition normalizeSeparators (s : string) : string :=
  Js.replaceAll "\" "/" s.

Definition doubleStar : string := "__DOUBLE_STAR__".

(** The replacement [\$&] of the escaping pass: a backslash before the
    character that was matched. *)
Definition escapeChar (c : ascii) : string :=
  if RegExp.isEscaped c then String "\" (String c EmptyString)
  else String c EmptyString.

(** The text handed to [new RegExp] by [globToRegex]. *)
Definition globToRegexSource (glob : string) : string :=
  let pattern := glob in
  let pattern := Js.replaceAll "**" doubleStar pattern in
  let pattern := Js.replaceChars escapeChar pattern in
  let pattern := Js.replaceAll "*" "[^/]*" pattern in
  let pattern := Js.replaceAll "?" "[^/]" pattern in
  let pattern := Js.replaceAll doubleStar ".*" pattern in
  "^" +:+ pattern +:+ "$".

Definition globToRegex (glob : string) : option RegExp.regex :=
  RegExp.parse (globToRegexSource glob).

(** The expression built by [globToRegex] always lies in the fragment
    (lemma [globToRegex_compiles] below), so the last branch is never
    taken. *)
Definition matchesPattern (filePath scopePattern : string) : bool :=
  let normalized := normalizeSeparators scopePattern in
  if String.eqb filePath normalized then true
  else if Js.endsWith normalized "/" then Js.startsWith filePath normalized
  else match globToRegex normalized with
       | Some regexPattern => RegExp.test regexPattern filePath
       | None => false
       end.

(** The loop over the scope entries, leaving at the first match. *)
Fixpoint anyEntryMatches (normalizedPath : string) (ownedScope : list string) : bool :=
  match ownedScope with
  | [] => false
  | scopeEntry :: rest =>
      if matchesPattern normalizedPath scopeEntry then true
      else anyEntryMatches normalizedPath rest
  end.

Definition isPathInScope (filePath : string) (ownedScope : list string)
  : ScopeValidationResult :=
  match ownedScope with
  | [] =>
      {| isWithinScope := false;
         reason := Some "No scope defined for this intent";
         allowedPaths := None;
         attemptedPath := Some filePath |}
  | _ :: _ =>
      let normalizedPath := normalizeSeparators filePath in
      if anyEntryMatches normalizedPath ownedScope then
        {| isWithinScope := true;
           reason := None;
           allowedPaths := Some ownedScope;
           attemptedPath := None |}
      else
        {| isWithinScope := false;
           reason := Some ("File " +:+ Js.dquote +:+ filePath +:+ Js.dquote
                           +:+ " is outside the intent's owned_scope");
           allowedPaths := Some ownedScope;
           attemptedPath := Some filePath |}
  end.

Definition arePathsInScope (filePaths ownedScope : list string)
  : ScopeValidationResult :=
  let results := map (fun p => isPathInScope p ownedScope) filePaths in
  let allInScope := forallb isWithinScope results in
  if allInScope then
    {| isWithinScope := true;
       reason := None;
       allowedPaths := Some ownedScope;
       attemptedPath := None |}
  else
    let outOfScope :=
      List.filter (fun p => negb (isWithinScope (isPathInScope p ownedScope))) filePaths in
    {| isWithinScope := false;
       reason := Some (Js.numberToString (N.of_nat (length outOfScope))
                       +:+ " file(s) outside scope: " +:+ Js.join ", " outOfScope);
       allowedPaths := Some ownedScope;
       attemptedPath := nth_error outOfScope 0 |}.

(** [/^[+-]{3}\s[ab]\/(.+)$/] *)
Definition fileHeaderRe : RegExp.regex :=
  [ RegExp.Item (RegExp.OneOf "+-") (RegExp.Times 3) false;
    RegExp.Item RegExp.Space RegExp.One false;
    RegExp.Item (RegExp.OneOf "ab") RegExp.One false;
    RegExp.Item (RegExp.Chr "/") RegExp.One false;
    RegExp.Item RegExp.Dot RegExp.Plus true ].

(** [/^diff --git a\/(.+) b\/.+$/] *)
Definition gitDiffRe : RegExp.regex :=
  RegExp.lit "diff --git a/"
  ++ [ RegExp.Item RegExp.Dot RegExp.Plus true ]
  ++ RegExp.lit " b/"
  ++ [ RegExp.Item RegExp.Dot RegExp.Plus false ].

(** [files.add(x)] on a set that remembers the order of insertion. *)
Definition setAdd (files : list string) (x : string) : list string :=
  if existsb (String.eqb x) files then files else files ++ [x].

(** The body of the loop over the lines of a diff. *)
Definition scanLine (files : list string) (line : string) : list string :=
  let files :=
    match RegExp.exec fileHeaderRe line with
    | Some path => setAdd files path
    | None => files
    end in
  match RegExp.exec gitDiffRe line with
  | Some path => setAdd files path
  | None => files
  end.

Definition extractFilesFromLines (lines : list string) : list string :=
  fold_left scanLine lines [].

Definition extractFilesFromDiff (diff : string) : list string :=
  extractFilesFromLines (Js.split Js.LF diff).

End ScopeValidator.

(* ===================================================================== *)
(** ** ApprovalManager

    The two indices are JavaScript maps keyed by the request id.  The
    approval log is the sequence of records appended to
    [.orchestration/approval_log.jsonl].  A call of [submitForApproval]
    leaves a timer behind that polls the decided index; [pollers] lists
    the request ids of the live timers and [pollTick] is one firing of
    such a timer. *)
(* ===================================================================== *)

Module ApprovalManager.

Record ApprovalRequest : Type := {
  request_id : string;
  timestamp : string;
  change_summary : string;
  diff : string;
  files_affected : list string;
  intent_id : option string;
  turn_id : option string
}.

Record ApprovalDecision : Type := {
  decision_request_id : string;
  decision_timestamp : string;
  approved : bool;
  approver : string;
  approver_notes : option string;
  requires_override : option bool
}.

(** The request fields of a decision record: the pending request when
    there is one, the bare id otherwise. *)
Inductive RequestContext : Type :=
| KnownRequest (request : ApprovalRequest)
| IdOnly (requestId : string).

Definition context_request_id (c : RequestContext) : string :=
  match c with
  | KnownRequest request => request_id request
  | IdOnly requestId => requestId
  end.

Inductive LogRecord : Type :=
| RequestRecord (request : ApprovalRequest) (logged_at : string)
| DecisionRecord (request : RequestContext) (decision : ApprovalDecision)
                 (logged_at : string).

Record Manager : Type := {
  pendingRequests : gmap string ApprovalRequest;
  approvedRequests : gmap string ApprovalDecision;
  approvalLog : list LogRecord;
  pollers : list string
}.

(** [fs.appendFileSync] inside [try]: a failed write leaves the log as
    it was and the caller goes on. *)
Definition appendRecord (diskOk : bool) (record : LogRecord) (log : list LogRecord)
  : list LogRecord :=
  if diskOk then log ++ [record] else log.

(** Replay of the log by the constructor: decisions only. *)
Definition loadApprovalLog (log : list LogRecord) : gmap string ApprovalDecision :=
  fold_left
    (fun decided entry =>
       match entry with
       | DecisionRecord request decision _ =>
           <[context_request_id request := decision]> decided
       | RequestRecord _ _ => decided
       end)
    log ∅.

Definition construct (log : list LogRecord) : Manager :=
  {| pendingRequests := ∅;
     approvedRequests := loadApprovalLog log;
     approvalLog := log;
     pollers := [] |}.

(** [nowMs] is the reading of [Date.now()], [random36] the text
    [Math.random().toString(36)] and [nowIso] the reading of
    [new Date().toISOString()]. *)
Definition requestIdOf (nowMs : N) (random36 : string) : string :=
  "approval-" +:+ Js.numberToString nowMs +:+ "-" +:+ Js.substr 2 9 random36.

Definition createRequest (nowMs : N) (random36 nowIso : string)
    (changeSummary diffText : string) (filesAffected : list string)
    (intentId turnId : option string) : ApprovalRequest :=
  let requestId := requestIdOf nowMs random36 in
  {| request_id := requestId;
     timestamp := nowIso;
     change_summary := changeSummary;
     diff := diffText;
     files_affected := filesAffected;
     intent_id := intentId;
     turn_id := turnId |}.

Definition logRequest (diskOk : bool) (loggedAt : string) (request : ApprovalRequest)
    (m : Manager) : Manager :=
  {| pendingRequests := pendingRequests m;
     approvedRequests := approvedRequests m;
     approvalLog := appendRecord diskOk (RequestRecord request loggedAt) (approvalLog m);
     pollers := pollers m |}.

Definition logDecision (diskOk : bool) (loggedAt : string) (request : RequestContext)
    (decision : ApprovalDecision) (m : Manager) : Manager :=
  {| pendingRequests := pendingRequests m;
     approvedRequests := approvedRequests m;
     approvalLog :=
       appendRecord diskOk (DecisionRecord request decision loggedAt) (approvalLog m);
     pollers := pollers m |}.

(** The synchronous part of [submitForApproval]: the state in which the
    caller is left suspended on the returned promise. *)
Definition submitForApproval (diskOk : bool) (loggedAt : string)
    (request : ApprovalRequest) (m : Manager) : Manager :=
  let m :=
    {| pendingRequests := <[request_id request := request]> (pendingRequests m);
       approvedRequests := approvedRequests m;
       approvalLog := approvalLog m;
       pollers := pollers m |} in
  let m := logRequest diskOk loggedAt request m in
  {| pendingRequests := pendingRequests m;
     approvedRequests := approvedRequests m;
     approvalLog := approvalLog m;
     pollers := pollers m ++ [request_id request] |}.

Fixpoint removeFirst (x : string) (l : list string) : list string :=
  match l with
  | [] => []
  | y :: l' => if String.eqb x y then l' else y :: removeFirst x l'
  end.

(** One firing of the timer of a suspended [submitForApproval]: when
    the decision is there, the timer is cleared, the request leaves the
    pending index and the caller resumes with the decision. *)
Definition pollTick (requestId : string) (m : Manager)
  : Manager * option ApprovalDecision :=
  if existsb (String.eqb requestId) (pollers m) then
    match approvedRequests m !! requestId with
    | Some decision =>
        ({| pendingRequests := delete requestId (pendingRequests m);
            approvedRequests := approvedRequests m;
            approvalLog := approvalLog m;
            pollers := removeFirst requestId (pollers m) |},
         Some decision)
    | None => (m, None)
    end
  else (m, None).

Definition recordDecision (diskOk : bool) (nowIso loggedAt : string)
    (requestId : string) (isApprovedFlag : bool) (approverName : string)
    (approverNotes : option string) (requiresOverrideFlag : option bool)
    (m : Manager) : Manager * ApprovalDecision :=
  let decision :=
    {| decision_request_id := requestId;
       decision_timestamp := nowIso;
       approved := isApprovedFlag;
       approver := approverName;
       approver_notes := approverNotes;
       requires_override := requiresOverrideFlag |} in
  let m :=
    {| pendingRequests := pendingRequests m;
       approvedRequests := <[requestId := decision]> (approvedRequests m);
       approvalLog := approvalLog m;
       pollers := pollers m |} in
  let request :=
    match pendingRequests m !! requestId with
    | Some request => KnownRequest request
    | None => IdOnly requestId
    end in
  (logDecision diskOk loggedAt request decision m, decision).

Definition getPendingRequest (requestId : string) (m : Manager)
  : option ApprovalRequest :=
  pendingRequests m !! requestId.

Definition getDecision (requestId : string) (m : Manager) : option ApprovalDecision :=
  approvedRequests m !! requestId.

Definition isApproved (requestId : string) (m : Manager) : bool :=
  match approvedRequests m !! requestId with
  | Some decision => approved decision
  | None => false
  end.

Definition requiresOverride (requestId : string) (m : Manager) : bool :=
  match approvedRequests m !! requestId with
  | Some decision =>
      match requires_override decision with Some b => b | None => false end
  | None => false
  end.

Definition getAllApprovals (m : Manager) : list LogRecord := approvalLog m.

Definition clearAllApprovals (m : Manager) : Manager :=
  {| pendingRequests := ∅;
     approvedRequests := ∅;
     approvalLog := [];
     pollers := pollers m |}.

(** The decisions in the log that were made for a given request id. *)
Definition decisionRecordsFor (requestId : string) (log : list LogRecord)
  : list ApprovalDecision :=
  flat_map
    (fun entry =>
       match entry with
       | DecisionRecord _ decision _ =>
           if String.eqb (decision_request_id decision) requestId then [decision] else []
       | RequestRecord _ _ => []
       end)
    log.

(** [entry.intent_id] and [entry.turn_id] of a record read back from the
    log: those of the request the record was merged with, none for a
    decision logged with the bare id. *)
Definition record_intent_id (entry : LogRecord) : option string :=
  match entry with
  | RequestRecord request _ => intent_id request
  | DecisionRecord (KnownRequest request) _ _ => intent_id request
  | DecisionRecord (IdOnly _) _ _ => None
  end.

Definition record_turn_id (entry : LogRecord) : option string :=
  match entry with
  | RequestRecord request _ => turn_id request
  | DecisionRecord (KnownRequest request) _ _ => turn_id request
  | DecisionRecord (IdOnly _) _ _ => None
  end.

Definition fieldIs (field : option string) (value : string) : bool :=
  match field with
  | Some text => String.eqb text value
  | None => false
  end.

(** [readOk] tells whether the log could be read; a failure is caught
    and answered by the empty list. *)
Definition getApprovalsByIntent (readOk : bool) (intentId : string) (m : Manager)
  : list LogRecord :=
  if readOk
  then List.filter (fun entry => fieldIs (record_intent_id entry) intentId) (approvalLog m)
  else [].

Definition getApprovalsByTurn (readOk : bool) (turnId : string) (m : Manager)
  : list LogRecord :=
  if readOk
  then List.filter (fun entry => fieldIs (record_turn_id entry) turnId) (approvalLog m)
  else [].

End ApprovalManager.

(* ===================================================================== *)
(** ** IntentHookEngine *)
(* ===================================================================== *)

Module IntentHookEngine.

Record Intent : Type := {
  id : string;
  name : string;
  status : string;
  owned_scope : list string;
  constraints : list string;
  acceptance_criteria : list string
}.

Record Engine : Type := {
  intents : gmap string Intent;
  currentSessionIntent : option Intent;
  approvalManager : ApprovalManager.Manager
}.

Definition restrictedTools : list string :=
  ["write_file"; "apply_diff"; "execute_command"; "write_to_file"].

Definition gatekeeper (tool : string) (e : Engine) : bool * option string :=
  if existsb (String.eqb tool) restrictedTools then
    match currentSessionIntent e with
    | None =>
        (false,
         Some "You must cite a valid active Intent ID via select_active_intent before performing structural changes.")
    | Some _ => (true, None)
    end
  else (true, None).

Definition validateScope (filePaths : list string) (e : Engine)
  : ScopeValidator.ScopeValidationResult :=
  match currentSessionIntent e with
  | None =>
      {| ScopeValidator.isWithinScope := false;
         ScopeValidator.reason := Some "No active intent - cannot validate scope";
         ScopeValidator.allowedPaths := None;
         ScopeValidator.attemptedPath := nth_error filePaths 0 |}
  | Some intent => ScopeValidator.arePathsInScope filePaths (owned_scope intent)
  end.

Definition isFileInScope (filePath : string) (e : Engine) : bool :=
  match currentSessionIntent e with
  | None => false
  | Some intent =>
      ScopeValidator.isWithinScope
        (ScopeValidator.isPathInScope filePath (owned_scope intent))
  end.

(** The names that every plain object inherits from [Object.prototype]:
    [intents[name]] finds a value for them although [loadIntents] has
    put no intent under the name. *)
Definition inheritedMembers : list string :=
  ["constructor"; "__proto__"; "hasOwnProperty"; "isPrototypeOf";
   "propertyIsEnumerable"; "toLocaleString"; "toString"; "valueOf";
   "__defineGetter__"; "__defineSetter__"; "__lookupGetter__"; "__lookupSetter__"].

(** How the [select_active_intent] branch of [preHook] ends. *)
Inductive Selection : Type :=
| Selected (e : Engine)
    (* the intent is the session intent and the context block is returned *)
| InvalidIntentId
    (* the error "Invalid Intent ID" is thrown, the engine is as before *)
| NotAnIntent.
    (* the lookup found an inherited member, which passes the guard and
       is stored as the session intent; a TypeError is then thrown when
       its [constraints] are read.  The engine is left holding a value
       that is no [Intent]. *)

(** The [select_active_intent] branch of [preHook].  [registry] holds
    the own properties of the object that [loadIntents] builds from
    [active_intents.yaml] at that moment, no item of which is named
    [__proto__]. *)
Definition selectActiveIntent (registry : gmap string Intent) (intentId : string)
    (e : Engine) : Selection :=
  match registry !! intentId with
  | Some intent =>
      Selected {| intents := intents e;
                  currentSessionIntent := Some intent;
                  approvalManager := approvalManager e |}
  | None =>
      if existsb (String.eqb intentId) inheritedMembers
      then NotAnIntent
      else InvalidIntentId
  end.

Definition clearSessionIntent (e : Engine) : Engine :=
  {| intents := intents e;
     currentSessionIntent := None;
     approvalManager := approvalManager e |}.

(** The summary that [requestApprovalForOutOfScope] hands on. *)
Definition outOfScopeSummary (changeSummary : string) (outOfScopeFiles : list string)
  : string :=
  let nl := String Js.LF EmptyString in
  changeSummary +:+ nl +:+ nl
  +:+ "WARNING: The following files are outside the current intent's scope:" +:+ nl
  +:+ Js.join nl (map (fun f => "  - " +:+ f) outOfScopeFiles)
  +:+ nl +:+ nl +:+ "Human approval required to override scope enforcement.".

(** [requestApprovalForOutOfScope] up to the point where it waits for
    the decision: the request it creates and the engine it leaves. *)
Definition requestApprovalForOutOfScope (nowMs : N) (random36 nowIso : string)
    (diskOk : bool) (loggedAt : string) (changeSummary diffText : string)
    (filesAffected outOfScopeFiles : list string) (e : Engine)
  : Engine * ApprovalManager.ApprovalRequest :=
  let fullSummary := outOfScopeSummary changeSummary outOfScopeFiles in
  let request :=
    ApprovalManager.createRequest nowMs random36 nowIso fullSummary diffText
      filesAffected (option_map id (currentSessionIntent e)) None in
  ({| intents := intents e;
      currentSessionIntent := currentSessionIntent e;
      approvalManager :=
        ApprovalManager.submitForApproval diskOk loggedAt request (approvalManager e) |},
   request).

(** What [requestApprovalForOutOfScope] returns once the decision has
    arrived: [approved] and [requires_override ?? false]. *)
Definition approvalOutcome (decision : ApprovalManager.ApprovalDecision) : bool * bool :=
  (ApprovalManager.approved decision,
   match ApprovalManager.requires_override decision with
   | Some b => b
   | None => false
   end).

Definition recordApprovalDecision (diskOk : bool) (nowIso loggedAt requestId : string)
    (isApprovedFlag : bool) (approverName : string) (notes : option string)
    (requiresOverrideFlag : option bool) (e : Engine) : Engine :=
  {| intents := intents e;
     currentSessionIntent := currentSessionIntent e;
     approvalManager :=
       fst (ApprovalManager.recordDecision diskOk nowIso loggedAt requestId
              isApprovedFlag approverName notes requiresOverrideFlag
              (approvalManager e)) |}.

Definition getIntentApprovals (readOk : bool) (intentId : string) (e : Engine)
  : list ApprovalManager.LogRecord :=
  ApprovalManager.getApprovalsByIntent readOk intentId (approvalManager e).

Definition isApprovalPending (requestId : string) (e : Engine) : bool :=
  match ApprovalManager.getPendingRequest requestId (approvalManager e) with
  | Some _ => true
  | None => false
  end.

End IntentHookEngine.

(* ===================================================================== *)
(** ** The lesson recorder *)
(** [appendLessonToClaude] of [append_lesson_to_claude.ts].  The content
    of [CLAUDE.md] is the state, absent before the first write; the
    reading of [new Date().toISOString()] is an input, and so is the
    message of the error thrown by the write, if it throws.  The
    directory of the path is the current one, so none is created. *)
(* ===================================================================== *)

Module LessonRecorder.

Record Outcome : Type := {
  success : bool;
  path : string;
  message : string
}.

Definition claudePath : string := "CLAUDE.md".

Fixpoint skipChars (n : nat) (s : string) : string :=
  match n, s with
  | O, _ => s
  | S _, EmptyString => EmptyString
  | S n', String _ s' => skipChars n' s'
  end.

(** [s.replace(needle, repl)] for a needle given as text and a
    replacement without dollar patterns: the first occurrence only. *)
Fixpoint replaceFirst (needle repl s : string) : string :=
  if Js.startsWith s needle
  then repl +:+ skipChars (String.length needle) s
  else
    match s with
    | EmptyString => EmptyString
    | String c s' => String c (replaceFirst needle repl s')
    end.

(** [iso.replace("T", " ").slice(0, 19) + " UTC"] *)
Definition timestampOf (iso : string) : string :=
  Js.substr 0 19 (replaceFirst "T" " " iso) +:+ " UTC".

Definition lessonEntry (iso lessonText : string) : string :=
  let nl := String Js.LF EmptyString in
  "## Lesson Learned (" +:+ timestampOf iso +:+ ")" +:+ nl +:+ lessonText +:+ nl +:+ nl.

Definition header : string :=
  let nl := String Js.LF EmptyString in
  "# Lessons Learned (Phase 4: Parallel Orchestration)" +:+ nl +:+ nl
  +:+ "This file records insights from verification failures across agent turns."
  +:+ nl +:+ nl.

(** [writeError] is the message of the error thrown by
    [appendFileSync] or [writeFileSync], [None] when the write goes
    through; a write that throws leaves the file as it was. *)
Definition appendLessonToClaude (iso : string) (writeError : option string)
    (lessonText : string) (file : option string) : option string * Outcome :=
  let entry := lessonEntry iso lessonText in
  match writeError with
  | None =>
      (Some (match file with
             | Some content => content +:+ entry
             | None => header +:+ entry
             end),
       {| success := true;
          path := claudePath;
          message := "Lesson recorded in " +:+ claudePath |})
  | Some errorMessage =>
      (file,
       {| success := false;
          path := claudePath;
          message := "Failed to append lesson: " +:+ errorMessage |})
  end.

End LessonRecorder.

(* ===================================================================== *)
(** ** hello.js *)
(** Numbers are the binary64 floats of the language, here the primitive
    floats.  The recursion of [factorial] is bounded by [fuel], the
    depth the call stack allows; [None] stands for its overflow. *)
(* ===================================================================== *)

Module Hello.

Definition sayHello (name : string) : string := "Hello, " +:+ name +:+ "!".

Fixpoint factorial (fuel : nat) (n : PrimFloat.float) : option PrimFloat.float :=
  if PrimFloat.leb n PrimFloat.one then Some PrimFloat.one
  else
    match fuel with
    | O => None
    | S fuel' =>
        option_map (PrimFloat.mul n)
          (factorial fuel' (PrimFloat.sub n PrimFloat.one))
    end.

End Hello.

(* ===================================================================== *)
(** * Notions used in the statements *)
(* ===================================================================== *)

Import ScopeValidator.
Import ApprovalManager.

(** ** Texts *)

Fixpoint allChars (f : ascii -> bool) (s : string) : bool :=
  match s with
  | EmptyString => true
  | String c s' => f c && allChars f s'
  end.

(** A text without line feed and carriage return. *)
Definition singleLine (s : string) : bool :=
  allChars (fun c => negb (RegExp.isLineTerminator c)) s.

Fixpoint dropChars (n : nat) (s : string) : string :=
  match n, s with
  | O, _ => s
  | S _, EmptyString => EmptyString
  | S n', String _ s' => dropChars n' s'
  end.

Definition isDigit (c : ascii) : bool := RegExp.memChar c "0123456789".

Fixpoint allDigits (s : string) : bool :=
  match s with
  | EmptyString => true
  | String c s' => isDigit c && allDigits s'
  end.

Definition startsWithStar (s : string) : bool :=
  match s with
  | String c _ => Ascii.eqb c "*"
  | EmptyString => false
  end.

Definition textOfLines (lines : list string) : string :=
  Js.join (String Js.LF EmptyString) lines.

(** ** Globs as the specification words them

    The two-character sequence of stars stands for any sequence of
    characters, path separators included; a single star for any
    sequence of characters other than the separator; the question mark
    for one character other than the separator; any other character
    for itself.  The whole path has to be matched.  [globMatches]
    follows these words and is what [globToRegex] is compared with. *)

Inductive globToken : Type :=
| AnyPath                (* two stars *)
| AnySegment             (* one star *)
| AnyChar                (* question mark *)
| Literal (c : ascii).

(** Stars pair up from the left, as the first pass of [globToRegex]
    pairs them. *)
Fixpoint tokenize (glob : string) : list globToken :=
  match glob with
  | EmptyString => []
  | String c rest =>
      if Ascii.eqb "*" c then
        match rest with
        | String c2 rest2 =>
            if Ascii.eqb "*" c2 then AnyPath :: tokenize rest2
            else AnySegment :: tokenize rest
        | EmptyString => AnySegment :: tokenize rest
        end
      else if Ascii.eqb "?" c then AnyChar :: tokenize rest
      else Literal c :: tokenize rest
  end.

Fixpoint globMatches (tokens : list globToken) (path : string) : bool :=
  match tokens with
  | [] => match path with EmptyString => true | String _ _ => false end
  | Literal c :: rest =>
      match path with
      | String x path' => Ascii.eqb c x && globMatches rest path'
      | EmptyString => false
      end
  | AnyChar :: rest =>
      match path with
      | String x path' => negb (Ascii.eqb x "/") && globMatches rest path'
      | EmptyString => false
      end
  | AnySegment :: rest =>
      (fix skip (p : string) : bool :=
         globMatches rest p ||
         match p with
         | String x p' => negb (Ascii.eqb x "/") && skip p'
         | EmptyString => false
         end) path
  | AnyPath :: rest =>
      (fix skip (p : string) : bool :=
         globMatches rest p ||
         match p with
         | String _ p' => skip p'
         | EmptyString => false
         end) path
  end.

(** What the code does with a path once the glob tier is reached. *)
Definition globTest (glob path : string) : bool :=
  match globToRegex glob with
  | Some r => RegExp.test r path
  | None => false
  end.

(** The expression that the table of the translation prescribes. *)
Definition itemOf (t : globToken) : RegExp.item :=
  match t with
  | AnyPath => RegExp.Item RegExp.Dot RegExp.Star false
  | AnySegment => RegExp.Item (RegExp.NoneOf "/") RegExp.Star false
  | AnyChar => RegExp.Item (RegExp.NoneOf "/") RegExp.One false
  | Literal c => RegExp.Item (RegExp.Chr c) RegExp.One false
  end.

(** ** The passes of [globToRegex], piece by piece *)

(** The texts made of the pieces the translation can produce. *)
Inductive fragment : string -> Prop :=
| frag_end : fragment EmptyString
| frag_plain c s :
    RegExp.isSyntaxChar c = false -> fragment s -> fragment (String c s)
| frag_escaped c s :
    RegExp.isEscaped c = true -> fragment s -> fragment (String "\" (String c s))
| frag_class s : fragment s -> fragment ("[^/]" +:+ s)
| frag_class_star s : fragment s -> fragment ("[^/]*" +:+ s)
| frag_dot_star s : fragment s -> fragment (".*" +:+ s).

(** What the three middle passes make of one character. *)
Definition glyph (c : ascii) : string :=
  if RegExp.isEscaped c then String "\" (String c EmptyString)
  else if Ascii.eqb "*" c then "[^/]*"
  else if Ascii.eqb "?" c then "[^/]"
  else String c EmptyString.

(** The text of a token before ([final = false]) and after the pass
    that replaces the placeholder. *)
Definition render (final : bool) (t : globToken) : string :=
  match t with
  | AnyPath => if final then ".*" else doubleStar
  | AnySegment => "[^/]*"
  | AnyChar => "[^/]"
  | Literal c => glyph c
  end.

Fixpoint renderAll (final : bool) (tokens : list globToken) : string :=
  match tokens with
  | [] => EmptyString
  | t :: rest => render final t +:+ renderAll final rest
  end.

(** The glob that a list of tokens was read from. *)
Fixpoint source (tokens : list globToken) : string :=
  match tokens with
  | [] => EmptyString
  | AnyPath :: rest => "**" +:+ source rest
  | AnySegment :: rest => "*" +:+ source rest
  | AnyChar :: rest => "?" +:+ source rest
  | Literal c :: rest => String c (source rest)
  end.

(** No literal token is a star or a question mark. *)
Fixpoint literalsPlain (tokens : list globToken) : bool :=
  match tokens with
  | [] => true
  | Literal c :: rest =>
      negb (Ascii.eqb "*" c) && negb (Ascii.eqb "?" c) && literalsPlain rest
  | _ :: rest => literalsPlain rest
  end.

(** The path [src/a(LF)b/hooks.ts]. *)
Definition pathWithLineFeed : string :=
  "src/a" +:+ String Js.LF "b/hooks.ts".

(** ** Lists of paths *)

(** The paths that [arePathsInScope] reports. *)
Definition offending (filePaths ownedScope : list string) : list string :=
  List.filter (fun p => negb (isWithinScope (isPathInScope p ownedScope))) filePaths.

(** Removal of duplicates that keeps every element at the place where
    it is seen first. *)
Fixpoint firstSeen (l : list string) : list string :=
  match l with
  | [] => []
  | x :: l' => x :: List.filter (fun y => negb (String.eqb y x)) (firstSeen l')
  end.

Definition optionToList (o : option string) : list string :=
  match o with Some x => [x] | None => [] end.

(** The paths that one line of a diff contributes, in the order of the
    two tests of [scanLine]. *)
Definition lineMatches (line : string) : list string :=
  optionToList (RegExp.exec fileHeaderRe line)
  ++ optionToList (RegExp.exec gitDiffRe line).

Definition matchesSignature (line : string) : bool :=
  match lineMatches line with [] => false | _ :: _ => true end.

(** The texts that the group [(.+)] captures whole when it runs to the
    end of the line: non-empty, without a line terminator. *)
Definition capturable (p : string) : bool :=
  match p with
  | EmptyString => false
  | String _ _ => singleLine p
  end.

(** Three characters out of plus and minus, then one white space, then
    [a] or [b], then a slash. *)
Definition isHeaderMarker (w : string) : bool :=
  match w with
  | String m1 (String m2 (String m3 (String sp (String side (String sl EmptyString))))) =>
      RegExp.memChar m1 "+-" && RegExp.memChar m2 "+-" && RegExp.memChar m3 "+-"
      && RegExp.isWhiteSpace sp && RegExp.memChar side "ab" && Ascii.eqb sl "/"
  | _ => false
  end.

(** ** States of the approval workflow *)

Definition idleEngine : IntentHookEngine.Engine :=
  {| IntentHookEngine.intents := ∅;
     IntentHookEngine.currentSessionIntent := None;
     IntentHookEngine.approvalManager := ApprovalManager.construct [] |}.

Definition freshManager : Manager := construct [].

Definition sampleRequest : ApprovalRequest :=
  createRequest 1700000000000 "0.4fzyo82mvyr" "2023-11-14T22:13:20.000Z"
    "Refactor auth module" "diff content here" ["src/auth/module.ts"]
    (Some "INT-001") None.

Definition approvedByAlice : Manager :=
  fst (recordDecision true "2023-11-14T22:13:21.000Z" "2023-11-14T22:13:21.001Z"
         "approval-1700000000000-4fzyo82mv" true "alice" None None freshManager).

Definition rejectedByBob : Manager :=
  fst (recordDecision true "2023-11-14T22:14:00.000Z" "2023-11-14T22:14:00.001Z"
         "approval-1700000000000-4fzyo82mv" false "bob" None None approvedByAlice).

(** The pending index files every request under its own id. *)
Definition pendingKeyed (m : Manager) : Prop :=
  forall key request, pendingRequests m !! key = Some request -> request_id request = key.

(** C3 as the claim states it: once an id is decided, a further
    [recordDecision] for it changes neither the stored decision nor the
    decisions found in the log for that id. *)
Definition decision_recorded_once : Prop :=
  forall (m : Manager) (requestId nowIso loggedAt who : string) (flag : bool)
         (notes : option string) (override : option bool) (first : ApprovalDecision),
    getDecision requestId m = Some first ->
    let m' := fst (recordDecision true nowIso loggedAt requestId flag who notes override m) in
    getDecision requestId m' = Some first /\
    decisionRecordsFor requestId (approvalLog m')
    = decisionRecordsFor requestId (approvalLog m).

(** C6 as the claim states it, granting even that the two random draws
    differ: two calls of [createRequest] never yield the same id. *)
Definition request_ids_always_distinct : Prop :=
  forall (nowMs1 nowMs2 : N) (random1 random2 nowIso1 nowIso2 : string)
         (summary1 summary2 diff1 diff2 : string) (files1 files2 : list string)
         (intent1 intent2 turn1 turn2 : option string),
    random1 <> random2 ->
    request_id (createRequest nowMs1 random1 nowIso1 summary1 diff1 files1 intent1 turn1)
    <> request_id (createRequest nowMs2 random2 nowIso2 summary2 diff2 files2 intent2 turn2).

(** ** Shapes of globs *)

(** The tokens of a glob without star and question mark. *)
Fixpoint literalTokens (s : string) : list globToken :=
  match s with
  | EmptyString => []
  | String c s' => Literal c :: literalTokens s'
  end.

Fixpoint countChar (c : ascii) (s : string) : nat :=
  match s with
  | EmptyString => 0
  | String x s' => (if Ascii.eqb c x then 1 else 0) + countChar c s'
  end.

Fixpoint noAnyPath (tokens : list globToken) : bool :=
  match tokens with
  | [] => true
  | AnyPath :: _ => false
  | _ :: rest => noAnyPath rest
  end.

(** ** Lines of a diff *)

(** A continuation that captures nothing. *)
Definition silent (k : string -> option string) : Prop :=
  forall s g, k s = Some g -> g = EmptyString.

(** The shape of a line from which [path] is extracted: a file header,
    or a [diff --git] header with [path] on the [a/] side. *)
Definition yields (line path : string) : Prop :=
  (exists marker, isHeaderMarker marker = true /\ line = marker +:+ path) \/
  (exists other, capturable other = true /\
                 line = "diff --git a/" +:+ path +:+ " b/" +:+ other).

(** A header that is a marker followed by a path. *)
Definition wellFormedHeader (entry : string * string) : Prop :=
  isHeaderMarker (fst entry) = true /\
  RegExp.memChar Js.LF (fst entry) = false /\
  capturable (snd entry) = true.

Definition headerLine (entry : string * string) : string :=
  fst entry +:+ snd entry.

(** After a repetition that stops before [rest], no longer repetition
    lets the continuation [k] succeed. *)
Definition noLongerMatch (p : ascii -> bool) (k : string -> option string)
    (rest : string) : Prop :=
  forall u v, rest = u +:+ v -> u <> EmptyString -> allChars p u = true -> k v = None.

(** ** Runs of the approval workflow *)

(** The calls that change a manager.  [Clear] with a failed removal of
    the log file changes nothing: the indices are cleared after the
    file is removed, inside the same [try]. *)
Inductive Operation : Type :=
| Submit (diskOk : bool) (loggedAt : string) (request : ApprovalRequest)
| LogRequest (diskOk : bool) (loggedAt : string) (request : ApprovalRequest)
| Decide (diskOk : bool) (nowIso loggedAt requestId : string) (flag : bool)
         (who : string) (notes : option string) (override : option bool)
| Poll (requestId : string)
| Clear (diskOk : bool).

Definition perform (m : Manager) (op : Operation) : Manager :=
  match op with
  | Submit diskOk loggedAt request => submitForApproval diskOk loggedAt request m
  | LogRequest diskOk loggedAt request => logRequest diskOk loggedAt request m
  | Decide diskOk nowIso loggedAt requestId flag who notes override =>
      fst (recordDecision diskOk nowIso loggedAt requestId flag who notes override m)
  | Poll requestId => fst (pollTick requestId m)
  | Clear diskOk => if diskOk then clearAllApprovals m else m
  end.

Definition run (ops : list Operation) (m : Manager) : Manager :=
  fold_left perform ops m.

Definition isClear (op : Operation) : bool :=
  match op with Clear _ => true | _ => false end.

Definition writeSucceeds (op : Operation) : bool :=
  match op with
  | Submit diskOk _ _ | LogRequest diskOk _ _ | Clear diskOk => diskOk
  | Decide diskOk _ _ _ _ _ _ _ => diskOk
  | Poll _ => true
  end.

(** The calls that can change the decision stored for [requestId]. *)
Definition touchesDecision (requestId : string) (op : Operation) : bool :=
  match op with
  | Decide _ _ _ decided _ _ _ _ => String.eqb decided requestId
  | Clear diskOk => diskOk
  | _ => false
  end.

(** The calls that can change the pending entry of [requestId]. *)
Definition touchesPending (requestId : string) (op : Operation) : bool :=
  match op with
  | Submit _ _ request => String.eqb (request_id request) requestId
  | Poll polled => String.eqb polled requestId
  | Clear diskOk => diskOk
  | _ => false
  end.

(** The decided index is what a replay of the log yields. *)
Definition replayable (m : Manager) : Prop :=
  approvedRequests m = loadApprovalLog (approvalLog m).

(** ** Sessions *)

Definition authIntent : IntentHookEngine.Intent :=
  {| IntentHookEngine.id := "INT-001";
     IntentHookEngine.name := "Refactor auth module";
     IntentHookEngine.status := "IN_PROGRESS";
     IntentHookEngine.owned_scope := ["src/auth/**"; "tests/auth/**"];
     IntentHookEngine.constraints := ["Keep the public API"];
     IntentHookEngine.acceptance_criteria := ["All auth tests pass"] |}.

Definition authRegistry : gmap string IntentHookEngine.Intent :=
  <["INT-001" := authIntent]> ∅.

Definition authSession : IntentHookEngine.Engine :=
  {| IntentHookEngine.intents := authRegistry;
     IntentHookEngine.currentSessionIntent := Some authIntent;
     IntentHookEngine.approvalManager := ApprovalManager.construct [] |}.

(** The engine whose approval manager has gone on to [m]. *)
Definition withManager (m : Manager) (e : IntentHookEngine.Engine)
  : IntentHookEngine.Engine :=
  {| IntentHookEngine.intents := IntentHookEngine.intents e;
     IntentHookEngine.currentSessionIntent := IntentHookEngine.currentSessionIntent e;
     IntentHookEngine.approvalManager := m |}.

Definition orFalse (flag : option bool) : bool :=
  match flag with Some b => b | None => false end.

(** ** Lessons *)

(** A call of the lesson recorder: the clock reading, the error of the
    write if it fails, and the lesson. *)
Record LessonCall : Type := {
  call_iso : string;
  call_error : option string;
  call_text : string
}.

Definition recordLessons (calls : list LessonCall) (file : option string)
  : option string :=
  fold_left
    (fun file call =>
       fst (LessonRecorder.appendLessonToClaude (call_iso call) (call_error call)
              (call_text call) file))
    calls file.

(** The entries of the calls whose write went through, in call order. *)
Definition written (calls : list LessonCall) : list string :=
  flat_map
    (fun call =>
       match call_error call with
       | None => [LessonRecorder.lessonEntry (call_iso call) (call_text call)]
       | Some _ => []
       end)
    calls.

Definition concatAll (texts : list string) : string :=
  fold_right String.append EmptyString texts.

Definition contentOrHeader (file : option string) : string :=
  match file with
  | Some content => content
  | None => LessonRecorder.header
  end.

(** ** Numbers *)

(** The float of a natural number below 2^53. *)
Definition floatOfNat (k : nat) : PrimFloat.float :=
  PrimFloat.of_uint63 (Uint63.of_Z (Z.of_nat k)).

(** The integer a float stands for, when it stands for one. *)
Definition integerValue (x : PrimFloat.float) : option Z :=
  match FloatOps.Prim2SF x with
  | SpecFloat.S754_zero _ => Some 0%Z
  | SpecFloat.S754_finite negative m e =>
      let magnitude :=
        match e with
        | Z0 => Some (Zpos m)
        | Zpos p => Some (Zpos m * 2 ^ Zpos p)%Z
        | Zneg p =>
            if (Zpos m mod 2 ^ Zpos p =? 0)%Z
            then Some (Zpos m / 2 ^ Zpos p)%Z
            else None
        end in
      option_map (fun v => if negative then (- v)%Z else v) magnitude
  | _ => None
  end.

(** The factorial of the integers. *)
Fixpoint productUpTo (k : nat) : Z :=
  match k with
  | O => 1%Z
  | S k' => (Z.of_nat k * productUpTo k')%Z
  end.

(** ** Lists in words *)

(** A comma-joined list as the specification words it: the first text,
    then every further text behind a comma and a blank. *)
Fixpoint behindCommas (texts : list string) : string :=
  match texts with
  | [] => EmptyString
  | text :: rest => ", " +:+ text +:+ behindCommas rest
  end.

Definition commaJoined (texts : list string) : string :=
  match texts with
  | [] => EmptyString
  | first :: rest => first +:+ behindCommas rest
  end.

(* ===================================================================== *)
(** * Properties *)
(* ===================================================================== *)

(** ** Facts about the string primitives *)

Lemma append_empty_r (s : string) : s +:+ EmptyString = s.
Proof. induction s as [|c s IH]; simpl; [reflexivity | now rewrite IH]. Qed.

Lemma append_assoc (a b c : string) : (a +:+ b) +:+ c = a +:+ (b +:+ c).
Proof. induction a as [|x a IH]; simpl; [reflexivity | now rewrite IH]. Qed.

Lemma startsWith_append (p s : string) : Js.startsWith (p +:+ s) p = true.
Proof.
  induction p as [|c p IH]; simpl; [reflexivity|].
  now rewrite Ascii.eqb_refl, IH.
Qed.

Lemma startsWith_inv (s p : string) :
  Js.startsWith s p = true -> exists rest, s = p +:+ rest.
Proof.
  revert s; induction p as [|c p IH]; intros s H; simpl in *.
  - now exists s.
  - destruct s as [|b s]; [discriminate|].
    apply andb_true_iff in H as [Hc Hp].
    apply Ascii.eqb_eq in Hc; subst b.
    destruct (IH _ Hp) as [rest ->]. now exists rest.
Qed.

Lemma replaceChars_append (f : ascii -> string) (a b : string) :
  Js.replaceChars f (a +:+ b) = Js.replaceChars f a +:+ Js.replaceChars f b.
Proof.
  induction a as [|c a IH]; simpl; [reflexivity|].
  now rewrite IH, append_assoc.
Qed.

(** A one-character needle is replaced character by character. *)
Lemma replaceAll_char (c : ascii) (repl s : string) :
  Js.replaceAll (String c EmptyString) repl s
  = Js.replaceChars (fun x => if Ascii.eqb c x then repl else String x EmptyString) s.
Proof.
  unfold Js.replaceAll.
  induction s as [|x s IH]; [reflexivity|].
  cbn [Js.replaceAllFrom Js.replaceChars Js.startsWith String.length Nat.sub].
  rewrite andb_true_r, IH.
  destruct (Ascii.eqb c x); reflexivity.
Qed.

Lemma normalizeSeparators_append (a b : string) :
  normalizeSeparators (a +:+ b) = normalizeSeparators a +:+ normalizeSeparators b.
Proof.
  unfold normalizeSeparators. rewrite !replaceAll_char. apply replaceChars_append.
Qed.

(** Without a backslash there is nothing to normalise. *)
Lemma normalizeSeparators_id (s : string) :
  RegExp.memChar "\" s = false -> normalizeSeparators s = s.
Proof.
  unfold normalizeSeparators. rewrite replaceAll_char.
  induction s as [|x s IH]; [reflexivity|].
  cbn [Js.replaceChars RegExp.memChar]. intros H.
  apply orb_false_iff in H as [Hx Hs].
  rewrite Hx, (IH Hs). reflexivity.
Qed.

(** ** The loop of [isPathInScope] *)

Lemma anyEntryMatches_existsb (np : string) (scope : list string) :
  anyEntryMatches np scope = existsb (matchesPattern np) scope.
Proof.
  induction scope as [|e scope IH]; simpl; [reflexivity|].
  rewrite IH. now destruct (matchesPattern np e).
Qed.

(** The loop answers [true] exactly when the list splits at a first
    matching entry; what follows that entry is never looked at. *)
Lemma anyEntryMatches_first (np : string) (scope : list string) :
  anyEntryMatches np scope = true <->
  exists before entry after,
    scope = before ++ entry :: after /\
    Forall (fun e => matchesPattern np e = false) before /\
    matchesPattern np entry = true.
Proof.
  induction scope as [|e scope IH]; simpl.
  - split; [discriminate|]. intros (b & x & a & H & _). now destruct b.
  - destruct (matchesPattern np e) eqn:He.
    + split; [|reflexivity]. intros _. exists [], e, scope. now repeat split.
    + rewrite IH. split.
      * intros (b & x & a & -> & Hb & Hx). exists (e :: b), x, a.
        repeat split; auto.
      * intros (b & x & a & Heq & Hb & Hx).
        destruct b as [|y b]; simpl in Heq; injection Heq as -> ->.
        -- congruence.
        -- exists b, x, a. inversion Hb; subst. now repeat split.
Qed.

Lemma anyEntryMatches_skips_rest (np : string) (before after : list string) (entry : string) :
  matchesPattern np entry = true ->
  anyEntryMatches np (before ++ entry :: after) = true.
Proof.
  intros H. rewrite anyEntryMatches_existsb, existsb_app. simpl.
  rewrite H. now rewrite orb_true_r.
Qed.

Lemma isPathInScope_within (path : string) (scope : list string) :
  isWithinScope (isPathInScope path scope)
  = anyEntryMatches (normalizeSeparators path) scope.
Proof.
  destruct scope as [|e scope]; [reflexivity|].
  unfold isPathInScope.
  now destruct (anyEntryMatches (normalizeSeparators path) (e :: scope)).
Qed.

(** ** The tiers of [matchesPattern] *)

Lemma matchesPattern_exact (np pat : string) :
  np = normalizeSeparators pat -> matchesPattern np pat = true.
Proof. intros ->. unfold matchesPattern. now rewrite String.eqb_refl. Qed.

Lemma matchesPattern_directory (np pat : string) :
  Js.endsWith (normalizeSeparators pat) "/" = true ->
  matchesPattern np pat = Js.startsWith np (normalizeSeparators pat).
Proof.
  intros H. unfold matchesPattern. rewrite H.
  destruct (String.eqb_spec np (normalizeSeparators pat)) as [->|]; [|reflexivity].
  symmetry. rewrite <- (append_empty_r (normalizeSeparators pat)) at 1.
  apply startsWith_append.
Qed.

Lemma matchesPattern_glob (np pat : string) :
  np <> normalizeSeparators pat ->
  Js.endsWith (normalizeSeparators pat) "/" = false ->
  matchesPattern np pat
  = match globToRegex (normalizeSeparators pat) with
    | Some r => RegExp.test r np
    | None => false
    end.
Proof.
  intros Hne H. unfold matchesPattern. rewrite H.
  now destruct (String.eqb_spec np (normalizeSeparators pat)).
Qed.

Lemma directory_pattern_covers (dir rest : string) :
  Js.endsWith (normalizeSeparators dir) "/" = true ->
  matchesPattern (normalizeSeparators (dir +:+ rest)) dir = true.
Proof.
  intros H. rewrite matchesPattern_directory by exact H.
  rewrite normalizeSeparators_append. apply startsWith_append.
Qed.

(** ** The expression built by [globToRegex] lies in the fragment *)

Lemma dropChars_append (p s : string) : dropChars (String.length p) (p +:+ s) = s.
Proof. induction p as [|c p IH]; simpl; [reflexivity | exact IH]. Qed.

Lemma length_append (a b : string) :
  String.length (a +:+ b) = String.length a + String.length b.
Proof. induction a as [|c a IH]; simpl; [reflexivity | now rewrite IH]. Qed.

Lemma replaceAllFrom_skip (needle repl : string) (k : nat) (s : string) :
  Js.replaceAllFrom k needle repl s = Js.replaceAll needle repl (dropChars k s).
Proof.
  revert s; induction k as [|k IH]; intros s; [reflexivity|].
  destruct s as [|c s]; [reflexivity|]. simpl. apply IH.
Qed.

Lemma replaceAll_miss (needle repl : string) (c : ascii) (s : string) :
  Js.startsWith (String c s) needle = false ->
  Js.replaceAll needle repl (String c s) = String c (Js.replaceAll needle repl s).
Proof. intros H. unfold Js.replaceAll. cbn [Js.replaceAllFrom]. now rewrite H. Qed.

Lemma replaceAll_hit (needle repl : string) (c : ascii) (rest : string) :
  Js.replaceAll (String c needle) repl (String c needle +:+ rest)
  = repl +:+ Js.replaceAll (String c needle) repl rest.
Proof.
  unfold Js.replaceAll at 1.
  change (String c needle +:+ rest) with (String c (needle +:+ rest)).
  cbn [Js.replaceAllFrom].
  change (String c (needle +:+ rest)) with (String c needle +:+ rest).
  rewrite startsWith_append. f_equal.
  rewrite replaceAllFrom_skip. cbn [String.length Nat.sub].
  now rewrite Nat.sub_0_r, dropChars_append.
Qed.

Lemma isSyntaxChar_split (c : ascii) :
  RegExp.isSyntaxChar c
  = RegExp.isEscaped c || Ascii.eqb c "*" || Ascii.eqb c "?".
Proof. destruct c as [[] [] [] [] [] [] [] []]; reflexivity. Qed.

Lemma frag_plain_inv (c : ascii) (s : string) :
  RegExp.isSyntaxChar c = false -> fragment (String c s) -> fragment s.
Proof.
  intros Hc H. inversion H; subst; try assumption; discriminate Hc.
Qed.

Lemma fragment_after_placeholder (t : string) :
  fragment (doubleStar +:+ t) -> fragment t.
Proof.
  unfold doubleStar. simpl. intros H.
  repeat (apply frag_plain_inv in H; [|reflexivity]). exact H.
Qed.

Lemma placeholder_miss (c : ascii) (s : string) :
  Ascii.eqb "_" c = false ->
  Js.replaceAll doubleStar ".*" (String c s)
  = String c (Js.replaceAll doubleStar ".*" s).
Proof.
  intros H. apply replaceAll_miss. unfold doubleStar.
  cbn [Js.startsWith]. now rewrite H.
Qed.

Lemma escaped_not_placeholder (c : ascii) :
  RegExp.isEscaped c = true -> Ascii.eqb "_" c = false.
Proof.
  intros H. destruct (Ascii.eqb_spec "_" c) as [<-|]; [discriminate H | reflexivity].
Qed.

(** The last pass keeps a text in the fragment, whatever it replaces. *)
Lemma fragment_placeholder_pass (s : string) :
  fragment s -> fragment (Js.replaceAll doubleStar ".*" s).
Proof.
  remember (String.length s) as n eqn:Hn.
  revert s Hn. induction n as [n IH] using lt_wf_ind. intros s Hn H.
  destruct H as [|c s Hc H|c s Hc H|s H|s H|s H].
  - constructor.
  - destruct (Js.startsWith (String c s) doubleStar) eqn:Hp.
    + apply startsWith_inv in Hp as [t Ht].
      assert (Hf : fragment (doubleStar +:+ t)) by (rewrite <- Ht; now constructor).
      rewrite Ht. unfold doubleStar at 1 2. rewrite replaceAll_hit.
      apply frag_dot_star.
      apply (IH (String.length t)); [|reflexivity|now apply fragment_after_placeholder].
      subst n. rewrite Ht, length_append. unfold doubleStar. simpl. lia.
    + rewrite replaceAll_miss by exact Hp. apply frag_plain; [exact Hc|].
      apply (IH (String.length s)); [subst n; simpl; lia | reflexivity | exact H].
  - rewrite placeholder_miss by reflexivity.
    rewrite placeholder_miss by now apply escaped_not_placeholder.
    apply frag_escaped; [exact Hc|].
    apply (IH (String.length s)); [subst n; simpl; lia | reflexivity | exact H].
  - simpl. rewrite !placeholder_miss by reflexivity.
    apply (frag_class (Js.replaceAll doubleStar ".*" s)).
    apply (IH (String.length s)); [subst n; simpl; lia | reflexivity | exact H].
  - simpl. rewrite !placeholder_miss by reflexivity.
    apply (frag_class_star (Js.replaceAll doubleStar ".*" s)).
    apply (IH (String.length s)); [subst n; simpl; lia | reflexivity | exact H].
  - simpl. rewrite !placeholder_miss by reflexivity.
    apply (frag_dot_star (Js.replaceAll doubleStar ".*" s)).
    apply (IH (String.length s)); [subst n; simpl; lia | reflexivity | exact H].
Qed.

Lemma middle_passes_char (c : ascii) :
  Js.replaceChars (fun x => if Ascii.eqb "?" x then "[^/]" else String x EmptyString)
    (Js.replaceChars (fun x => if Ascii.eqb "*" x then "[^/]*" else String x EmptyString)
       (escapeChar c))
  = glyph c.
Proof. destruct c as [[] [] [] [] [] [] [] []]; reflexivity. Qed.

Lemma middle_passes (s : string) :
  Js.replaceAll "?" "[^/]" (Js.replaceAll "*" "[^/]*" (Js.replaceChars escapeChar s))
  = Js.replaceChars glyph s.
Proof.
  rewrite !replaceAll_char.
  induction s as [|c s IH]; [reflexivity|].
  cbn [Js.replaceChars]. rewrite !replaceChars_append, IH.
  now rewrite middle_passes_char.
Qed.

Lemma fragment_of_glob_passes (s : string) :
  fragment (Js.replaceAll "?" "[^/]"
              (Js.replaceAll "*" "[^/]*" (Js.replaceChars escapeChar s))).
Proof.
  rewrite middle_passes.
  induction s as [|c s IH]; [constructor|].
  cbn [Js.replaceChars]. unfold glyph at 1.
  destruct (RegExp.isEscaped c) eqn:He; [now apply frag_escaped|].
  destruct (Ascii.eqb "*" c) eqn:Hs; [now apply (frag_class_star _)|].
  destruct (Ascii.eqb "?" c) eqn:Hq; [now apply (frag_class _)|].
  apply frag_plain; [|exact IH].
  rewrite isSyntaxChar_split, He, (Ascii.eqb_sym c "*"), (Ascii.eqb_sym c "?"), Hs, Hq.
  reflexivity.
Qed.

Lemma fragment_of_glob (glob : string) :
  exists body, globToRegexSource glob = "^" +:+ body +:+ "$" /\ fragment body.
Proof.
  eexists; split; [reflexivity|].
  apply fragment_placeholder_pass, fragment_of_glob_passes.
Qed.

(** The steps of [parseItems] on the pieces of the fragment. *)

Section ParseSteps.

Variables (rest : string) (r : RegExp.regex).
Hypothesis Hrest : RegExp.parseItems rest = Some r.

Lemma parseItems_dot_star :
  RegExp.parseItems (".*" +:+ rest) = Some (RegExp.Item RegExp.Dot RegExp.Star false :: r).
Proof. cbn -[RegExp.parseItems]. cbn [RegExp.parseItems]. now rewrite Hrest. Qed.

Lemma parseItems_class_star :
  RegExp.parseItems ("[^/]*" +:+ rest)
  = Some (RegExp.Item (RegExp.NoneOf "/") RegExp.Star false :: r).
Proof. cbn -[RegExp.parseItems]. cbn [RegExp.parseItems]. now rewrite Hrest. Qed.

Hypothesis Hhead : startsWithStar rest = false.

Lemma parseItems_class :
  RegExp.parseItems ("[^/]" +:+ rest)
  = Some (RegExp.Item (RegExp.NoneOf "/") RegExp.One false :: r).
Proof.
  cbn -[RegExp.parseItems]. cbn [RegExp.parseItems].
  change (Ascii.eqb "[" "$") with false. change (Ascii.eqb "[" "\") with false.
  change (Ascii.eqb "[" "[") with true. cbv iota.
  destruct rest as [|q rest']; [discriminate Hrest|].
  simpl in Hhead. now rewrite Hhead, Hrest.
Qed.

Lemma parseItems_escaped (c : ascii) :
  RegExp.isEscaped c = true ->
  RegExp.parseItems (String "\" (String c rest))
  = Some (RegExp.Item (RegExp.Chr c) RegExp.One false :: r).
Proof.
  intros Hc. cbn [RegExp.parseItems]. rewrite Hc.
  change (Ascii.eqb "\" "$") with false. change (Ascii.eqb "\" "\") with true.
  cbv iota.
  destruct rest as [|q rest']; [discriminate Hrest|].
  simpl in Hhead. now rewrite Hhead, Hrest.
Qed.

Lemma parseItems_plain (c : ascii) :
  RegExp.isSyntaxChar c = false ->
  RegExp.parseItems (String c rest)
  = Some (RegExp.Item (RegExp.Chr c) RegExp.One false :: r).
Proof.
  intros Hc. cbn [RegExp.parseItems]. rewrite Hc.
  rewrite isSyntaxChar_split in Hc.
  assert (H1 : Ascii.eqb c "$" = false)
    by (destruct (Ascii.eqb_spec c "$") as [->|]; [discriminate Hc | reflexivity]).
  assert (H2 : Ascii.eqb c "\" = false)
    by (destruct (Ascii.eqb_spec c "\") as [->|]; [discriminate Hc | reflexivity]).
  assert (H3 : Ascii.eqb c "[" = false)
    by (destruct (Ascii.eqb_spec c "[") as [->|]; [discriminate Hc | reflexivity]).
  assert (H4 : Ascii.eqb c "." = false)
    by (destruct (Ascii.eqb_spec c ".") as [->|]; [discriminate Hc | reflexivity]).
  rewrite H1, H2, H3, H4.
  destruct rest as [|q rest']; [discriminate Hrest|].
  simpl in Hhead. now rewrite Hhead, Hrest.
Qed.

End ParseSteps.

Lemma fragment_head (s : string) :
  fragment s -> startsWithStar (s +:+ "$") = false.
Proof.
  intros [|c s' Hc _|c s' _ _|s' _|s' _|s' _]; try reflexivity.
  simpl. rewrite isSyntaxChar_split in Hc.
  apply orb_false_iff in Hc as [Hc _]. now apply orb_false_iff in Hc as [_ Hc].
Qed.

Lemma parseItems_fragment (s : string) :
  fragment s -> exists r, RegExp.parseItems (s +:+ "$") = Some r.
Proof.
  induction 1 as [|c s Hc H [r IH]|c s Hc H [r IH]|s H [r IH]|s H [r IH]|s H [r IH]].
  - now exists [].
  - eexists. apply parseItems_plain; [exact IH | now apply fragment_head | exact Hc].
  - eexists. apply parseItems_escaped; [exact IH | now apply fragment_head | exact Hc].
  - eexists. rewrite append_assoc.
    apply parseItems_class; [exact IH | now apply fragment_head].
  - eexists. rewrite append_assoc. apply parseItems_class_star. exact IH.
  - eexists. rewrite append_assoc. apply parseItems_dot_star. exact IH.
Qed.

(** [new RegExp] never fails on what [globToRegex] hands to it. *)
Lemma globToRegex_compiles (glob : string) :
  exists r, globToRegex glob = Some r.
Proof.
  destruct (fragment_of_glob glob) as (body & Hsrc & Hfrag).
  destruct (parseItems_fragment _ Hfrag) as [r Hr].
  exists r. unfold globToRegex. rewrite Hsrc. exact Hr.
Qed.

(* ===================================================================== *)
(** * The claims about [ScopeValidator] *)
(* ===================================================================== *)

(** C9.  On an empty list of paths [arePathsInScope] answers "within
    scope" for every list of patterns, the empty one included, although
    [isPathInScope] answers "not within scope" for every single path
    when the list of patterns is empty. *)
Theorem arePathsInScope_empty_paths :
  (forall ownedScope : list string,
     isWithinScope (arePathsInScope [] ownedScope) = true) /\
  (forall filePath : string,
     isWithinScope (isPathInScope filePath []) = false) /\
  isWithinScope (arePathsInScope [] []) = true.
Proof. repeat split. Qed.

Lemma forallb_map {A B : Type} (f : A -> B) (g : B -> bool) (l : list A) :
  forallb g (map f l) = forallb (fun x => g (f x)) l.
Proof. induction l as [|x l IH]; simpl; [reflexivity | now rewrite IH]. Qed.

Lemma arePathsInScope_within (filePaths ownedScope : list string) :
  isWithinScope (arePathsInScope filePaths ownedScope)
  = forallb (fun p => isWithinScope (isPathInScope p ownedScope)) filePaths.
Proof.
  unfold arePathsInScope. rewrite forallb_map.
  now destruct (forallb _ filePaths).
Qed.

(** The first element of a filtered list is the first element of the
    list that passes the filter. *)
Lemma filter_first {A : Type} (f : A -> bool) (l : list A) (x : A) :
  nth_error (List.filter f l) 0 = Some x <->
  exists before after,
    l = before ++ x :: after /\ forallb (fun y => negb (f y)) before = true /\ f x = true.
Proof.
  induction l as [|y l IH]; simpl.
  - split; [discriminate|]. intros (b & a & H & _). now destruct b.
  - destruct (f y) eqn:Hy; simpl.
    + split.
      * intros [= ->]. now exists [], l.
      * intros (b & a & Heq & Hb & Hx). destruct b as [|z b]; simpl in *.
        -- now injection Heq as ->.
        -- injection Heq as -> ->. rewrite Hy in Hb. discriminate.
    + rewrite IH. split.
      * intros (b & a & -> & Hb & Hx). exists (y :: b), a. simpl.
        now rewrite Hy.
      * intros (b & a & Heq & Hb & Hx). destruct b as [|z b]; simpl in *.
        -- injection Heq as -> ->. congruence.
        -- injection Heq as -> ->. exists b, a.
           apply andb_true_iff in Hb as [_ Hb]. now repeat split.
Qed.

Lemma join_commaJoined (texts : list string) : Js.join ", " texts = commaJoined texts.
Proof.
  destruct texts as [|first rest]; [reflexivity|].
  revert first; induction rest as [|second rest IH]; intros first.
  - cbn [Js.join commaJoined behindCommas]. now rewrite append_empty_r.
  - change (Js.join ", " (first :: second :: rest))
      with (first +:+ ", " +:+ Js.join ", " (second :: rest)).
    rewrite IH. reflexivity.
Qed.

(** C5.  [arePathsInScope] succeeds exactly when every path of the list
    passes [isPathInScope] on its own.  When it fails, the reason is
    the number of offending paths, the text " file(s) outside scope: "
    and the offending paths joined by ", " in the order of the input,
    and [attemptedPath] is the first path of the input that is out of
    scope.  The joined list is the comma-joined list of the
    specification, [commaJoined]: the first offending path, then every
    further one behind a comma and a blank.  The example of the
    specification is included, and so are inputs with two and with
    eleven offending paths. *)
Theorem arePathsInScope_all_or_nothing (filePaths ownedScope : list string) :
  let result := arePathsInScope filePaths ownedScope in
  let inScope := fun p => isWithinScope (isPathInScope p ownedScope) in
  (isWithinScope result = true <-> forall p, In p filePaths -> inScope p = true) /\
  (isWithinScope result = false ->
     reason result
     = Some (Js.numberToString (N.of_nat (length (offending filePaths ownedScope)))
             +:+ " file(s) outside scope: "
             +:+ Js.join ", " (offending filePaths ownedScope)) /\
     reason result
     = Some (Js.numberToString (N.of_nat (length (offending filePaths ownedScope)))
             +:+ " file(s) outside scope: "
             +:+ commaJoined (offending filePaths ownedScope)) /\
     offending filePaths ownedScope = List.filter (fun p => negb (inScope p)) filePaths /\
     exists before first after,
       filePaths = before ++ first :: after /\
       (forall p, In p before -> inScope p = true) /\
       inScope first = false /\
       attemptedPath result = Some first) /\
  (let example := arePathsInScope ["src/auth/ok.ts"; "src/db/bad.ts"] ["src/auth/"] in
   isWithinScope example = false /\
   reason example = Some "1 file(s) outside scope: src/db/bad.ts" /\
   attemptedPath example = Some "src/db/bad.ts" /\
   match reason example with
   | Some text => Js.includes text "1 file(s) outside scope" = true
   | None => False
   end) /\
  (let two :=
     arePathsInScope ["src/db/a.ts"; "src/auth/ok.ts"; "src/ui/b.ts"] ["src/auth/"] in
   isWithinScope two = false /\
   reason two = Some "2 file(s) outside scope: src/db/a.ts, src/ui/b.ts" /\
   attemptedPath two = Some "src/db/a.ts") /\
  (let eleven :=
     arePathsInScope
       ["k.ts"; "j.ts"; "i.ts"; "h.ts"; "src/in.ts"; "g.ts"; "f.ts"; "e.ts"; "d.ts";
        "c.ts"; "b.ts"; "a.ts"] ["src/"] in
   isWithinScope eleven = false /\
   reason eleven
   = Some ("11 file(s) outside scope: "
           +:+ "k.ts, j.ts, i.ts, h.ts, g.ts, f.ts, e.ts, d.ts, c.ts, b.ts, a.ts") /\
   attemptedPath eleven = Some "k.ts").
Proof.
  cbv zeta. split; [|split; [|split; [|split]]].
  - rewrite arePathsInScope_within, forallb_forall. reflexivity.
  - intros Hfail. rewrite arePathsInScope_within in Hfail.
    unfold arePathsInScope. rewrite forallb_map, Hfail.
    fold (offending filePaths ownedScope).
    cbn [reason attemptedPath].
    split; [reflexivity|]. split; [now rewrite join_commaJoined|].
    split; [reflexivity|].
    destruct (nth_error (offending filePaths ownedScope) 0) as [first|] eqn:Hfirst.
    + apply filter_first in Hfirst as (before & after & Heq & Hb & Hx).
      exists before, first, after. repeat split; auto.
      * intros p Hp. rewrite forallb_forall in Hb. specialize (Hb p Hp).
        now rewrite negb_involutive in Hb.
      * now apply negb_true_iff in Hx.
    + exfalso. unfold offending in Hfirst.
      assert (Hall : forallb (fun p => isWithinScope (isPathInScope p ownedScope))
                       filePaths = true); [|congruence].
      clear Hfail. induction filePaths as [|p l IH]; [reflexivity|].
      simpl in *. destruct (isWithinScope (isPathInScope p ownedScope)); simpl in *.
      * now apply IH.
      * discriminate Hfirst.
  - vm_compute. repeat split.
  - vm_compute. repeat split.
  - vm_compute. repeat split.
Qed.

(** C4.  For a non-empty list of patterns [isPathInScope] walks the
    list in order and stops at the first pattern that matches; what
    comes after that pattern has no influence.  One pattern is tried in
    three tiers, on the path and the pattern with their separators
    normalised: equality, then, for a pattern ending in a slash, the
    prefix test and nothing else, then the glob expression.  A path
    below a directory pattern is in scope at any depth, and a pattern
    equal to the path matches whatever characters it holds. *)
Theorem isPathInScope_three_tiers (filePath entry : string) (others : list string) :
  let ownedScope := entry :: others in
  let np := normalizeSeparators filePath in
  (isWithinScope (isPathInScope filePath ownedScope) = true <->
     exists before e after,
       ownedScope = before ++ e :: after /\
       Forall (fun x => matchesPattern np x = false) before /\
       matchesPattern np e = true) /\
  (forall before e after after',
     matchesPattern np e = true ->
     isWithinScope (isPathInScope filePath (before ++ e :: after))
     = isWithinScope (isPathInScope filePath (before ++ e :: after'))) /\
  (forall pat,
     let n := normalizeSeparators pat in
     (np = n -> matchesPattern np pat = true) /\
     (np <> n -> Js.endsWith n "/" = true ->
        matchesPattern np pat = Js.startsWith np n) /\
     (np <> n -> Js.endsWith n "/" = false ->
        exists r, globToRegex n = Some r /\
                  matchesPattern np pat = RegExp.test r np)) /\
  (RegExp.memChar "\" filePath = false -> np = filePath) /\
  (forall dir rest,
     In dir ownedScope -> Js.endsWith (normalizeSeparators dir) "/" = true ->
     filePath = dir +:+ rest ->
     isWithinScope (isPathInScope filePath ownedScope) = true) /\
  isWithinScope (isPathInScope filePath [filePath]) = true /\
  isWithinScope (isPathInScope "src/auth/x/y.ts" ["src/auth/"]) = true /\
  isWithinScope (isPathInScope "src/auth/strategies/jwt/handler.ts" ["src/auth/"]) = true /\
  (matchesPattern "a/" "**/" = false /\
   exists r, globToRegex "**/" = Some r /\ RegExp.test r "a/" = true).
Proof.
  cbv zeta. split; [|split; [|split; [|split; [|split; [|split; [|split; [|split]]]]]]].
  - rewrite isPathInScope_within. apply anyEntryMatches_first.
  - intros before e after after' He.
    rewrite !isPathInScope_within, !anyEntryMatches_skips_rest by exact He.
    reflexivity.
  - intros pat. split; [|split].
    + intros Heq. now apply matchesPattern_exact.
    + intros _ Hdir. now apply matchesPattern_directory.
    + intros Hne Hdir.
      destruct (globToRegex_compiles (normalizeSeparators pat)) as [r Hr].
      exists r. split; [exact Hr|].
      rewrite matchesPattern_glob by assumption. now rewrite Hr.
  - apply normalizeSeparators_id.
  - intros dir rest Hin Hdir ->.
    rewrite isPathInScope_within, anyEntryMatches_existsb.
    apply existsb_exists. exists dir. split; [exact Hin|].
    now apply directory_pattern_covers.
  - rewrite isPathInScope_within. simpl.
    now rewrite matchesPattern_exact.
  - reflexivity.
  - reflexivity.
  - split; [reflexivity|]. eexists. split; reflexivity.
Qed.

(* ===================================================================== *)
(** * The claim about [IntentHookEngine.validateScope] *)
(* ===================================================================== *)

Lemma string_of_uint_digits (d : Decimal.uint) :
  allDigits (NilEmpty.string_of_uint d) = true.
Proof. induction d; simpl; auto. Qed.

Lemma numberToString_digits (n : N) : allDigits (Js.numberToString n) = true.
Proof. apply string_of_uint_digits. Qed.

Lemma numberToString_head (n : N) :
  exists d rest, Js.numberToString n = String d rest /\ isDigit d = true.
Proof.
  pose proof (numberToString_digits n) as Hd.
  unfold Js.numberToString in *.
  destruct n as [|p]; [now exists "0"%char, EmptyString|].
  pose proof (DecimalPos.Unsigned.to_uint_nonnil p) as Hnil.
  change (N.to_uint (N.pos p)) with (Pos.to_uint p) in *.
  destruct (Pos.to_uint p) as [|u|u|u|u|u|u|u|u|u|u]; [congruence| | | | | | | | | | ];
    simpl; eauto.
Qed.

(** C7.  With no active intent [validateScope] returns a result, for
    every list of paths: not within scope, with the reason
    "No active intent - cannot validate scope", which mentions
    "no active intent" (letter case apart).  The reason of a call with
    an active intent is never that text: when there is one, it starts
    with the number of offending paths. *)
Theorem validateScope_no_active_intent
    (filePaths : list string) (e : IntentHookEngine.Engine) :
  IntentHookEngine.currentSessionIntent e = None ->
  let result := IntentHookEngine.validateScope filePaths e in
  isWithinScope result = false /\
  reason result = Some "No active intent - cannot validate scope" /\
  attemptedPath result = nth_error filePaths 0 /\
  (exists text,
     reason result = Some text /\
     Js.includes text "No active intent" = true /\
     Js.includes (Js.toLowerCase text) "no active intent" = true) /\
  (forall e' filePaths' intent,
     IntentHookEngine.currentSessionIntent e' = Some intent ->
     reason (IntentHookEngine.validateScope filePaths' e') <> reason result /\
     forall text,
       reason (IntentHookEngine.validateScope filePaths' e') = Some text ->
       isWithinScope (IntentHookEngine.validateScope filePaths' e') = false /\
       exists d rest, text = String d rest /\ isDigit d = true).
Proof.
  intros Hnone. unfold IntentHookEngine.validateScope. rewrite Hnone. cbv zeta.
  cbn [isWithinScope reason attemptedPath].
  split; [reflexivity|]. split; [reflexivity|]. split; [reflexivity|]. split.
  - eexists. split; [reflexivity|]. split; reflexivity.
  - intros e' filePaths' intent Hsome. rewrite Hsome.
    assert (Hshape : forall text,
      reason (arePathsInScope filePaths' (IntentHookEngine.owned_scope intent))
      = Some text ->
      isWithinScope (arePathsInScope filePaths' (IntentHookEngine.owned_scope intent))
      = false /\
      exists d rest, text = String d rest /\ isDigit d = true).
    { intros text. unfold arePathsInScope.
      destruct (forallb isWithinScope _); cbn [reason isWithinScope]; [discriminate|].
      intros [= <-]. split; [reflexivity|].
      destruct (numberToString_head
                  (N.of_nat (length (List.filter
                     (fun p => negb (isWithinScope
                        (isPathInScope p (IntentHookEngine.owned_scope intent))))
                     filePaths'))))
        as (d & rest & -> & Hd).
      simpl. eauto. }
    split; [|exact Hshape].
    intros Heq. destruct (Hshape _ Heq) as (_ & d & rest & [= <- _] & Hd).
    discriminate Hd.
Qed.

(** C7 at an engine without an active intent and one path. *)
Lemma validateScope_no_active_intent_witness :
  IntentHookEngine.currentSessionIntent idleEngine = None /\
  isWithinScope (IntentHookEngine.validateScope ["src/auth/middleware.ts"] idleEngine)
  = false /\
  reason (IntentHookEngine.validateScope ["src/auth/middleware.ts"] idleEngine)
  = Some "No active intent - cannot validate scope".
Proof.
  split; [reflexivity|].
  pose proof (validateScope_no_active_intent
                ["src/auth/middleware.ts"] idleEngine eq_refl) as H.
  split; [exact (proj1 H) | exact (proj1 (proj2 H))].
Defined.

(* ===================================================================== *)
(** * The claims about [ApprovalManager] *)
(* ===================================================================== *)

(** ** What [recordDecision] changes *)

Section Decisions.

Variables (diskOk : bool) (nowIso loggedAt : string).
Variables (requestId : string) (flag : bool) (who : string).
Variables (notes : option string) (override : option bool).

Local Abbreviation decided m :=
  (recordDecision diskOk nowIso loggedAt requestId flag who notes override m).

Lemma recordDecision_decision (m : Manager) :
  snd (decided m)
  = {| decision_request_id := requestId;
       decision_timestamp := nowIso;
       approved := flag;
       approver := who;
       approver_notes := notes;
       requires_override := override |}.
Proof. reflexivity. Qed.

Lemma recordDecision_getDecision (m : Manager) :
  getDecision requestId (fst (decided m)) = Some (snd (decided m)).
Proof. unfold getDecision. simpl. apply lookup_insert_eq. Qed.

Lemma recordDecision_getDecision_other (m : Manager) (other : string) :
  other <> requestId ->
  getDecision other (fst (decided m)) = getDecision other m.
Proof. intros H. unfold getDecision. simpl. now apply lookup_insert_ne. Qed.

Lemma recordDecision_isApproved (m : Manager) :
  isApproved requestId (fst (decided m)) = flag.
Proof. unfold isApproved. simpl. now rewrite lookup_insert_eq. Qed.

(** [recordDecision] does not touch the pending index. *)
Lemma recordDecision_pending (m : Manager) (anyId : string) :
  getPendingRequest anyId (fst (decided m)) = getPendingRequest anyId m.
Proof. reflexivity. Qed.

Lemma recordDecision_pollers (m : Manager) :
  pollers (fst (decided m)) = pollers m.
Proof. reflexivity. Qed.

Lemma recordDecision_log (m : Manager) :
  approvalLog (fst (decided m))
  = appendRecord diskOk
      (DecisionRecord
         (match getPendingRequest requestId m with
          | Some request => KnownRequest request
          | None => IdOnly requestId
          end)
         (snd (decided m)) loggedAt)
      (approvalLog m).
Proof. reflexivity. Qed.

End Decisions.

Lemma submitForApproval_pending (diskOk : bool) (loggedAt : string)
    (request : ApprovalRequest) (m : Manager) :
  getPendingRequest (request_id request) (submitForApproval diskOk loggedAt request m)
  = Some request.
Proof. unfold getPendingRequest. simpl. apply lookup_insert_eq. Qed.

Lemma submitForApproval_polls (diskOk : bool) (loggedAt : string)
    (request : ApprovalRequest) (m : Manager) :
  existsb (String.eqb (request_id request))
    (pollers (submitForApproval diskOk loggedAt request m)) = true.
Proof.
  simpl. rewrite existsb_app. simpl. now rewrite String.eqb_refl, orb_true_r.
Qed.

(** C1.  Immediately after [recordDecision] the decided index holds the
    decision and [isApproved] is the flag that was recorded.  A request
    that went through [submitForApproval] is nevertheless still in the
    pending index at that moment: [recordDecision] leaves the pending
    index alone, and the request is deleted only when the timer of the
    suspended caller fires next.  The last part evaluates the sequence
    [submitForApproval(request)], [recordDecision(id, true, "alice")]
    on a fresh manager. *)
Theorem recordDecision_leaves_submitted_request_pending
    (diskOk1 diskOk2 : bool) (loggedAt1 nowIso loggedAt2 : string)
    (request : ApprovalRequest) (flag : bool) (who : string)
    (notes : option string) (override : option bool) (m : Manager) :
  let id := request_id request in
  let submitted := submitForApproval diskOk1 loggedAt1 request m in
  let recorded :=
    recordDecision diskOk2 nowIso loggedAt2 id flag who notes override submitted in
  let polled := pollTick id (fst recorded) in
  (getDecision id (fst recorded) = Some (snd recorded) /\
   isApproved id (fst recorded) = flag /\
   getPendingRequest id (fst recorded) = Some request) /\
  (snd polled = Some (snd recorded) /\
   getPendingRequest id (fst polled) = None /\
   getDecision id (fst polled) = Some (snd recorded)) /\
  (let recorded' :=
     recordDecision true "2023-11-14T22:13:21.000Z" "2023-11-14T22:13:21.001Z"
       (request_id sampleRequest) true "alice" None None
       (submitForApproval true "2023-11-14T22:13:20.001Z" sampleRequest freshManager) in
   request_id sampleRequest = "approval-1700000000000-4fzyo82mv" /\
   isApproved (request_id sampleRequest) (fst recorded') = true /\
   getPendingRequest (request_id sampleRequest) (fst recorded') = Some sampleRequest).
Proof.
  cbv zeta. split; [|split].
  - split; [apply recordDecision_getDecision|].
    split; [apply recordDecision_isApproved|].
    rewrite recordDecision_pending. apply submitForApproval_pending.
  - unfold pollTick. rewrite recordDecision_pollers, submitForApproval_polls.
    fold (getDecision (request_id request)
            (fst (recordDecision diskOk2 nowIso loggedAt2 (request_id request) flag who
                    notes override
                    (submitForApproval diskOk1 loggedAt1 request m)))).
    rewrite recordDecision_getDecision.
    cbn [fst snd]. split; [reflexivity|]. split.
    + unfold getPendingRequest. cbn [pendingRequests]. apply lookup_delete_eq.
    + unfold getDecision. cbn [approvedRequests]. apply lookup_insert_eq.
  - split; [reflexivity|]. split.
    + apply recordDecision_isApproved.
    + rewrite recordDecision_pending. apply submitForApproval_pending.
Qed.

(** A request that never went through [submitForApproval] is not
    pending after [recordDecision], as it was not before. *)
Lemma recordDecision_unsubmitted
    (diskOk : bool) (nowIso loggedAt requestId : string) (flag : bool) (who : string)
    (notes : option string) (override : option bool) (m : Manager) :
  getPendingRequest requestId m = None ->
  getPendingRequest requestId
    (fst (recordDecision diskOk nowIso loggedAt requestId flag who notes override m))
  = None.
Proof. intros H. now rewrite recordDecision_pending. Qed.

Lemma decisionRecordsFor_app (requestId : string) (l1 l2 : list LogRecord) :
  decisionRecordsFor requestId (l1 ++ l2)
  = decisionRecordsFor requestId l1 ++ decisionRecordsFor requestId l2.
Proof. apply flat_map_app. Qed.

Lemma loadApprovalLog_app (l1 l2 : list LogRecord) :
  loadApprovalLog (l1 ++ l2)
  = fold_left
      (fun decided entry =>
         match entry with
         | DecisionRecord request decision _ =>
             <[context_request_id request := decision]> decided
         | RequestRecord _ _ => decided
         end)
      l2 (loadApprovalLog l1).
Proof. apply fold_left_app. Qed.

(** C3, counterexample: alice approves, then bob rejects the same id.
    The decided index then holds bob's decision and the log holds two
    decision records for the id. *)
Lemma recordDecision_twice_counterexample :
  isApproved "approval-1700000000000-4fzyo82mv" approvedByAlice = true /\
  isApproved "approval-1700000000000-4fzyo82mv" rejectedByBob = false /\
  length (decisionRecordsFor "approval-1700000000000-4fzyo82mv"
            (approvalLog approvedByAlice)) = 1 /\
  length (decisionRecordsFor "approval-1700000000000-4fzyo82mv"
            (approvalLog rejectedByBob)) = 2 /\
  ~ decision_recorded_once.
Proof.
  assert (H1 : isApproved "approval-1700000000000-4fzyo82mv" approvedByAlice = true)
    by apply recordDecision_isApproved.
  assert (H2 : isApproved "approval-1700000000000-4fzyo82mv" rejectedByBob = false)
    by apply recordDecision_isApproved.
  repeat split; try assumption; try reflexivity.
  intros Hclaim.
  destruct (Hclaim approvedByAlice "approval-1700000000000-4fzyo82mv"
              "2023-11-14T22:14:00.000Z" "2023-11-14T22:14:00.001Z" "bob" false None None
              _ (recordDecision_getDecision _ _ _ _ _ _ _ _ _)) as [_ Hlog].
  apply (f_equal (@length _)) in Hlog. vm_compute in Hlog. discriminate Hlog.
Qed.

Lemma pendingKeyed_construct (log : list LogRecord) : pendingKeyed (construct log).
Proof. intros key request H. simpl in H. now rewrite lookup_empty in H. Qed.

Lemma pendingKeyed_submit (diskOk : bool) (loggedAt : string)
    (request : ApprovalRequest) (m : Manager) :
  pendingKeyed m -> pendingKeyed (submitForApproval diskOk loggedAt request m).
Proof.
  intros Hm key r. simpl. rewrite lookup_insert.
  destruct (decide (request_id request = key)) as [<-|Hne].
  - now intros [= <-].
  - apply Hm.
Qed.

Lemma pendingKeyed_record (diskOk : bool) (nowIso loggedAt requestId who : string)
    (flag : bool) (notes : option string) (override : option bool) (m : Manager) :
  pendingKeyed m ->
  pendingKeyed (fst (recordDecision diskOk nowIso loggedAt requestId flag who notes override m)).
Proof. intros Hm. exact Hm. Qed.

Lemma pendingKeyed_poll (requestId : string) (m : Manager) :
  pendingKeyed m -> pendingKeyed (fst (pollTick requestId m)).
Proof.
  intros Hm. unfold pollTick.
  destruct (existsb _ _); [|exact Hm].
  destruct (approvedRequests m !! requestId); [|exact Hm].
  intros key r. simpl. rewrite lookup_delete.
  destruct (decide (requestId = key)); [discriminate|apply Hm].
Qed.

(** C3, amended.  The decided index holds one decision per id, the one
    recorded last: [recordDecision] called again for a decided id puts
    the new decision in the place of the earlier one, and each call
    whose log write succeeds appends one decision record after those
    already there.  Decisions of other ids are left as they were, and
    replaying the log, as the constructor does, yields the decision
    recorded last. *)
Theorem recordDecision_last_write_wins
    (m : Manager) (requestId : string)
    (nowIso1 loggedAt1 who1 : string) (flag1 : bool)
    (notes1 : option string) (override1 : option bool)
    (nowIso2 loggedAt2 who2 : string) (flag2 : bool)
    (notes2 : option string) (override2 : option bool) :
  let first :=
    recordDecision true nowIso1 loggedAt1 requestId flag1 who1 notes1 override1 m in
  let second :=
    recordDecision true nowIso2 loggedAt2 requestId flag2 who2 notes2 override2 (fst first) in
  getDecision requestId (fst first) = Some (snd first) /\
  getDecision requestId (fst second) = Some (snd second) /\
  isApproved requestId (fst second) = flag2 /\
  decisionRecordsFor requestId (approvalLog (fst second))
  = decisionRecordsFor requestId (approvalLog m) ++ [snd first; snd second] /\
  (exists context,
     approvalLog (fst second)
     = approvalLog m ++ [DecisionRecord context (snd first) loggedAt1;
                         DecisionRecord context (snd second) loggedAt2]) /\
  (forall other, other <> requestId ->
     getDecision other (fst second) = getDecision other m) /\
  (pendingKeyed m ->
   getDecision requestId (construct (approvalLog (fst second))) = Some (snd second)).
Proof.
  cbv zeta.
  split; [apply recordDecision_getDecision|].
  split; [apply recordDecision_getDecision|].
  split; [apply recordDecision_isApproved|].
  rewrite !recordDecision_log, !recordDecision_pending.
  unfold appendRecord.
  set (context := match getPendingRequest requestId m with
                  | Some request => KnownRequest request
                  | None => IdOnly requestId
                  end).
  split; [|split; [|split]].
  - rewrite !decisionRecordsFor_app, <- app_assoc. f_equal.
    simpl. now rewrite String.eqb_refl.
  - exists context. now rewrite <- app_assoc.
  - intros other Hne. now rewrite !recordDecision_getDecision_other.
  - intros Hkeyed. unfold getDecision, construct. cbn [approvedRequests].
    rewrite !loadApprovalLog_app. cbn [fold_left].
    assert (Hid : context_request_id context = requestId).
    { subst context. unfold getPendingRequest.
      destruct (pendingRequests m !! requestId) as [request|] eqn:Hp; [|reflexivity].
      exact (Hkeyed _ _ Hp). }
    rewrite Hid. apply lookup_insert_eq.
Qed.

(** ** Request ids *)

Lemma string_of_uint_inj (d d' : Decimal.uint) :
  NilEmpty.string_of_uint d = NilEmpty.string_of_uint d' -> d = d'.
Proof.
  intros H. apply (f_equal NilEmpty.uint_of_string) in H.
  rewrite !NilEmpty.usu in H. now injection H.
Qed.

Lemma numberToString_inj (n n' : N) :
  Js.numberToString n = Js.numberToString n' -> n = n'.
Proof.
  intros H. now apply DecimalN.Unsigned.to_uint_inj, string_of_uint_inj.
Qed.

(** Two texts made of a run of digits, a dash and a tail are equal only
    if the runs and the tails are. *)
Lemma digits_dash_inj (a b x y : string) :
  allDigits a = true -> allDigits b = true ->
  a +:+ "-" +:+ x = b +:+ "-" +:+ y -> a = b /\ x = y.
Proof.
  revert b; induction a as [|c a IH]; intros [|c' b] Ha Hb H; simpl in *.
  - now injection H.
  - injection H as <- _. now apply andb_true_iff in Hb as [Hb _].
  - injection H as -> _. now apply andb_true_iff in Ha as [Ha _].
  - injection H as <- H.
    apply andb_true_iff in Ha as [_ Ha]. apply andb_true_iff in Hb as [_ Hb].
    destruct (IH b Ha Hb H) as [-> ->]. now split.
Qed.

(** C6, counterexample: the same reading of the clock and two random
    draws that agree on the nine digits kept of them. *)
Lemma createRequest_same_id_counterexample :
  "0.4fzyo82mvyr" <> "0.4fzyo82mvzz" /\
  request_id (createRequest 1700000000000 "0.4fzyo82mvyr" "2023-11-14T22:13:20.000Z"
                "Change 1" "diff1" ["file1.ts"] None None)
  = request_id (createRequest 1700000000000 "0.4fzyo82mvzz" "2023-11-14T22:13:20.000Z"
                  "Change 2" "diff2" ["file2.ts"] None None) /\
  ~ request_ids_always_distinct.
Proof.
  split; [discriminate|]. split; [reflexivity|].
  intros Hclaim.
  apply (Hclaim 1700000000000%N 1700000000000%N "0.4fzyo82mvyr" "0.4fzyo82mvzz"
           "2023-11-14T22:13:20.000Z" "2023-11-14T22:13:20.000Z"
           "Change 1" "Change 2" "diff1" "diff2" ["file1.ts"] ["file2.ts"]
           None None None None);
    [discriminate | reflexivity].
Qed.

(** C6, amended.  Two calls of [createRequest] yield the same id
    exactly when they read the same time in milliseconds and their
    random draws agree on the nine base-36 digits that are kept; in
    every other case the two ids are distinct.  The id is the text
    [approval-], the time, a dash and the kept digits. *)
Theorem requestId_collision_iff
    (nowMs1 nowMs2 : N) (random1 random2 nowIso1 nowIso2 : string)
    (summary1 summary2 diff1 diff2 : string) (files1 files2 : list string)
    (intent1 intent2 turn1 turn2 : option string) :
  let first := createRequest nowMs1 random1 nowIso1 summary1 diff1 files1 intent1 turn1 in
  let second := createRequest nowMs2 random2 nowIso2 summary2 diff2 files2 intent2 turn2 in
  (request_id first = request_id second <->
   nowMs1 = nowMs2 /\ Js.substr 2 9 random1 = Js.substr 2 9 random2) /\
  request_id first
  = "approval-" +:+ Js.numberToString nowMs1 +:+ "-" +:+ Js.substr 2 9 random1.
Proof.
  cbv zeta. split; [|reflexivity].
  cbn [createRequest request_id]. unfold requestIdOf. split.
  - intros H. simpl in H.
    repeat match type of H with String ?c _ = String ?c _ => injection H as H end.
    apply digits_dash_inj in H as [Hn Hr]; try apply numberToString_digits.
    split; [now apply numberToString_inj | exact Hr].
  - now intros [-> ->].
Qed.

(* ===================================================================== *)
(** * The claims about [extractFilesFromDiff] *)
(* ===================================================================== *)

Lemma filter_filter {A : Type} (f g : A -> bool) (l : list A) :
  List.filter f (List.filter g l) = List.filter (fun x => f x && g x) l.
Proof.
  induction l as [|x l IH]; simpl; [reflexivity|].
  destruct (g x); simpl; rewrite IH; [|now rewrite andb_false_r].
  now rewrite andb_true_r.
Qed.

Lemma existsb_eqb_In (x : string) (l : list string) :
  existsb (String.eqb x) l = true <-> In x l.
Proof.
  rewrite existsb_exists. split.
  - intros (y & Hy & Heq). apply String.eqb_eq in Heq. now subst.
  - intros H. exists x. split; [exact H | apply String.eqb_refl].
Qed.

Lemma fold_setAdd_firstSeen (l acc : list string) :
  fold_left setAdd l acc
  = acc ++ List.filter (fun y => negb (existsb (String.eqb y) acc)) (firstSeen l).
Proof.
  revert acc; induction l as [|x l IH]; intros acc; simpl.
  - now rewrite app_nil_r.
  - unfold setAdd at 2. destruct (existsb (String.eqb x) acc) eqn:Hx; simpl.
    + rewrite IH, filter_filter. f_equal. apply filter_ext. intros y.
      destruct (String.eqb_spec y x) as [->|]; [now rewrite Hx | now rewrite andb_true_r].
    + rewrite IH, <- app_assoc, filter_filter. simpl. do 2 f_equal.
      apply filter_ext. intros y. rewrite existsb_app. simpl.
      now rewrite orb_false_r, negb_orb.
Qed.

Lemma firstSeen_In (l : list string) (x : string) : In x (firstSeen l) <-> In x l.
Proof.
  induction l as [|y l IH]; simpl; [reflexivity|].
  rewrite filter_In, IH. split.
  - intros [H|[H _]]; auto.
  - intros [H|H]; auto.
    destruct (String.eqb_spec x y) as [->|]; auto.
Qed.

Lemma firstSeen_NoDup (l : list string) : List.NoDup (firstSeen l).
Proof.
  induction l as [|y l IH]; simpl; constructor.
  - rewrite filter_In. intros [_ H]. now rewrite String.eqb_refl in H.
  - now apply List.NoDup_filter.
Qed.

Lemma scanLine_setAdd (files : list string) (line : string) :
  scanLine files line = fold_left setAdd (lineMatches line) files.
Proof.
  unfold scanLine, lineMatches. rewrite fold_left_app.
  destruct (RegExp.exec fileHeaderRe line), (RegExp.exec gitDiffRe line); reflexivity.
Qed.

Lemma scanLines_setAdd (lines files : list string) :
  fold_left scanLine lines files
  = fold_left setAdd (flat_map lineMatches lines) files.
Proof.
  revert files; induction lines as [|line lines IH]; intros files; simpl.
  - reflexivity.
  - now rewrite fold_left_app, IH, scanLine_setAdd.
Qed.

Lemma extractFilesFromLines_firstSeen (lines : list string) :
  extractFilesFromLines lines = firstSeen (flat_map lineMatches lines).
Proof.
  unfold extractFilesFromLines. rewrite scanLines_setAdd, fold_setAdd_firstSeen.
  simpl. induction (firstSeen _) as [|x l IH]; simpl; [reflexivity | now rewrite IH].
Qed.

Lemma flat_map_signature (lines : list string) :
  flat_map lineMatches (List.filter matchesSignature lines)
  = flat_map lineMatches lines.
Proof.
  induction lines as [|line lines IH]; simpl; [reflexivity|].
  unfold matchesSignature at 1.
  destruct (lineMatches line) eqn:Hl; simpl; rewrite IH; [reflexivity|].
  now rewrite Hl.
Qed.

(** C8.  [extractFilesFromDiff] is a total function of the text of the
    diff.  Its result has no duplicates, holds exactly the paths
    captured by one of the two signatures on some line, and lists them
    in the order in which they are seen first.  Lines that match
    neither signature can be taken out of the diff without changing
    the result.  A diff that names one file in several headers yields
    that file once. *)
Theorem extractFilesFromDiff_first_seen (diff : string) :
  let lines := Js.split Js.LF diff in
  let found := extractFilesFromDiff diff in
  List.NoDup found /\
  (forall path,
     In path found <->
     exists line,
       In line lines /\
       (RegExp.exec fileHeaderRe line = Some path \/
        RegExp.exec gitDiffRe line = Some path)) /\
  found = firstSeen (flat_map lineMatches lines) /\
  found = extractFilesFromLines (List.filter matchesSignature lines) /\
  (forall before line after,
     RegExp.exec fileHeaderRe line = None ->
     RegExp.exec gitDiffRe line = None ->
     extractFilesFromLines (before ++ line :: after)
     = extractFilesFromLines (before ++ after)) /\
  extractFilesFromDiff
    (textOfLines ["diff --git a/src/file.ts b/src/file.ts";
                  "index 123..456 100644";
                  "--- a/src/file.ts";
                  "+++ b/src/file.ts"]) = ["src/file.ts"] /\
  extractFilesFromDiff
    (textOfLines ["--- a/src/one.ts"; "+++ b/src/two.ts"; "@@ -1,5 +1,6 @@";
                  "--- a/src/two.ts"; "+++ b/src/one.ts"; "+++ b/src/three.ts"])
  = ["src/one.ts"; "src/two.ts"; "src/three.ts"] /\
  extractFilesFromDiff "no header at all" = [].
Proof.
  cbv zeta. unfold extractFilesFromDiff.
  rewrite extractFilesFromLines_firstSeen.
  split; [apply firstSeen_NoDup|].
  split.
  { intros path. rewrite firstSeen_In, in_flat_map. unfold lineMatches.
    split.
    - intros (line & Hin & Hp). exists line. split; [exact Hin|].
      apply in_app_or in Hp as [Hp|Hp]; [left|right];
        destruct (RegExp.exec _ line) as [q|]; simpl in Hp;
        try contradiction; destruct Hp as [->|[]]; reflexivity.
    - intros (line & Hin & [Hp|Hp]); exists line; (split; [exact Hin|]);
        rewrite Hp; apply in_or_app; [left|right]; now left. }
  split; [reflexivity|].
  split.
  { now rewrite extractFilesFromLines_firstSeen, flat_map_signature. }
  split.
  { intros before line after H1 H2.
    rewrite !extractFilesFromLines_firstSeen, !flat_map_app. simpl.
    unfold lineMatches at 2. now rewrite H1, H2. }
  repeat split.
Qed.

(** ** The file-header signature *)

Lemma star_dot_to_end (s : string) :
  RegExp.star (RegExp.accepts RegExp.Dot) true (RegExp.exec []) s
  = if singleLine s then Some s else None.
Proof.
  unfold singleLine. induction s as [|c s IH]; [reflexivity|].
  cbn [RegExp.star allChars RegExp.accepts]. rewrite IH.
  destruct (negb (RegExp.isLineTerminator c)); [|reflexivity].
  now destruct (allChars _ s).
Qed.

Lemma plus_dot_to_end (p : string) :
  RegExp.plus (RegExp.accepts RegExp.Dot) true (RegExp.exec []) p
  = if capturable p then Some p else None.
Proof.
  destruct p as [|c s]; [reflexivity|].
  cbn [RegExp.plus capturable RegExp.accepts]. rewrite star_dot_to_end.
  unfold singleLine. cbn [allChars].
  destruct (negb (RegExp.isLineTerminator c)); [|reflexivity].
  now destruct (allChars _ s).
Qed.

Lemma fileHeader_capture (w p : string) :
  isHeaderMarker w = true ->
  RegExp.exec fileHeaderRe (w +:+ p) = if capturable p then Some p else None.
Proof.
  destruct w as [|m1 [|m2 [|m3 [|sp [|side [|sl [|]]]]]]]; try discriminate.
  unfold isHeaderMarker. intros H.
  repeat (apply andb_true_iff in H as [H ?]).
  apply Ascii.eqb_eq in H0. subst sl.
  unfold fileHeaderRe.
  cbn [String.append RegExp.exec RegExp.item_atom RegExp.item_quant
       RegExp.item_captured RegExp.times RegExp.one RegExp.accepts RegExp.keep].
  rewrite H, H4, H3, H2, H1. cbn [RegExp.keep].
  change (Ascii.eqb "/" "/") with true. cbv iota.
  fold (RegExp.exec []). rewrite plus_dot_to_end.
  now destruct (capturable p).
Qed.

Lemma gitDiff_rejects_marker (w p : string) :
  isHeaderMarker w = true -> RegExp.exec gitDiffRe (w +:+ p) = None.
Proof.
  destruct w as [|m1 w]; [discriminate|]. intros H.
  assert (Hm : RegExp.memChar m1 "+-" = true).
  { destruct w as [|m2 [|m3 [|sp [|side [|sl [|]]]]]]; try discriminate.
    unfold isHeaderMarker in H. now repeat (apply andb_true_iff in H as [H ?]). }
  cbn [String.append]. unfold gitDiffRe. cbn [RegExp.lit app RegExp.exec
    RegExp.item_atom RegExp.item_quant RegExp.item_captured RegExp.one RegExp.accepts].
  destruct (Ascii.eqb_spec "d" m1) as [<-|]; [discriminate Hm | reflexivity].
Qed.

Lemma split_nonempty (sep : ascii) (s : string) : Js.split sep s <> [].
Proof.
  destruct s as [|c s]; simpl; [discriminate|].
  destruct (Ascii.eqb c sep); [discriminate|].
  destruct (Js.split sep s); discriminate.
Qed.

Lemma split_prefix (sep : ascii) (w p : string) :
  RegExp.memChar sep w = false ->
  exists first rest,
    Js.split sep p = first :: rest /\ Js.split sep (w +:+ p) = (w +:+ first) :: rest.
Proof.
  induction w as [|c w IH]; intros Hw.
  - destruct (Js.split sep p) as [|first rest] eqn:Hs;
      [now apply split_nonempty in Hs|].
    exists first, rest. now split.
  - cbn [RegExp.memChar] in Hw. apply orb_false_iff in Hw as [Hc Hw].
    destruct (IH Hw) as (first & rest & Hp & Hwp).
    exists first, rest. split; [exact Hp|].
    cbn [String.append Js.split]. rewrite Ascii.eqb_sym, Hc, Hwp. reflexivity.
Qed.

Lemma split_single_line (s : string) :
  singleLine s = true -> Js.split Js.LF s = [s].
Proof.
  unfold singleLine. induction s as [|c s IH]; [reflexivity|].
  cbn [allChars Js.split]. intros H. apply andb_true_iff in H as [Hc Hs].
  rewrite (IH Hs). unfold RegExp.isLineTerminator in Hc.
  apply negb_true_iff, orb_false_iff in Hc as [Hc _]. now rewrite Hc.
Qed.

Lemma split_append_sep (sep : ascii) (a b : string) :
  Js.split sep (a +:+ String sep b) = Js.split sep a ++ Js.split sep b.
Proof.
  induction a as [|c a IH]; cbn [String.append Js.split].
  - now rewrite Ascii.eqb_refl.
  - destruct (Ascii.eqb c sep); [now rewrite IH|].
    rewrite IH. destruct (Js.split sep a) as [|l ls] eqn:Ha;
      [now apply split_nonempty in Ha | reflexivity].
Qed.

Lemma split_lines_flat (lines : list string) :
  lines <> [] ->
  Js.split Js.LF (textOfLines lines) = flat_map (Js.split Js.LF) lines.
Proof.
  unfold textOfLines. induction lines as [|line lines IH]; [congruence|]. intros _.
  destruct lines as [|next lines].
  - cbn [Js.join flat_map]. now rewrite app_nil_r.
  - change (Js.join (String Js.LF EmptyString) (line :: next :: lines))
      with (line +:+ String Js.LF (Js.join (String Js.LF EmptyString) (next :: lines))).
    rewrite split_append_sep, IH by discriminate. reflexivity.
Qed.

Lemma extractFilesFromDiff_lines (lines : list string) :
  extractFilesFromDiff (textOfLines lines)
  = firstSeen (flat_map lineMatches (flat_map (Js.split Js.LF) lines)).
Proof.
  destruct lines as [|line lines]; [reflexivity|].
  unfold extractFilesFromDiff.
  now rewrite extractFilesFromLines_firstSeen, split_lines_flat by discriminate.
Qed.

Lemma header_on_its_line (w p : string) :
  isHeaderMarker w = true -> RegExp.memChar Js.LF w = false -> capturable p = true ->
  flat_map lineMatches (Js.split Js.LF (w +:+ p)) = [p].
Proof.
  intros Hw Hnl Hc.
  destruct (split_prefix Js.LF w p Hnl) as (first & rest & Hp & Hwp).
  rewrite split_single_line in Hp by (now destruct p).
  injection Hp as <- <-. rewrite Hwp. cbn [flat_map]. rewrite app_nil_r.
  unfold lineMatches. rewrite fileHeader_capture, gitDiff_rejects_marker by exact Hw.
  now rewrite Hc.
Qed.

Lemma header_among_lines (w p : string) (before after : list string) :
  isHeaderMarker w = true -> RegExp.memChar Js.LF w = false -> capturable p = true ->
  extractFilesFromDiff (textOfLines (before ++ (w +:+ p) :: after))
  = firstSeen (flat_map lineMatches (flat_map (Js.split Js.LF) before)
               ++ p :: flat_map lineMatches (flat_map (Js.split Js.LF) after)).
Proof.
  intros Hw Hnl Hc. rewrite extractFilesFromDiff_lines.
  rewrite flat_map_app. cbn [flat_map]. rewrite !flat_map_app.
  now rewrite (header_on_its_line w p Hw Hnl Hc).
Qed.

(** The contribution of a header line to the result. *)
Lemma header_line_extract (w p : string) :
  isHeaderMarker w = true -> RegExp.memChar Js.LF w = false ->
  exists first rest,
    Js.split Js.LF p = first :: rest /\
    extractFilesFromDiff (w +:+ p)
    = fold_left scanLine rest (if capturable first then [first] else []).
Proof.
  intros Hw Hnl. destruct (split_prefix Js.LF w p Hnl) as (first & rest & Hp & Hwp).
  exists first, rest. split; [exact Hp|].
  unfold extractFilesFromDiff, extractFilesFromLines. rewrite Hwp.
  cbn [fold_left]. f_equal. unfold scanLine.
  rewrite fileHeader_capture, gitDiff_rejects_marker by exact Hw.
  now destruct (capturable first).
Qed.

(** C10.  The file-header signature takes either letter after either
    marker: for every path [p] the lines [+++ a/p], [--- b/p],
    [+++ b/p] and [--- a/p] are captured alike, with [p] as the path
    whenever [p] is a non-empty text without a line terminator, and
    the diffs that start with one of these four headers yield the same
    files.  The signature is three characters out of plus and minus,
    one white space, [a] or [b], and a slash.  On whichever line of a
    diff such a header stands, first, last or between other lines, it
    contributes [p]: the result holds [p], holds beside [p] exactly
    the files of the diff without that line, lists the files in the
    order in which the lines name them first, and is the same for each
    of the four headers. *)
Theorem extractFilesFromDiff_either_prefix (p : string) :
  let capture := if capturable p then Some p else None in
  (RegExp.exec fileHeaderRe ("+++ a/" +:+ p) = capture /\
   RegExp.exec fileHeaderRe ("--- b/" +:+ p) = capture /\
   RegExp.exec fileHeaderRe ("+++ b/" +:+ p) = capture /\
   RegExp.exec fileHeaderRe ("--- a/" +:+ p) = capture) /\
  (extractFilesFromDiff ("+++ a/" +:+ p) = extractFilesFromDiff ("+++ b/" +:+ p) /\
   extractFilesFromDiff ("--- b/" +:+ p) = extractFilesFromDiff ("--- a/" +:+ p) /\
   extractFilesFromDiff ("+++ a/" +:+ p) = extractFilesFromDiff ("--- a/" +:+ p)) /\
  (capturable p = true ->
   extractFilesFromDiff ("+++ a/" +:+ p) = [p] /\
   extractFilesFromDiff ("--- b/" +:+ p) = [p] /\
   extractFilesFromDiff ("+++ b/" +:+ p) = [p] /\
   extractFilesFromDiff ("--- a/" +:+ p) = [p]) /\
  (forall w, isHeaderMarker w = true -> RegExp.exec fileHeaderRe (w +:+ p) = capture) /\
  extractFilesFromDiff "+++ a/src/auth/middleware.ts" = ["src/auth/middleware.ts"] /\
  extractFilesFromDiff "--- b/src/auth/middleware.ts" = ["src/auth/middleware.ts"] /\
  (capturable p = true ->
   forall (before after : list string) (w : string),
     In w ["+++ a/"; "--- b/"; "+++ b/"; "--- a/"] ->
     let found := extractFilesFromDiff (textOfLines (before ++ (w +:+ p) :: after)) in
     In p found /\
     (forall q,
        In q found <->
        q = p \/ In q (extractFilesFromDiff (textOfLines (before ++ after)))) /\
     found
     = firstSeen (flat_map lineMatches (flat_map (Js.split Js.LF) before)
                  ++ p :: flat_map lineMatches (flat_map (Js.split Js.LF) after)) /\
     found = extractFilesFromDiff (textOfLines (before ++ ("+++ b/" +:+ p) :: after)) /\
     found = extractFilesFromDiff (textOfLines (before ++ ("--- a/" +:+ p) :: after))) /\
  (forall (before after : list string) (w : string),
     isHeaderMarker w = true -> RegExp.memChar Js.LF w = false -> capturable p = true ->
     In p (extractFilesFromDiff (textOfLines (before ++ (w +:+ p) :: after)))) /\
  extractFilesFromDiff
    (textOfLines ["index 123..456 100644"; "+++ a/src/x.ts"; "@@ -1,2 +1,2 @@";
                  "--- b/src/y.ts"])
  = ["src/x.ts"; "src/y.ts"] /\
  extractFilesFromDiff
    (textOfLines ["--- b/src/y.ts"; "context"; "+++ a/src/x.ts"; "+++ b/src/y.ts"])
  = ["src/y.ts"; "src/x.ts"].
Proof.
  cbv zeta.
  assert (Hanywhere : capturable p = true ->
            forall (before after : list string) (w : string),
              isHeaderMarker w = true -> RegExp.memChar Js.LF w = false ->
              extractFilesFromDiff (textOfLines (before ++ (w +:+ p) :: after))
              = firstSeen (flat_map lineMatches (flat_map (Js.split Js.LF) before)
                           ++ p :: flat_map lineMatches
                                     (flat_map (Js.split Js.LF) after))).
  { intros Hc before after w Hw Hnl. now apply header_among_lines. }
  assert (Hall : forall w, isHeaderMarker w = true -> RegExp.memChar Js.LF w = false ->
            forall w', isHeaderMarker w' = true -> RegExp.memChar Js.LF w' = false ->
            extractFilesFromDiff (w +:+ p) = extractFilesFromDiff (w' +:+ p)).
  { intros w Hw Hn w' Hw' Hn'.
    destruct (header_line_extract w p Hw Hn) as (first & rest & Hp & ->).
    destruct (header_line_extract w' p Hw' Hn') as (first' & rest' & Hp' & ->).
    rewrite Hp in Hp'. now injection Hp' as <- <-. }
  assert (Hone : capturable p = true ->
            forall w, isHeaderMarker w = true -> RegExp.memChar Js.LF w = false ->
            extractFilesFromDiff (w +:+ p) = [p]).
  { intros Hc w Hw Hn.
    destruct (header_line_extract w p Hw Hn) as (first & rest & Hp & ->).
    assert (Hs : Js.split Js.LF p = [p]).
    { apply split_single_line. now destruct p. }
    rewrite Hs in Hp. injection Hp as <- <-. now rewrite Hc. }
  split; [repeat split; now apply fileHeader_capture|].
  split; [repeat split; now apply Hall|].
  split; [intros Hc; repeat split; now apply Hone|].
  split; [intros w Hw; now apply fileHeader_capture|].
  split; [reflexivity|]. split; [reflexivity|].
  split; [|split; [|split; reflexivity]].
  - intros Hc before after w Hin.
    assert (Hw : isHeaderMarker w = true /\ RegExp.memChar Js.LF w = false).
    { destruct Hin as [<-|[<-|[<-|[<-|[]]]]]; split; reflexivity. }
    destruct Hw as [Hw Hnl].
    rewrite (Hanywhere Hc before after w Hw Hnl).
    split; [|split; [|split; [reflexivity|split]]].
    + apply firstSeen_In, in_or_app. right. now left.
    + intros q. rewrite extractFilesFromDiff_lines, !firstSeen_In, !flat_map_app.
      rewrite !in_app_iff. cbn [In]. split.
      * intros [H|[H|H]]; [right; now left | now left | right; now right].
      * intros [H|[H|H]]; [right; left; congruence | now left | right; now right].
    + symmetry. now apply Hanywhere.
    + symmetry. now apply Hanywhere.
  - intros before after w Hw Hnl Hc. rewrite (Hanywhere Hc before after w Hw Hnl).
    apply firstSeen_In, in_or_app. right. now left.
Qed.

(* ===================================================================== *)
(** * The glob translation *)
(* ===================================================================== *)

(** ** The prescribed expression agrees with the wording *)

Lemma keep_uncaptured (c : ascii) (r : option string) : RegExp.keep false c r = r.
Proof. now destruct r. Qed.

Lemma test_nil (s : string) :
  RegExp.test [] s = match s with EmptyString => true | String _ _ => false end.
Proof. now destruct s. Qed.

Lemma test_star (a : RegExp.atom) (r : RegExp.regex) (s : string) :
  RegExp.test (RegExp.Item a RegExp.Star false :: r) s
  = RegExp.test r s ||
    match s with
    | String c s' =>
        RegExp.accepts a c && RegExp.test (RegExp.Item a RegExp.Star false :: r) s'
    | EmptyString => false
    end.
Proof.
  unfold RegExp.test.
  cbn [RegExp.exec RegExp.item_atom RegExp.item_quant RegExp.item_captured].
  destruct s as [|c s]; cbn [RegExp.star].
  - now rewrite orb_false_r.
  - destruct (RegExp.accepts a c); [|now rewrite orb_false_r].
    destruct (RegExp.star _ _ _ s); cbn [RegExp.keep andb].
    + now rewrite orb_true_r.
    + now rewrite orb_false_r.
Qed.

Lemma test_one (a : RegExp.atom) (r : RegExp.regex) (s : string) :
  RegExp.test (RegExp.Item a RegExp.One false :: r) s
  = match s with
    | String c s' => RegExp.accepts a c && RegExp.test r s'
    | EmptyString => false
    end.
Proof.
  unfold RegExp.test.
  cbn [RegExp.exec RegExp.item_atom RegExp.item_quant RegExp.item_captured].
  unfold RegExp.one.
  destruct s as [|c s]; [reflexivity|].
  destruct (RegExp.accepts a c); [|reflexivity].
  now rewrite keep_uncaptured.
Qed.

(** On a path without line terminators the prescribed expression and
    the wording of the specification agree. *)
Lemma test_items_globMatches (tokens : list globToken) (path : string) :
  singleLine path = true ->
  RegExp.test (map itemOf tokens) path = globMatches tokens path.
Proof.
  revert path; induction tokens as [|t tokens IH]; intros path Hp.
  - apply test_nil.
  - destruct t; cbn [map itemOf globMatches].
    + induction path as [|c path IHp];
        rewrite test_star, IH by exact Hp; [reflexivity|].
      cbn [singleLine allChars] in Hp. apply andb_true_iff in Hp as [Hc Hp'].
      cbn [RegExp.accepts]. rewrite Hc, (IHp Hp'). reflexivity.
    + induction path as [|c path IHp];
        rewrite test_star, IH by exact Hp; [reflexivity|].
      cbn [singleLine allChars] in Hp. apply andb_true_iff in Hp as [Hc Hp'].
      cbn [RegExp.accepts RegExp.memChar]. rewrite (IHp Hp'), orb_false_r.
      reflexivity.
    + rewrite test_one. destruct path as [|c path]; [reflexivity|].
      cbn [singleLine allChars] in Hp. apply andb_true_iff in Hp as [Hc Hp'].
      cbn [RegExp.accepts RegExp.memChar]. now rewrite orb_false_r, IH.
    + rewrite test_one. destruct path as [|x path]; [reflexivity|].
      cbn [singleLine allChars] in Hp. apply andb_true_iff in Hp as [Hc Hp'].
      cbn [RegExp.accepts]. now rewrite IH.
Qed.

(** ** From the passes of [globToRegex] to the prescribed expression *)

Lemma tokenize_passes (n : nat) (glob : string) :
  String.length glob <= n ->
  source (tokenize glob) = glob /\
  literalsPlain (tokenize glob) = true /\
  Js.replaceChars glyph (Js.replaceAll "**" doubleStar glob)
  = renderAll false (tokenize glob).
Proof.
  revert glob; induction n as [|n IH]; intros glob Hn.
  - destruct glob; [now repeat split | simpl in Hn; lia].
  - destruct glob as [|c rest]; [now repeat split|].
    simpl in Hn. cbn [tokenize].
    destruct (Ascii.eqb_spec "*" c) as [<-|Hstar].
    + destruct rest as [|c2 rest2].
      * now repeat split.
      * destruct (Ascii.eqb_spec "*" c2) as [<-|Hstar2].
        -- simpl in Hn. destruct (IH rest2 ltac:(lia)) as (Hs & Hl & Hr).
           cbn [source literalsPlain renderAll render].
           rewrite Hs, Hl, <- Hr.
           split; [reflexivity|]. split; [reflexivity|].
           change (String "*" (String "*" rest2)) with ("**" +:+ rest2).
           rewrite replaceAll_hit, replaceChars_append. reflexivity.
        -- destruct (IH (String c2 rest2) ltac:(simpl in *; lia)) as (Hs & Hl & Hr).
           cbn [source literalsPlain renderAll render].
           rewrite Hs, Hl, <- Hr.
           split; [reflexivity|]. split; [reflexivity|].
           rewrite replaceAll_miss; [reflexivity|].
           cbn [Js.startsWith]. apply Ascii.eqb_neq in Hstar2. now rewrite Hstar2.
    + destruct (IH rest ltac:(lia)) as (Hs & Hl & Hr).
      assert (Hmiss : Js.replaceAll "**" doubleStar (String c rest)
                      = String c (Js.replaceAll "**" doubleStar rest)).
      { apply replaceAll_miss. cbn [Js.startsWith].
        apply Ascii.eqb_neq in Hstar. now rewrite Hstar. }
      rewrite Hmiss. cbn [Js.replaceChars]. rewrite Hr.
      apply Ascii.eqb_neq in Hstar.
      destruct (Ascii.eqb "?" c) eqn:Hq.
      * apply Ascii.eqb_eq in Hq. subst c.
        cbn [source literalsPlain renderAll render]. rewrite Hs, Hl.
        split; [reflexivity|]. split; reflexivity.
      * cbn [source literalsPlain renderAll render]. rewrite Hs, Hl, Hstar, Hq.
        split; [reflexivity|]. split; reflexivity.
Qed.

Lemma includes_tail (c : ascii) (s sub : string) :
  Js.includes (String c s) sub = false -> Js.includes s sub = false.
Proof. cbn [Js.includes]. intros H. now apply orb_false_iff in H as [_ H]. Qed.

Lemma includes_head (s sub : string) :
  Js.includes s sub = false -> Js.startsWith s sub = false.
Proof. destruct s; cbn [Js.includes]; intros H; now apply orb_false_iff in H as [H _]. Qed.

Lemma glyph_plain (c : ascii) :
  RegExp.isEscaped c = false -> Ascii.eqb "*" c = false -> Ascii.eqb "?" c = false ->
  glyph c = String c EmptyString.
Proof. intros H1 H2 H3. unfold glyph. now rewrite H1, H2, H3. Qed.

Lemma glyph_escaped (c : ascii) :
  RegExp.isEscaped c = true -> glyph c = String "\" (String c EmptyString).
Proof. intros H. unfold glyph. now rewrite H. Qed.

(** The glyph of a literal character, by cases. *)
Lemma glyph_literal (c : ascii) :
  Ascii.eqb "*" c = false -> Ascii.eqb "?" c = false ->
  (RegExp.isEscaped c = true /\ Ascii.eqb "_" c = false /\ Ascii.eqb "D" c = false /\
   glyph c = String "\" (String c EmptyString)) \/
  (RegExp.isEscaped c = false /\ glyph c = String c EmptyString).
Proof.
  intros Hs Hq. destruct (RegExp.isEscaped c) eqn:He.
  - left. split; [reflexivity|]. split; [now apply escaped_not_placeholder|].
    split; [|now apply glyph_escaped].
    destruct (Ascii.eqb_spec "D" c) as [<-|]; [discriminate He | reflexivity].
  - right. split; [reflexivity|]. now apply glyph_plain.
Qed.

Ltac literal_cases c H Hrest :=
  cbn [literalsPlain] in H;
  let Hs := fresh "Hs" in
  let Hq := fresh "Hq" in
  apply andb_true_iff in H as [H Hrest];
  apply andb_true_iff in H as [Hs Hq];
  apply negb_true_iff in Hs, Hq;
  let Hg := fresh "Hg" in
  destruct (glyph_literal c Hs Hq) as [(? & ? & ? & Hg)|(? & Hg)];
  rewrite Hg in *; clear Hg.

(** No occurrence of the placeholder starts at a literal character of a
    glob that is free of the text [__D]. *)
Lemma literal_no_hit (c : ascii) (rest : list globToken) :
  literalsPlain (Literal c :: rest) = true ->
  Js.includes (source (Literal c :: rest)) "__D" = false ->
  Js.startsWith (glyph c +:+ renderAll false rest) doubleStar = false.
Proof.
  intros Hp Hfree. apply includes_head in Hfree.
  cbn [source Js.startsWith] in Hfree.
  literal_cases c Hp Hp1; [reflexivity|].
  unfold doubleStar. cbn [String.append Js.startsWith].
  destruct (Ascii.eqb "_" c); [|reflexivity]. cbn [andb] in *.
  destruct rest as [|[| | |c2] rest2]; try reflexivity.
  cbn [renderAll render]. cbn [source] in Hfree.
  literal_cases c2 Hp1 Hp2; [reflexivity|].
  cbn [String.append Js.startsWith].
  destruct (Ascii.eqb "_" c2); [|reflexivity]. cbn [andb] in *.
  destruct rest2 as [|[| | |c3] rest3]; try reflexivity.
  cbn [renderAll render]. cbn [source Js.startsWith] in Hfree.
  literal_cases c3 Hp2 Hp3.
  - cbn [String.append Js.startsWith]. reflexivity.
  - cbn [String.append Js.startsWith].
    destruct (Ascii.eqb "D" c3); [discriminate Hfree | reflexivity].
Qed.

Lemma placeholder_pass_tokens (tokens : list globToken) :
  literalsPlain tokens = true ->
  Js.includes (source tokens) "__D" = false ->
  Js.replaceAll doubleStar ".*" (renderAll false tokens) = renderAll true tokens.
Proof.
  induction tokens as [|t tokens IH]; intros Hp Hfree; [reflexivity|].
  destruct t as [| | |c].
  - cbn [renderAll render source literalsPlain] in *.
    unfold doubleStar at 1 2. rewrite replaceAll_hit. f_equal.
    apply IH; [exact Hp|]. now apply includes_tail, includes_tail in Hfree.
  - cbn [renderAll render source literalsPlain] in *.
    simpl. rewrite !placeholder_miss by reflexivity. do 5 f_equal.
    apply IH; [exact Hp|]. now apply includes_tail in Hfree.
  - cbn [renderAll render source literalsPlain] in *.
    simpl. rewrite !placeholder_miss by reflexivity. do 4 f_equal.
    apply IH; [exact Hp|]. now apply includes_tail in Hfree.
  - pose proof (literal_no_hit c tokens Hp Hfree) as Hmiss.
    cbn [renderAll render source] in *.
    assert (IH' : Js.replaceAll doubleStar ".*" (renderAll false tokens)
                  = renderAll true tokens).
    { apply IH; [|now apply includes_tail in Hfree].
      cbn [literalsPlain] in Hp. now apply andb_true_iff in Hp as [_ Hp]. }
    literal_cases c Hp Hp'.
    + cbn [String.append]. rewrite !placeholder_miss by (reflexivity || assumption).
      now rewrite IH'.
    + cbn [String.append] in *. rewrite replaceAll_miss by exact Hmiss.
      now rewrite IH'.
Qed.

(** ** Reading the final text back *)

Lemma rendered_head (tokens : list globToken) :
  literalsPlain tokens = true ->
  startsWithStar (renderAll true tokens +:+ "$") = false.
Proof.
  destruct tokens as [|[| | |c] rest]; try reflexivity.
  intros Hp. cbn [renderAll render]. literal_cases c Hp Hp'; [reflexivity|].
  cbn [String.append startsWithStar]. now rewrite Ascii.eqb_sym.
Qed.

Lemma parse_rendered (tokens : list globToken) :
  literalsPlain tokens = true ->
  RegExp.parseItems (renderAll true tokens +:+ "$") = Some (map itemOf tokens).
Proof.
  induction tokens as [|t tokens IH]; intros Hp; [reflexivity|].
  destruct t as [| | |c]; cbn [renderAll render map itemOf literalsPlain] in *;
    rewrite ?append_assoc.
  - apply parseItems_dot_star. now apply IH.
  - apply parseItems_class_star. now apply IH.
  - apply parseItems_class; [now apply IH | now apply rendered_head].
  - literal_cases c Hp Hp'; cbn [String.append].
    + apply parseItems_escaped; [now apply IH | now apply rendered_head | assumption].
    + apply parseItems_plain; [now apply IH | now apply rendered_head |].
      rewrite isSyntaxChar_split, (Ascii.eqb_sym c "*"), (Ascii.eqb_sym c "?").
      now rewrite H, Hs, Hq.
Qed.

(** For a glob free of the text [__D], [globToRegex] builds the
    expression that the table prescribes, token by token. *)
Lemma globToRegex_table (glob : string) :
  Js.includes glob "__D" = false ->
  globToRegex glob = Some (map itemOf (tokenize glob)).
Proof.
  intros Hfree.
  destruct (tokenize_passes (String.length glob) glob (le_n _)) as (Hs & Hl & Hr).
  unfold globToRegex, globToRegexSource. rewrite middle_passes, Hr.
  rewrite placeholder_pass_tokens by (rewrite ?Hs; assumption).
  cbn [String.append RegExp.parse]. now apply parse_rendered.
Qed.

(** The glob tier of [matchesPattern] follows the wording of the
    specification on every path without line terminators, for every
    glob free of the text [__D]. *)
Lemma globToRegex_refines_glob (glob path : string) :
  Js.includes glob "__D" = false ->
  singleLine path = true ->
  globTest glob path = globMatches (tokenize glob) path.
Proof.
  intros Hfree Hline. unfold globTest. rewrite globToRegex_table by exact Hfree.
  now apply test_items_globMatches.
Qed.

(** C2.  The translation is the one the claim describes, and the four
    examples of the specification come out as stated; on every path
    without a line terminator and for every glob free of the text
    [__D] the glob tier decides as the wording of the specification
    does.  The code departs from the wording at two places.  The
    double star is compiled to a dot, which no line feed or carriage
    return satisfies: [src/a(LF)b/hooks.ts] is not matched by
    [src/**/hooks.ts].  And the placeholder that stands for the double
    star between two passes is mistaken for one when the pattern holds
    the same text: [docs/__DOUBLE_STAR__.md], a pattern without any
    wildcard, puts [docs/a/b.md] in scope, and in [__DOUBLE_STAR**]
    the double star is lost. *)
Theorem globToRegex_departs_from_wording :
  (globToRegexSource "src/**/hooks.ts" = "^src/.*/hooks\.ts$" /\
   globToRegexSource "src/*/hook.ts" = "^src/[^/]*/hook\.ts$" /\
   globToRegexSource "src/?.ts" = "^src/[^/]\.ts$") /\
  (isWithinScope (isPathInScope "src/auth/strategies/hooks.ts" ["src/**/hooks.ts"]) = true /\
   isWithinScope (isPathInScope "src/hooks.ts" ["src/**/hooks.ts"]) = false /\
   isWithinScope (isPathInScope "src/auth/hook.ts" ["src/*/hook.ts"]) = true /\
   isWithinScope (isPathInScope "src/auth/sub/hook.ts" ["src/*/hook.ts"]) = false) /\
  (forall glob path,
     Js.includes glob "__D" = false -> singleLine path = true ->
     globTest glob path = globMatches (tokenize glob) path) /\
  (globMatches (tokenize "src/**/hooks.ts") pathWithLineFeed = true /\
   globTest "src/**/hooks.ts" pathWithLineFeed = false /\
   isWithinScope (isPathInScope pathWithLineFeed ["src/**/hooks.ts"]) = false) /\
  (tokenize "docs/__DOUBLE_STAR__.md"
   = map Literal (list_ascii_of_string "docs/__DOUBLE_STAR__.md") /\
   globMatches (tokenize "docs/__DOUBLE_STAR__.md") "docs/a/b.md" = false /\
   globToRegexSource "docs/__DOUBLE_STAR__.md" = "^docs/.*\.md$" /\
   globTest "docs/__DOUBLE_STAR__.md" "docs/a/b.md" = true /\
   isWithinScope (isPathInScope "docs/a/b.md" ["docs/__DOUBLE_STAR__.md"]) = true) /\
  (globMatches (tokenize "__DOUBLE_STAR**") "__DOUBLE_STAR/x" = true /\
   globToRegexSource "__DOUBLE_STAR**" = "^.*DOUBLE_STAR__$" /\
   globTest "__DOUBLE_STAR**" "__DOUBLE_STAR/x" = false /\
   isWithinScope (isPathInScope "__DOUBLE_STAR/x" ["__DOUBLE_STAR**"]) = false).
Proof.
  split; [repeat split|]. split; [repeat split|].
  split; [exact globToRegex_refines_glob|].
  split; [repeat split|]. split; repeat split.
Qed.

(* ===================================================================== *)
(** * Further properties of [ScopeValidator] *)
(* ===================================================================== *)

(** ** Separators *)

Lemma normalizeSeparators_clean (s : string) :
  RegExp.memChar "\" (normalizeSeparators s) = false.
Proof.
  unfold normalizeSeparators. rewrite replaceAll_char.
  induction s as [|x s IH]; [reflexivity|].
  cbn [Js.replaceChars].
  destruct (Ascii.eqb "\" x) eqn:Hx; cbn [String.append RegExp.memChar].
  - now rewrite IH.
  - now rewrite Hx, IH.
Qed.

Lemma normalizeSeparators_idempotent (s : string) :
  normalizeSeparators (normalizeSeparators s) = normalizeSeparators s.
Proof. apply normalizeSeparators_id, normalizeSeparators_clean. Qed.

Lemma matchesPattern_normalized (np pat : string) :
  matchesPattern np (normalizeSeparators pat) = matchesPattern np pat.
Proof. unfold matchesPattern. now rewrite normalizeSeparators_idempotent. Qed.

Lemma anyEntryMatches_normalized (np : string) (scope : list string) :
  anyEntryMatches np (map normalizeSeparators scope) = anyEntryMatches np scope.
Proof.
  induction scope as [|e scope IH]; [reflexivity|].
  cbn [map anyEntryMatches]. now rewrite matchesPattern_normalized, IH.
Qed.

(** X1.  The verdict of [isPathInScope] does not depend on how the
    separators are written: replacing every backslash by a slash in the
    path, in the patterns, or in both, leaves [isWithinScope] as it
    is.  A rejected path is nevertheless reported as it was given. *)
Theorem isPathInScope_separator_blind (filePath : string) (ownedScope : list string) :
  isWithinScope (isPathInScope (normalizeSeparators filePath) ownedScope)
  = isWithinScope (isPathInScope filePath ownedScope) /\
  isWithinScope (isPathInScope filePath (map normalizeSeparators ownedScope))
  = isWithinScope (isPathInScope filePath ownedScope) /\
  (isWithinScope (isPathInScope filePath ownedScope) = false ->
   attemptedPath (isPathInScope filePath ownedScope) = Some filePath).
Proof.
  split; [|split].
  - now rewrite !isPathInScope_within, normalizeSeparators_idempotent.
  - now rewrite !isPathInScope_within, anyEntryMatches_normalized.
  - destruct ownedScope as [|e scope]; [reflexivity|].
    unfold isPathInScope.
    destruct (anyEntryMatches (normalizeSeparators filePath) (e :: scope));
      [discriminate | reflexivity].
Qed.

(** ** Growing and reordering the scope *)

(** X2.  A path that is in scope stays in scope when patterns are
    added, in whatever order the patterns are then listed: the verdict
    depends on the set of patterns only. *)
Theorem isPathInScope_monotone (filePath : string) (ownedScope widerScope : list string) :
  (forall entry, In entry ownedScope -> In entry widerScope) ->
  isWithinScope (isPathInScope filePath ownedScope) = true ->
  isWithinScope (isPathInScope filePath widerScope) = true.
Proof.
  intros Hincl. rewrite !isPathInScope_within, !anyEntryMatches_existsb, !existsb_exists.
  intros (entry & Hin & Hm). exists entry. split; [now apply Hincl | exact Hm].
Qed.

Lemma isPathInScope_monotone_witness :
  (forall entry, In entry ["src/auth/"] -> In entry ["tests/"; "src/auth/"]) /\
  isWithinScope (isPathInScope "src/auth/jwt.ts" ["src/auth/"]) = true /\
  isWithinScope (isPathInScope "src/auth/jwt.ts" ["tests/"; "src/auth/"]) = true.
Proof.
  assert (Hincl : forall entry, In entry ["src/auth/"] -> In entry ["tests/"; "src/auth/"]).
  { intros entry [<-|[]]. right. now left. }
  split; [exact Hincl|]. split; [reflexivity|].
  exact (isPathInScope_monotone "src/auth/jwt.ts" ["src/auth/"] ["tests/"; "src/auth/"]
           Hincl eq_refl).
Defined.

(** ** Lists of paths *)

Lemma offending_app (a b ownedScope : list string) :
  offending (a ++ b) ownedScope = offending a ownedScope ++ offending b ownedScope.
Proof. unfold offending. apply List.filter_app. Qed.

Lemma offending_length (filePaths ownedScope : list string) :
  length (offending filePaths ownedScope) <= length filePaths.
Proof.
  unfold offending. induction filePaths as [|p l IH]; simpl; [lia|].
  destruct (negb _); simpl; lia.
Qed.

Lemma offending_nil_iff (filePaths ownedScope : list string) :
  offending filePaths ownedScope = [] <->
  isWithinScope (arePathsInScope filePaths ownedScope) = true.
Proof.
  rewrite arePathsInScope_within. unfold offending.
  induction filePaths as [|p l IH]; simpl; [tauto|].
  destruct (isWithinScope (isPathInScope p ownedScope)); simpl; [exact IH|].
  split; discriminate.
Qed.

(** X3.  [arePathsInScope] is compositional: a concatenation of two
    lists of paths passes exactly when both lists pass, its offending
    paths are those of the first list followed by those of the second,
    and a one-element list is judged as [isPathInScope] judges its
    element.  On failure the number reported in the reason is at least
    one and at most the number of paths. *)
Theorem arePathsInScope_compositional (first second ownedScope : list string) :
  isWithinScope (arePathsInScope (first ++ second) ownedScope)
  = isWithinScope (arePathsInScope first ownedScope)
    && isWithinScope (arePathsInScope second ownedScope) /\
  offending (first ++ second) ownedScope
  = offending first ownedScope ++ offending second ownedScope /\
  (forall p, isWithinScope (arePathsInScope [p] ownedScope)
             = isWithinScope (isPathInScope p ownedScope)) /\
  (isWithinScope (arePathsInScope first ownedScope) = false ->
   1 <= length (offending first ownedScope) <= length first /\
   reason (arePathsInScope first ownedScope)
   = Some (Js.numberToString (N.of_nat (length (offending first ownedScope)))
           +:+ " file(s) outside scope: " +:+ Js.join ", " (offending first ownedScope))).
Proof.
  split; [|split; [|split]].
  - rewrite !arePathsInScope_within. apply forallb_app.
  - apply offending_app.
  - intros p. rewrite arePathsInScope_within. simpl. apply andb_true_r.
  - intros Hfail. split.
    + split; [|apply offending_length].
      destruct (offending first ownedScope) eqn:Ho; [|simpl; lia].
      apply offending_nil_iff in Ho. congruence.
    + rewrite arePathsInScope_within in Hfail.
      unfold arePathsInScope. rewrite forallb_map, Hfail. reflexivity.
Qed.

(** ** Patterns without wildcards *)

Lemma tokenize_literal (glob : string) :
  RegExp.memChar "*" glob = false -> RegExp.memChar "?" glob = false ->
  tokenize glob = literalTokens glob.
Proof.
  induction glob as [|c rest IH]; [reflexivity|].
  cbn [RegExp.memChar tokenize literalTokens]. intros Hs Hq.
  apply orb_false_iff in Hs as [Hs Hs']. apply orb_false_iff in Hq as [Hq Hq'].
  now rewrite Hs, Hq, IH.
Qed.

Lemma test_literalTokens (glob path : string) :
  RegExp.test (map itemOf (literalTokens glob)) path = String.eqb glob path.
Proof.
  revert path; induction glob as [|c rest IH]; intros path.
  - rewrite test_nil. now destruct path.
  - cbn [literalTokens map itemOf]. rewrite test_one.
    destruct path as [|x path]; [reflexivity|].
    cbn [RegExp.accepts String.eqb]. now rewrite IH.
Qed.

(** X4.  A pattern without star, question mark and trailing slash, and
    free of the text [__D], matches one path only: the pattern itself,
    separators normalised.  The characters with a meaning in regular
    expressions (dot, plus, brackets and the like) stand for
    themselves. *)
Theorem matchesPattern_literal (normalizedPath scopePattern : string) :
  let n := normalizeSeparators scopePattern in
  RegExp.memChar "*" n = false ->
  RegExp.memChar "?" n = false ->
  Js.includes n "__D" = false ->
  Js.endsWith n "/" = false ->
  matchesPattern normalizedPath scopePattern = String.eqb normalizedPath n /\
  globTest n normalizedPath = String.eqb n normalizedPath.
Proof.
  cbv zeta. intros Hs Hq Hfree Hdir.
  assert (Hglob : globTest (normalizeSeparators scopePattern) normalizedPath
                  = String.eqb (normalizeSeparators scopePattern) normalizedPath).
  { unfold globTest. rewrite globToRegex_table by exact Hfree.
    rewrite tokenize_literal by assumption. apply test_literalTokens. }
  split; [|exact Hglob].
  unfold matchesPattern. rewrite Hdir. fold (globTest (normalizeSeparators scopePattern)
                                               normalizedPath).
  rewrite Hglob, (String.eqb_sym (normalizeSeparators scopePattern)).
  now destruct (String.eqb normalizedPath (normalizeSeparators scopePattern)).
Qed.

Lemma matchesPattern_literal_witness :
  RegExp.memChar "*" (normalizeSeparators "src/a.b+c(1).ts") = false /\
  RegExp.memChar "?" (normalizeSeparators "src/a.b+c(1).ts") = false /\
  Js.includes (normalizeSeparators "src/a.b+c(1).ts") "__D" = false /\
  Js.endsWith (normalizeSeparators "src/a.b+c(1).ts") "/" = false /\
  matchesPattern "src/axb+c(1).ts" "src/a.b+c(1).ts" = false.
Proof.
  repeat (split; [reflexivity|]).
  rewrite (proj1 (matchesPattern_literal "src/axb+c(1).ts" "src/a.b+c(1).ts"
                    eq_refl eq_refl eq_refl eq_refl)).
  reflexivity.
Defined.

(** ** Single stars and question marks keep the depth *)

Lemma tokenize_noAnyPath (glob : string) :
  Js.includes glob "**" = false -> noAnyPath (tokenize glob) = true.
Proof.
  induction glob as [|c rest IH]; [reflexivity|]. intros Hfree.
  pose proof (includes_head _ _ Hfree) as Hhead.
  apply includes_tail in Hfree. specialize (IH Hfree).
  cbn [tokenize]. destruct (Ascii.eqb "*" c) eqn:Hc.
  - cbn [Js.startsWith] in Hhead. rewrite Hc in Hhead.
    destruct rest as [|c2 rest2]; [reflexivity|].
    cbn [andb Js.startsWith] in Hhead. rewrite andb_true_r in Hhead.
    rewrite Hhead. exact IH.
  - destruct (Ascii.eqb "?" c); exact IH.
Qed.

Lemma test_items_globMatches_flat (tokens : list globToken) (path : string) :
  noAnyPath tokens = true ->
  RegExp.test (map itemOf tokens) path = globMatches tokens path.
Proof.
  revert path; induction tokens as [|t tokens IH]; intros path Hflat.
  - apply test_nil.
  - destruct t; cbn [noAnyPath] in Hflat; [discriminate| | |];
      cbn [map itemOf globMatches].
    + induction path as [|c path IHp]; rewrite test_star, IH by exact Hflat;
        [reflexivity|].
      cbn [RegExp.accepts RegExp.memChar]. now rewrite IHp, orb_false_r.
    + rewrite test_one. destruct path as [|c path]; [reflexivity|].
      cbn [RegExp.accepts RegExp.memChar]. now rewrite orb_false_r, IH.
    + rewrite test_one. destruct path as [|x path]; [reflexivity|].
      cbn [RegExp.accepts]. now rewrite IH.
Qed.

Lemma globMatches_depth (tokens : list globToken) (path : string) :
  noAnyPath tokens = true -> globMatches tokens path = true ->
  countChar "/" path = countChar "/" (source tokens).
Proof.
  revert path; induction tokens as [|t tokens IH]; intros path Hflat Hm.
  - now destruct path.
  - destruct t; cbn [noAnyPath] in Hflat; [discriminate| | |];
      cbn [globMatches source] in *.
    + induction path as [|x path IHp].
      * rewrite orb_false_r in Hm. now apply IH.
      * apply orb_true_iff in Hm as [Hm|Hm]; [now apply IH|].
        apply andb_true_iff in Hm as [Hx Hm].
        cbn [countChar]. rewrite (IHp Hm).
        rewrite Ascii.eqb_sym. apply negb_true_iff in Hx. now rewrite Hx.
    + destruct path as [|x path]; [discriminate|].
      apply andb_true_iff in Hm as [Hx Hm].
      cbn [String.append countChar]. rewrite (IH _ Hflat Hm).
      rewrite Ascii.eqb_sym. apply negb_true_iff in Hx. now rewrite Hx.
    + destruct path as [|x path]; [discriminate|].
      apply andb_true_iff in Hm as [Hx Hm]. apply Ascii.eqb_eq in Hx. subst x.
      cbn [countChar]. now rewrite (IH _ Hflat Hm).
Qed.

(** X5.  A pattern that holds no double star, is free of the text
    [__D] and does not end in a slash matches only paths of its own
    depth: a matched path has as many separators as the pattern, since
    neither the single star nor the question mark stands for a
    separator. *)
Theorem matchesPattern_keeps_depth (normalizedPath scopePattern : string) :
  let n := normalizeSeparators scopePattern in
  Js.includes n "**" = false ->
  Js.includes n "__D" = false ->
  Js.endsWith n "/" = false ->
  matchesPattern normalizedPath scopePattern = true ->
  countChar "/" normalizedPath = countChar "/" n.
Proof.
  cbv zeta. intros Hflat Hfree Hdir. unfold matchesPattern. rewrite Hdir.
  destruct (String.eqb_spec normalizedPath (normalizeSeparators scopePattern))
    as [->|_]; [reflexivity|].
  rewrite globToRegex_table by exact Hfree.
  destruct (tokenize_passes _ (normalizeSeparators scopePattern) (le_n _))
    as (Hsrc & _ & _).
  rewrite test_items_globMatches_flat by now apply tokenize_noAnyPath.
  intros Hm.
  transitivity (countChar "/" (source (tokenize (normalizeSeparators scopePattern))));
    [|now rewrite Hsrc].
  apply globMatches_depth; [now apply tokenize_noAnyPath | exact Hm].
Qed.

Lemma matchesPattern_keeps_depth_witness :
  Js.includes (normalizeSeparators "src/*/hook?.ts") "**" = false /\
  Js.includes (normalizeSeparators "src/*/hook?.ts") "__D" = false /\
  Js.endsWith (normalizeSeparators "src/*/hook?.ts") "/" = false /\
  matchesPattern "src/auth/hooks.ts" "src/*/hook?.ts" = true /\
  countChar "/" "src/auth/hooks.ts" = countChar "/" (normalizeSeparators "src/*/hook?.ts").
Proof.
  repeat (split; [reflexivity|]).
  exact (matchesPattern_keeps_depth "src/auth/hooks.ts" "src/*/hook?.ts"
           eq_refl eq_refl eq_refl eq_refl).
Defined.

(* ===================================================================== *)
(** * Further properties of [extractFilesFromDiff] *)
(* ===================================================================== *)

(** ** What a capture group holds *)

Section Captures.

Variable p : ascii -> bool.
Variable k : string -> option string.
Hypothesis Hk : silent k.

Lemma one_silent : silent (RegExp.one p false k).
Proof.
  intros [|c s] g; cbn [RegExp.one]; [discriminate|].
  destruct (p c); [|discriminate]. rewrite keep_uncaptured. apply Hk.
Qed.

Lemma star_silent : silent (RegExp.star p false k).
Proof.
  intros s. induction s as [|c s IH]; intros g; cbn [RegExp.star]; [apply Hk|].
  destruct (p c); [|apply Hk].
  destruct (RegExp.star p false k s) as [g'|] eqn:Hs; [|apply Hk].
  cbn [RegExp.keep]. intros [= <-]. now apply IH.
Qed.

Lemma plus_silent : silent (RegExp.plus p false k).
Proof.
  intros [|c s] g; cbn [RegExp.plus]; [discriminate|].
  destruct (p c); [|discriminate]. rewrite keep_uncaptured. apply star_silent.
Qed.

Lemma times_silent (n : nat) : silent (RegExp.times p false k n).
Proof.
  induction n as [|n IH]; intros s g; cbn [RegExp.times]; [apply Hk|].
  destruct s as [|c s]; [discriminate|].
  destruct (p c); [|discriminate]. rewrite keep_uncaptured. apply IH.
Qed.

(** A captured star holds a prefix of the text, made of accepted
    characters, and the continuation succeeds on what is left. *)
Lemma star_captured (s g : string) :
  RegExp.star p true k s = Some g ->
  allChars p g = true /\ exists rest, s = g +:+ rest /\ k rest = Some EmptyString.
Proof.
  revert g; induction s as [|c s IH]; intros g; cbn [RegExp.star].
  - intros H. pose proof (Hk _ _ H) as ->. split; [reflexivity|]. now exists EmptyString.
  - assert (Hstop : k (String c s) = Some g ->
              allChars p g = true /\
              exists rest, String c s = g +:+ rest /\ k rest = Some EmptyString).
    { intros H. pose proof (Hk _ _ H) as ->. split; [reflexivity|].
      now exists (String c s). }
    destruct (p c) eqn:Hc; [|exact Hstop].
    destruct (RegExp.star p true k s) as [g'|] eqn:Hs; [|exact Hstop].
    cbn [RegExp.keep]. intros [= <-].
    destruct (IH g' eq_refl) as (Hall & rest & -> & Hrest).
    split; [cbn [allChars]; now rewrite Hc|]. now exists rest.
Qed.

Lemma plus_captured (s g : string) :
  RegExp.plus p true k s = Some g ->
  g <> EmptyString /\ allChars p g = true /\
  exists rest, s = g +:+ rest /\ k rest = Some EmptyString.
Proof.
  destruct s as [|c s]; cbn [RegExp.plus]; [discriminate|].
  destruct (p c) eqn:Hc; [|discriminate].
  destruct (RegExp.star p true k s) as [g'|] eqn:Hs; [|discriminate].
  cbn [RegExp.keep]. intros [= <-].
  destruct (star_captured _ _ Hs) as (Hall & rest & -> & Hrest).
  split; [discriminate|]. split; [cbn [allChars]; now rewrite Hc|]. now exists rest.
Qed.

End Captures.

Lemma exec_nil_silent : silent (RegExp.exec []).
Proof. intros [|c s] g; cbn; [now intros [= <-] | discriminate]. Qed.

Lemma exec_lit (w : string) (r : RegExp.regex) (s : string) (g : string) :
  RegExp.exec (RegExp.lit w ++ r) s = Some g ->
  exists rest, s = w +:+ rest /\ RegExp.exec r rest = Some g.
Proof.
  revert s; induction w as [|c w IH]; intros s H.
  - now exists s.
  - cbn [RegExp.lit app RegExp.exec RegExp.item_atom RegExp.item_quant
         RegExp.item_captured] in H.
    unfold RegExp.one in H. destruct s as [|x s]; [discriminate|].
    cbn [RegExp.accepts] in H. destruct (Ascii.eqb_spec c x) as [<-|]; [|discriminate].
    rewrite keep_uncaptured in H. destruct (IH _ H) as (rest & -> & Hrest).
    now exists rest.
Qed.

Lemma plus_dot_uncaptured (s g : string) :
  RegExp.plus (RegExp.accepts RegExp.Dot) false (RegExp.exec []) s = Some g ->
  capturable s = true.
Proof.
  destruct s as [|c s]; cbn [RegExp.plus]; [discriminate|].
  cbn [capturable]. unfold singleLine. cbn [allChars RegExp.accepts].
  destruct (negb (RegExp.isLineTerminator c)); [|discriminate].
  rewrite keep_uncaptured. clear c. revert g.
  induction s as [|c s IH]; intros g; [reflexivity|].
  cbn [RegExp.star allChars RegExp.accepts].
  destruct (negb (RegExp.isLineTerminator c)); [|discriminate].
  destruct (RegExp.star _ false _ s) as [g'|] eqn:Hs; [|discriminate].
  intros _. now apply (IH g').
Qed.

Lemma gitDiff_capture_shape (line path : string) :
  RegExp.exec gitDiffRe line = Some path ->
  capturable path = true /\
  exists other, capturable other = true /\
                line = "diff --git a/" +:+ path +:+ " b/" +:+ other.
Proof.
  unfold gitDiffRe. intros H.
  apply exec_lit in H as (rest & -> & H).
  cbn [app RegExp.exec RegExp.item_atom RegExp.item_quant RegExp.item_captured] in H.
  assert (Hsilent : silent (RegExp.exec (RegExp.lit " b/"
                      ++ [RegExp.Item RegExp.Dot RegExp.Plus false]))).
  { intros s g Hs. apply exec_lit in Hs as (y & -> & Hy).
    cbn [RegExp.exec RegExp.item_atom RegExp.item_quant RegExp.item_captured] in Hy.
    exact (plus_silent _ _ exec_nil_silent _ _ Hy). }
  apply (plus_captured _ _ Hsilent) in H as (Hne & Hall & rest' & -> & Hk).
  apply exec_lit in Hk as (other & -> & Hother).
  cbn [RegExp.exec RegExp.item_atom RegExp.item_quant RegExp.item_captured] in Hother.
  apply plus_dot_uncaptured in Hother.
  split; [destruct path; [congruence | exact Hall]|].
  exists other. split; [exact Hother | reflexivity].
Qed.

Lemma fileHeader_capture_shape (line path : string) :
  RegExp.exec fileHeaderRe line = Some path ->
  capturable path = true /\
  exists marker, isHeaderMarker marker = true /\ line = marker +:+ path.
Proof.
  intros H.
  destruct line as [|m1 [|m2 [|m3 [|sp [|side [|sl rest]]]]]]; try discriminate H;
    try (unfold fileHeaderRe in H;
         cbn [RegExp.exec RegExp.item_atom RegExp.item_quant RegExp.item_captured
              RegExp.times RegExp.one RegExp.accepts RegExp.keep] in H;
         repeat match type of H with
                | context [if ?b then _ else _] => destruct b; cbn [RegExp.keep] in H
                end; discriminate H).
  set (marker := String m1 (String m2 (String m3 (String sp (String side
                   (String sl EmptyString)))))).
  change (String m1 (String m2 (String m3 (String sp (String side (String sl rest))))))
    with (marker +:+ rest) in *.
  destruct (isHeaderMarker marker) eqn:Hm.
  - rewrite fileHeader_capture in H by exact Hm.
    destruct (capturable rest) eqn:Hc; [|discriminate].
    injection H as <-. split; [exact Hc|]. now exists marker.
  - exfalso. unfold fileHeaderRe in H. subst marker.
    cbn [String.append RegExp.exec RegExp.item_atom RegExp.item_quant
         RegExp.item_captured RegExp.times RegExp.one RegExp.accepts RegExp.keep] in H.
    cbn [isHeaderMarker] in Hm.
    destruct (RegExp.memChar m1 "+-"); [|discriminate H].
    destruct (RegExp.memChar m2 "+-"); [|discriminate H].
    destruct (RegExp.memChar m3 "+-"); [|discriminate H].
    destruct (RegExp.isWhiteSpace sp); [|discriminate H].
    destruct (RegExp.memChar side "ab"); [|discriminate H].
    cbn [andb] in Hm. rewrite Ascii.eqb_sym in Hm. rewrite Hm in H. discriminate H.
Qed.

(** X6.  Whatever the text of the diff, every path that
    [extractFilesFromDiff] returns is non-empty, holds no line feed and
    no carriage return, and stands on a line of the diff right after a
    file-header marker, or between [diff --git a/] and a later [ b/]
    that is followed by at least one character. *)
Theorem extractFilesFromDiff_paths_come_from_headers (diff : string) :
  Forall
    (fun path =>
       capturable path = true /\
       exists line, In line (Js.split Js.LF diff) /\ yields line path)
    (extractFilesFromDiff diff).
Proof.
  apply List.Forall_forall. intros path Hin.
  unfold extractFilesFromDiff in Hin.
  rewrite extractFilesFromLines_firstSeen, firstSeen_In, in_flat_map in Hin.
  destruct Hin as (line & Hline & Hp). unfold lineMatches in Hp.
  apply in_app_or in Hp as [Hp|Hp].
  - destruct (RegExp.exec fileHeaderRe line) as [q|] eqn:Hq; [|contradiction].
    destruct Hp as [->|[]].
    apply fileHeader_capture_shape in Hq as (Hc & marker & Hm & ->).
    split; [exact Hc|]. exists (marker +:+ path). split; [exact Hline|].
    left. now exists marker.
  - destruct (RegExp.exec gitDiffRe line) as [q|] eqn:Hq; [|contradiction].
    destruct Hp as [->|[]].
    apply gitDiff_capture_shape in Hq as (Hc & other & Ho & ->).
    split; [exact Hc|]. eexists. split; [exact Hline|].
    right. now exists other.
Qed.

(** ** Diffs put together *)

Lemma extractFilesFromLines_app (before after : list string) :
  extractFilesFromLines (before ++ after)
  = extractFilesFromLines before
    ++ List.filter
         (fun path => negb (existsb (String.eqb path) (extractFilesFromLines before)))
         (extractFilesFromLines after).
Proof.
  unfold extractFilesFromLines at 1. rewrite fold_left_app.
  fold (extractFilesFromLines before).
  now rewrite scanLines_setAdd, fold_setAdd_firstSeen, <- extractFilesFromLines_firstSeen.
Qed.

(** X7.  The files of two diffs written one after the other, a line
    feed between them, are the files of the first diff followed by
    those files of the second diff that the first does not name
    already. *)
Theorem extractFilesFromDiff_concatenation (first second : string) :
  extractFilesFromDiff (first +:+ String Js.LF second)
  = extractFilesFromDiff first
    ++ List.filter
         (fun path => negb (existsb (String.eqb path) (extractFilesFromDiff first)))
         (extractFilesFromDiff second).
Proof.
  unfold extractFilesFromDiff. rewrite split_append_sep.
  apply extractFilesFromLines_app.
Qed.

(** ** From headers to files and back *)

Lemma split_no_sep (sep : ascii) (s : string) :
  RegExp.memChar sep s = false -> Js.split sep s = [s].
Proof.
  induction s as [|c s IH]; [reflexivity|].
  cbn [RegExp.memChar Js.split]. intros H. apply orb_false_iff in H as [Hc Hs].
  now rewrite Ascii.eqb_sym, Hc, (IH Hs).
Qed.

Lemma split_textOfLines (lines : list string) :
  lines <> [] ->
  Forall (fun line => RegExp.memChar Js.LF line = false) lines ->
  Js.split Js.LF (textOfLines lines) = lines.
Proof.
  unfold textOfLines. induction lines as [|l lines IH]; [congruence|].
  intros _ Hall. inversion Hall as [|? ? Hl Hrest]; subst.
  destruct lines as [|l2 lines].
  - now apply split_no_sep.
  - cbn [Js.join]. cbn [String.append]. rewrite split_append_sep.
    rewrite (split_no_sep _ _ Hl). cbn [app]. f_equal.
    apply IH; [discriminate | exact Hrest].
Qed.

Lemma memChar_append (c : ascii) (a b : string) :
  RegExp.memChar c (a +:+ b) = RegExp.memChar c a || RegExp.memChar c b.
Proof.
  induction a as [|x a IH]; [reflexivity|].
  cbn [String.append RegExp.memChar]. now rewrite IH, orb_assoc.
Qed.

Lemma singleLine_no_feed (s : string) :
  singleLine s = true -> RegExp.memChar Js.LF s = false.
Proof.
  unfold singleLine. induction s as [|c s IH]; [reflexivity|].
  cbn [allChars RegExp.memChar]. intros H. apply andb_true_iff in H as [Hc Hs].
  rewrite (IH Hs), orb_false_r. unfold RegExp.isLineTerminator in Hc.
  apply negb_true_iff, orb_false_iff in Hc as [Hc _]. now rewrite Ascii.eqb_sym.
Qed.

Lemma capturable_singleLine (s : string) : capturable s = true -> singleLine s = true.
Proof. now destruct s. Qed.

Lemma headerLine_matches (entry : string * string) :
  wellFormedHeader entry -> lineMatches (headerLine entry) = [snd entry].
Proof.
  intros (Hm & _ & Hc). unfold lineMatches, headerLine.
  rewrite fileHeader_capture, gitDiff_rejects_marker by exact Hm.
  now rewrite Hc.
Qed.

(** X8.  Writing one file header per path and reading the text back
    gives the paths again: for markers out of plus and minus, a white
    space other than the line feed and [a/] or [b/], and paths that
    are non-empty and free of line terminators, [extractFilesFromDiff]
    returns the paths in the order of the headers, each one at its
    first header only. *)
Theorem extractFilesFromDiff_reads_headers_back (entries : list (string * string)) :
  Forall wellFormedHeader entries ->
  extractFilesFromDiff (textOfLines (map headerLine entries))
  = firstSeen (map snd entries).
Proof.
  intros Hall. destruct entries as [|e entries]; [reflexivity|].
  unfold extractFilesFromDiff. rewrite split_textOfLines.
  - rewrite extractFilesFromLines_firstSeen. f_equal.
    induction Hall as [|x l Hx Hl IH]; [reflexivity|].
    cbn [map flat_map]. now rewrite headerLine_matches, IH.
  - discriminate.
  - apply List.Forall_forall. intros line Hin. apply in_map_iff in Hin as (x & <- & Hx).
    rewrite List.Forall_forall in Hall. destruct (Hall x Hx) as (_ & Hw & Hc).
    unfold headerLine. rewrite memChar_append, Hw.
    now apply singleLine_no_feed, capturable_singleLine.
Qed.

Lemma extractFilesFromDiff_reads_headers_back_witness :
  Forall wellFormedHeader
    [("--- a/", "src/one.ts"); ("+++ b/", "src/one.ts"); ("+++ b/", "src/two.ts")] /\
  extractFilesFromDiff
    (textOfLines
       (map headerLine
          [("--- a/", "src/one.ts"); ("+++ b/", "src/one.ts"); ("+++ b/", "src/two.ts")]))
  = ["src/one.ts"; "src/two.ts"].
Proof.
  assert (H : Forall wellFormedHeader
    [("--- a/", "src/one.ts"); ("+++ b/", "src/one.ts"); ("+++ b/", "src/two.ts")]).
  { repeat constructor. }
  split; [exact H|].
  exact (extractFilesFromDiff_reads_headers_back _ H).
Defined.

(** ** The greedy group of the [diff --git] signature *)

Section Greedy.

Variable p : ascii -> bool.
Variable k : string -> option string.

Lemma star_no_extension (rest : string) :
  noLongerMatch p k rest -> RegExp.star p true k rest = k rest.
Proof.
  induction rest as [|c r IH]; intros Hno; [reflexivity|].
  cbn [RegExp.star]. destruct (p c) eqn:Hc; [|reflexivity].
  rewrite IH.
  - rewrite (Hno (String c EmptyString) r eq_refl); [reflexivity | discriminate |].
    cbn [allChars]. now rewrite Hc.
  - intros u v -> Hu Hall. apply (Hno (String c u) v eq_refl); [discriminate|].
    cbn [allChars]. now rewrite Hc.
Qed.

Lemma star_greedy (x rest : string) :
  allChars p x = true -> noLongerMatch p k rest -> k rest = Some EmptyString ->
  RegExp.star p true k (x +:+ rest) = Some x.
Proof.
  intros Hx Hno Hk. induction x as [|c x IH].
  - cbn [String.append]. now rewrite star_no_extension.
  - cbn [allChars] in Hx. apply andb_true_iff in Hx as [Hc Hx].
    cbn [String.append RegExp.star]. now rewrite Hc, (IH Hx).
Qed.

Lemma plus_greedy (x rest : string) :
  x <> EmptyString -> allChars p x = true -> noLongerMatch p k rest ->
  k rest = Some EmptyString ->
  RegExp.plus p true k (x +:+ rest) = Some x.
Proof.
  intros Hne Hx Hno Hk. destruct x as [|c x]; [congruence|].
  cbn [allChars] in Hx. apply andb_true_iff in Hx as [Hc Hx].
  cbn [String.append RegExp.plus]. now rewrite Hc, (star_greedy _ _ Hx Hno Hk).
Qed.

End Greedy.

Lemma exec_lit_append (w : string) (r : RegExp.regex) (s : string) :
  RegExp.exec (RegExp.lit w ++ r) (w +:+ s) = RegExp.exec r s.
Proof.
  induction w as [|c w IH]; [reflexivity|].
  cbn [RegExp.lit app String.append RegExp.exec RegExp.item_atom RegExp.item_quant
       RegExp.item_captured].
  unfold RegExp.one. cbn [RegExp.accepts].
  now rewrite Ascii.eqb_refl, keep_uncaptured, IH.
Qed.

Lemma plus_dot_uncaptured_ok (s : string) :
  capturable s = true ->
  RegExp.plus (RegExp.accepts RegExp.Dot) false (RegExp.exec []) s = Some EmptyString.
Proof.
  destruct s as [|c s]; [discriminate|].
  cbn [capturable]. unfold singleLine. cbn [allChars RegExp.plus RegExp.accepts].
  intros H. apply andb_true_iff in H as [Hc Hs]. rewrite Hc, keep_uncaptured.
  clear c Hc. induction s as [|c s IH]; [reflexivity|].
  cbn [allChars] in Hs. apply andb_true_iff in Hs as [Hc Hs].
  cbn [RegExp.star RegExp.accepts]. now rewrite Hc, (IH Hs).
Qed.

Lemma includes_append (u sub t : string) : Js.includes (u +:+ sub +:+ t) sub = true.
Proof.
  induction u as [|c u IH].
  - cbn [String.append]. destruct (sub +:+ t) eqn:He; cbn [Js.includes];
      rewrite <- He, startsWith_append; reflexivity.
  - cbn [String.append Js.includes]. now rewrite IH, orb_true_r.
Qed.

Lemma fileHeader_rejects_git (rest : string) :
  RegExp.exec fileHeaderRe ("diff --git a/" +:+ rest) = None.
Proof. reflexivity. Qed.

(** X9.  From a line [diff --git a/X b/Y] the path [X] is extracted,
    whenever [X] and [Y] are non-empty and free of line terminators and
    [Y] does not hold the text [ b/]: the group is greedy, but no later
    [ b/] exists at which it could stop. *)
Theorem extractFilesFromDiff_git_header (x y : string) :
  capturable x = true -> capturable y = true -> Js.includes y " b/" = false ->
  RegExp.exec gitDiffRe ("diff --git a/" +:+ x +:+ " b/" +:+ y) = Some x /\
  extractFilesFromDiff ("diff --git a/" +:+ x +:+ " b/" +:+ y) = [x].
Proof.
  intros Hx Hy Hfree.
  assert (Hexec : RegExp.exec gitDiffRe ("diff --git a/" +:+ x +:+ " b/" +:+ y) = Some x).
  { unfold gitDiffRe. rewrite exec_lit_append.
    cbn [app RegExp.exec RegExp.item_atom RegExp.item_quant RegExp.item_captured].
    apply plus_greedy.
    - now destruct x.
    - now apply capturable_singleLine.
    - intros u v Heq Hu _.
      destruct (RegExp.exec _ v) as [g|] eqn:Hv; [exfalso|reflexivity].
      apply exec_lit in Hv as (y' & -> & _).
      destruct u as [|u1 [|u2 [|u3 u']]]; [congruence| | |];
        cbn [String.append] in Heq; try discriminate Heq.
      injection Heq as _ _ _ Heq. subst y.
      pose proof (includes_append u' " b/" y') as Hi.
      cbn [String.append] in Hi, Hfree. congruence.
    - rewrite exec_lit_append.
      cbn [RegExp.exec RegExp.item_atom RegExp.item_quant RegExp.item_captured].
      now apply plus_dot_uncaptured_ok. }
  split; [exact Hexec|].
  unfold extractFilesFromDiff. rewrite split_no_sep.
  - unfold extractFilesFromLines. cbn [fold_left]. unfold scanLine.
    now rewrite fileHeader_rejects_git, Hexec.
  - rewrite !memChar_append.
    rewrite (singleLine_no_feed x) by now apply capturable_singleLine.
    rewrite (singleLine_no_feed y) by now apply capturable_singleLine.
    reflexivity.
Qed.

Lemma extractFilesFromDiff_git_header_witness :
  capturable "src/file.ts" = true /\ capturable "src/file.ts" = true /\
  Js.includes "src/file.ts" " b/" = false /\
  extractFilesFromDiff ("diff --git a/" +:+ "src/file.ts" +:+ " b/" +:+ "src/file.ts")
  = ["src/file.ts"].
Proof.
  repeat (split; [reflexivity|]).
  exact (proj2 (extractFilesFromDiff_git_header "src/file.ts" "src/file.ts"
                  eq_refl eq_refl eq_refl)).
Defined.

(* ===================================================================== *)
(** * Further properties of [ApprovalManager] *)
(* ===================================================================== *)

(** ** The log only grows *)

Lemma perform_log (m : Manager) (op : Operation) :
  isClear op = false ->
  exists added, approvalLog (perform m op) = approvalLog m ++ added /\ length added <= 1.
Proof.
  destruct op as [ok at_ r|ok at_ r|ok now at_ rid flag who notes ov|rid|ok];
    intros Hc; try discriminate Hc; cbn [perform].
  - cbn. unfold appendRecord. destruct ok; eexists; split;
      try reflexivity; try (symmetry; apply app_nil_r); simpl; lia.
  - cbn. unfold appendRecord. destruct ok; eexists; split;
      try reflexivity; try (symmetry; apply app_nil_r); simpl; lia.
  - rewrite recordDecision_log. unfold appendRecord. destruct ok; eexists; split;
      try reflexivity; try (symmetry; apply app_nil_r); simpl; lia.
  - exists []. split; [|simpl; lia]. rewrite app_nil_r. unfold pollTick.
    destruct (existsb _ _); [|reflexivity].
    now destruct (approvedRequests m !! rid).
Qed.

(** X10.  The approval log is append-only: whatever sequence of
    [submitForApproval], [logRequest], [recordDecision] and timer
    firings is run, the log afterwards is the log before followed by at
    most one record per call; no record is changed or removed.  (Only
    [clearAllApprovals] shortens the log.) *)
Theorem approvalLog_append_only (ops : list Operation) (m : Manager) :
  forallb (fun op => negb (isClear op)) ops = true ->
  exists added,
    approvalLog (run ops m) = approvalLog m ++ added /\ length added <= length ops.
Proof.
  unfold run. revert m; induction ops as [|op ops IH]; intros m Hops.
  - exists []. split; [now rewrite app_nil_r | simpl; lia].
  - cbn [forallb] in Hops. apply andb_true_iff in Hops as [Hop Hops].
    apply negb_true_iff in Hop.
    destruct (perform_log m op Hop) as (a1 & H1 & L1).
    destruct (IH (perform m op) Hops) as (a2 & H2 & L2).
    exists (a1 ++ a2). cbn [fold_left]. rewrite H2, H1, <- app_assoc.
    split; [reflexivity|]. rewrite length_app. simpl. lia.
Qed.

Lemma approvalLog_append_only_witness :
  forallb (fun op => negb (isClear op))
    [Submit true "2023-11-14T22:13:20.001Z" sampleRequest;
     Decide true "2023-11-14T22:13:21.000Z" "2023-11-14T22:13:21.001Z"
       "approval-1700000000000-4fzyo82mv" true "alice" None None;
     Poll "approval-1700000000000-4fzyo82mv"] = true /\
  exists added,
    approvalLog
      (run [Submit true "2023-11-14T22:13:20.001Z" sampleRequest;
            Decide true "2023-11-14T22:13:21.000Z" "2023-11-14T22:13:21.001Z"
              "approval-1700000000000-4fzyo82mv" true "alice" None None;
            Poll "approval-1700000000000-4fzyo82mv"] freshManager)
    = approvalLog freshManager ++ added /\ length added <= 3.
Proof.
  split; [reflexivity|].
  exact (approvalLog_append_only
           [Submit true "2023-11-14T22:13:20.001Z" sampleRequest;
            Decide true "2023-11-14T22:13:21.000Z" "2023-11-14T22:13:21.001Z"
              "approval-1700000000000-4fzyo82mv" true "alice" None None;
            Poll "approval-1700000000000-4fzyo82mv"] freshManager eq_refl).
Defined.

(** ** What a restart restores *)

Lemma pendingKeyed_perform (m : Manager) (op : Operation) :
  pendingKeyed m -> pendingKeyed (perform m op).
Proof.
  intros Hm. destruct op as [ok at_ r|ok at_ r|ok now at_ rid flag who notes ov|rid|ok];
    cbn [perform].
  - now apply pendingKeyed_submit.
  - exact Hm.
  - now apply pendingKeyed_record.
  - now apply pendingKeyed_poll.
  - destruct ok; [|exact Hm]. intros key r H. simpl in H.
    now rewrite lookup_empty in H.
Qed.

Lemma pendingKeyed_run (ops : list Operation) (m : Manager) :
  pendingKeyed m -> pendingKeyed (run ops m).
Proof.
  unfold run. revert m; induction ops as [|op ops IH]; intros m Hm; [exact Hm|].
  cbn [fold_left]. now apply IH, pendingKeyed_perform.
Qed.

Lemma replayable_perform (m : Manager) (op : Operation) :
  writeSucceeds op = true -> pendingKeyed m -> replayable m -> replayable (perform m op).
Proof.
  unfold replayable.
  destruct op as [ok at_ r|ok at_ r|ok now at_ rid flag who notes ov|rid|ok];
    cbn [writeSucceeds perform]; intros Hw Hkeyed Hm; try subst ok.
  - unfold submitForApproval, logRequest, appendRecord.
    cbn [approvedRequests approvalLog]. now rewrite loadApprovalLog_app.
  - unfold logRequest, appendRecord.
    cbn [approvedRequests approvalLog]. now rewrite loadApprovalLog_app.
  - rewrite recordDecision_log. unfold appendRecord.
    rewrite loadApprovalLog_app. cbn [fold_left]. rewrite <- Hm.
    assert (Hid : context_request_id
                    (match getPendingRequest rid m with
                     | Some request => KnownRequest request
                     | None => IdOnly rid
                     end) = rid).
    { unfold getPendingRequest.
      destruct (pendingRequests m !! rid) as [request|] eqn:Hp; [|reflexivity].
      exact (Hkeyed _ _ Hp). }
    now rewrite Hid.
  - unfold pollTick. destruct (existsb _ _); [|exact Hm].
    destruct (approvedRequests m !! rid); exact Hm.
  - reflexivity.
Qed.

(** X11.  When every write to the log succeeds, a restart loses no
    decision: after any sequence of calls on a manager built from a
    log, the manager that the constructor builds from the log as it
    then stands has the same decided index, so [getDecision] and
    [isApproved] answer alike for every id.  Its pending index is
    empty: requests that were pending are not restored. *)
Theorem restart_restores_decisions (ops : list Operation) (log : list LogRecord) :
  forallb writeSucceeds ops = true ->
  let before := run ops (construct log) in
  let after := construct (approvalLog before) in
  approvedRequests after = approvedRequests before /\
  (forall requestId,
     getDecision requestId after = getDecision requestId before /\
     isApproved requestId after = isApproved requestId before /\
     getPendingRequest requestId after = None) /\
  approvalLog after = approvalLog before.
Proof.
  intros Hops. cbv zeta.
  assert (Hinv : forall m, pendingKeyed m -> replayable m ->
                           replayable (run ops m)).
  { unfold run. induction ops as [|op rest IH]; intros m Hk Hr; [exact Hr|].
    cbn [forallb] in Hops. apply andb_true_iff in Hops as [Hop Hrest].
    cbn [fold_left]. apply (IH Hrest).
    - now apply pendingKeyed_perform.
    - now apply replayable_perform. }
  assert (Heq : approvedRequests (construct (approvalLog (run ops (construct log))))
                = approvedRequests (run ops (construct log))).
  { symmetry. apply Hinv; [apply pendingKeyed_construct | reflexivity]. }
  split; [exact Heq|]. split; [|reflexivity].
  intros requestId. unfold getDecision, isApproved. rewrite Heq.
  split; [reflexivity|]. split; [reflexivity|]. apply lookup_empty.
Qed.

Lemma restart_restores_decisions_witness :
  forallb writeSucceeds
    [Submit true "2023-11-14T22:13:20.001Z" sampleRequest;
     Decide true "2023-11-14T22:13:21.000Z" "2023-11-14T22:13:21.001Z"
       "approval-1700000000000-4fzyo82mv" true "alice" None None] = true /\
  approvedRequests
    (construct (approvalLog
       (run [Submit true "2023-11-14T22:13:20.001Z" sampleRequest;
             Decide true "2023-11-14T22:13:21.000Z" "2023-11-14T22:13:21.001Z"
               "approval-1700000000000-4fzyo82mv" true "alice" None None]
          (construct []))))
  = approvedRequests
      (run [Submit true "2023-11-14T22:13:20.001Z" sampleRequest;
            Decide true "2023-11-14T22:13:21.000Z" "2023-11-14T22:13:21.001Z"
              "approval-1700000000000-4fzyo82mv" true "alice" None None]
         (construct [])).
Proof.
  split; [reflexivity|].
  exact (proj1 (restart_restores_decisions
                  [Submit true "2023-11-14T22:13:20.001Z" sampleRequest;
                   Decide true "2023-11-14T22:13:21.000Z" "2023-11-14T22:13:21.001Z"
                     "approval-1700000000000-4fzyo82mv" true "alice" None None]
                  [] eq_refl)).
Defined.



(** ** What changes a decision and what changes a pending entry *)

Lemma perform_decision_frame (requestId : string) (m : Manager) (op : Operation) :
  touchesDecision requestId op = false ->
  getDecision requestId (perform m op) = getDecision requestId m.
Proof.
  destruct op as [ok at_ r|ok at_ r|ok now at_ rid flag who notes ov|rid|ok];
    cbn [touchesDecision perform]; intros H.
  - reflexivity.
  - reflexivity.
  - apply recordDecision_getDecision_other. apply String.eqb_neq.
    now rewrite String.eqb_sym.
  - unfold pollTick. destruct (existsb _ _); [|reflexivity].
    now destruct (approvedRequests m !! rid).
  - now subst ok.
Qed.

Lemma perform_pending_frame (requestId : string) (m : Manager) (op : Operation) :
  touchesPending requestId op = false ->
  getPendingRequest requestId (perform m op) = getPendingRequest requestId m.
Proof.
  destruct op as [ok at_ r|ok at_ r|ok now at_ rid flag who notes ov|rid|ok];
    cbn [touchesPending perform]; intros H.
  - unfold getPendingRequest. cbn. apply lookup_insert_ne. now apply String.eqb_neq.
  - reflexivity.
  - reflexivity.
  - unfold pollTick. destruct (existsb _ _); [|reflexivity].
    destruct (approvedRequests m !! rid); [|reflexivity].
    unfold getPendingRequest. cbn. apply lookup_delete_ne. now apply String.eqb_neq.
  - now subst ok.
Qed.

(** X13.  The decision stored for an id changes only through
    [recordDecision] for that id or a successful [clearAllApprovals]:
    any sequence of other calls, decisions for other ids included,
    leaves [getDecision] and [isApproved] of the id as they were.  In
    particular a caller suspended on an id without decision is not
    resumed by such a sequence. *)
Theorem decision_changes_only_by_recordDecision
    (requestId : string) (ops : list Operation) (m : Manager) :
  forallb (fun op => negb (touchesDecision requestId op)) ops = true ->
  getDecision requestId (run ops m) = getDecision requestId m /\
  isApproved requestId (run ops m) = isApproved requestId m /\
  (getDecision requestId m = None -> snd (pollTick requestId (run ops m)) = None).
Proof.
  intros Hops.
  assert (Hd : getDecision requestId (run ops m) = getDecision requestId m).
  { unfold run. revert m; induction ops as [|op ops IH]; intros m; [reflexivity|].
    cbn [forallb] in Hops. apply andb_true_iff in Hops as [Hop Hops].
    apply negb_true_iff in Hop. cbn [fold_left].
    now rewrite (IH Hops), perform_decision_frame. }
  split; [exact Hd|]. unfold getDecision in Hd. split.
  - unfold isApproved. now rewrite Hd.
  - intros Hnone. unfold pollTick. destruct (existsb _ _); [|reflexivity].
    unfold getDecision in Hnone. now rewrite Hd, Hnone.
Qed.

Lemma decision_changes_only_by_recordDecision_witness :
  forallb (fun op => negb (touchesDecision "approval-1700000000000-4fzyo82mv" op))
    [Submit true "2023-11-14T22:13:20.001Z" sampleRequest;
     Decide true "2023-11-14T22:13:21.000Z" "2023-11-14T22:13:21.001Z"
       "some-other-id" true "alice" None None;
     Poll "approval-1700000000000-4fzyo82mv"] = true /\
  getDecision "approval-1700000000000-4fzyo82mv"
    (run [Submit true "2023-11-14T22:13:20.001Z" sampleRequest;
          Decide true "2023-11-14T22:13:21.000Z" "2023-11-14T22:13:21.001Z"
            "some-other-id" true "alice" None None;
          Poll "approval-1700000000000-4fzyo82mv"] freshManager)
  = getDecision "approval-1700000000000-4fzyo82mv" freshManager.
Proof.
  split; [reflexivity|].
  exact (proj1 (decision_changes_only_by_recordDecision
                  "approval-1700000000000-4fzyo82mv"
                  [Submit true "2023-11-14T22:13:20.001Z" sampleRequest;
                   Decide true "2023-11-14T22:13:21.000Z" "2023-11-14T22:13:21.001Z"
                     "some-other-id" true "alice" None None;
                   Poll "approval-1700000000000-4fzyo82mv"] freshManager eq_refl)).
Defined.

(** X14.  A pending entry changes only through [submitForApproval] of
    a request with that id, a timer firing for that id, or a successful
    [clearAllApprovals]: no number of [recordDecision] calls, for this
    id or another, takes a request out of the pending index or puts one
    in. *)
Theorem pending_changes_only_by_submit_and_poll
    (requestId : string) (ops : list Operation) (m : Manager) :
  forallb (fun op => negb (touchesPending requestId op)) ops = true ->
  getPendingRequest requestId (run ops m) = getPendingRequest requestId m.
Proof.
  unfold run. revert m; induction ops as [|op ops IH]; intros m Hops; [reflexivity|].
  cbn [forallb] in Hops. apply andb_true_iff in Hops as [Hop Hops].
  apply negb_true_iff in Hop. cbn [fold_left].
  now rewrite (IH _ Hops), perform_pending_frame.
Qed.

Lemma pending_changes_only_by_submit_and_poll_witness :
  forallb (fun op => negb (touchesPending "approval-1700000000000-4fzyo82mv" op))
    [Decide true "2023-11-14T22:13:21.000Z" "2023-11-14T22:13:21.001Z"
       "approval-1700000000000-4fzyo82mv" true "alice" None None;
     Decide true "2023-11-14T22:14:00.000Z" "2023-11-14T22:14:00.001Z"
       "approval-1700000000000-4fzyo82mv" false "bob" None None] = true /\
  getPendingRequest "approval-1700000000000-4fzyo82mv"
    (run [Decide true "2023-11-14T22:13:21.000Z" "2023-11-14T22:13:21.001Z"
            "approval-1700000000000-4fzyo82mv" true "alice" None None;
          Decide true "2023-11-14T22:14:00.000Z" "2023-11-14T22:14:00.001Z"
            "approval-1700000000000-4fzyo82mv" false "bob" None None]
       (submitForApproval true "2023-11-14T22:13:20.001Z" sampleRequest freshManager))
  = getPendingRequest "approval-1700000000000-4fzyo82mv"
      (submitForApproval true "2023-11-14T22:13:20.001Z" sampleRequest freshManager).
Proof.
  split; [reflexivity|].
  exact (pending_changes_only_by_submit_and_poll
           "approval-1700000000000-4fzyo82mv"
           [Decide true "2023-11-14T22:13:21.000Z" "2023-11-14T22:13:21.001Z"
              "approval-1700000000000-4fzyo82mv" true "alice" None None;
            Decide true "2023-11-14T22:14:00.000Z" "2023-11-14T22:14:00.001Z"
              "approval-1700000000000-4fzyo82mv" false "bob" None None]
           (submitForApproval true "2023-11-14T22:13:20.001Z" sampleRequest freshManager)
           eq_refl).
Defined.

(** ** Queries over the log *)

(** X15.  A decision can be found by intent or by turn only through the
    request it was merged with.  When the request is pending at the
    moment of [recordDecision], the record that is logged carries the
    intent and the turn of the request and is what [getApprovalsByIntent]
    and [getApprovalsByTurn] newly return for them; when no request is
    pending under the id, the decision is logged with the bare id and
    neither query returns it, whatever intent or turn is asked for.  A
    log that cannot be read is answered by the empty list. *)
Theorem decisions_found_through_pending_request
    (m : Manager) (nowIso loggedAt requestId who : string) (flag : bool)
    (notes : option string) (override : option bool) :
  let recorded := recordDecision true nowIso loggedAt requestId flag who notes override m in
  (forall request intent,
     getPendingRequest requestId m = Some request -> intent_id request = Some intent ->
     getApprovalsByIntent true intent (fst recorded)
     = getApprovalsByIntent true intent m
       ++ [DecisionRecord (KnownRequest request) (snd recorded) loggedAt]) /\
  (forall request turn,
     getPendingRequest requestId m = Some request -> turn_id request = Some turn ->
     getApprovalsByTurn true turn (fst recorded)
     = getApprovalsByTurn true turn m
       ++ [DecisionRecord (KnownRequest request) (snd recorded) loggedAt]) /\
  (getPendingRequest requestId m = None ->
   forall key,
     getApprovalsByIntent true key (fst recorded) = getApprovalsByIntent true key m /\
     getApprovalsByTurn true key (fst recorded) = getApprovalsByTurn true key m) /\
  (forall key any,
     getApprovalsByIntent false key any = [] /\ getApprovalsByTurn false key any = []).
Proof.
  cbv zeta. unfold getApprovalsByIntent, getApprovalsByTurn.
  rewrite recordDecision_log. unfold appendRecord.
  split; [|split; [|split]].
  - intros request intent Hp Hi. rewrite Hp, List.filter_app. f_equal.
    cbn [List.filter record_intent_id]. rewrite Hi. cbn [fieldIs].
    now rewrite String.eqb_refl.
  - intros request turn Hp Ht. rewrite Hp, List.filter_app. f_equal.
    cbn [List.filter record_turn_id]. rewrite Ht. cbn [fieldIs].
    now rewrite String.eqb_refl.
  - intros Hp key. rewrite Hp, !List.filter_app.
    cbn [List.filter record_intent_id record_turn_id fieldIs].
    now rewrite !app_nil_r.
  - now intros key any.
Qed.

(* ===================================================================== *)
(** * Further properties of [IntentHookEngine] *)
(* ===================================================================== *)

(** X16.  [isFileInScope] and [validateScope] agree: a file is in scope
    exactly when the validation of the list that holds only this file
    succeeds, with and without an active intent. *)
Theorem isFileInScope_agrees_with_validateScope
    (filePath : string) (e : IntentHookEngine.Engine) :
  IntentHookEngine.isFileInScope filePath e
  = isWithinScope (IntentHookEngine.validateScope [filePath] e).
Proof.
  unfold IntentHookEngine.isFileInScope, IntentHookEngine.validateScope.
  destruct (IntentHookEngine.currentSessionIntent e) as [intent|]; [|reflexivity].
  rewrite arePathsInScope_within. cbn [forallb]. now rewrite andb_true_r.
Qed.

(** X17.  The life of a session.  Once [select_active_intent] has
    named an intent of the registry, the gatekeeper lets every tool
    pass and validation is that of the intent's owned scope; after
    [clearSessionIntent] the four restricted tools are refused again,
    every other tool still passes, and no file validates. *)
Theorem session_lifecycle
    (registry : gmap string IntentHookEngine.Intent) (intentId : string)
    (intent : IntentHookEngine.Intent) (e : IntentHookEngine.Engine) :
  registry !! intentId = Some intent ->
  exists selected,
    IntentHookEngine.selectActiveIntent registry intentId e
    = IntentHookEngine.Selected selected /\
    (forall tool, IntentHookEngine.gatekeeper tool selected = (true, None)) /\
    (forall filePaths,
       IntentHookEngine.validateScope filePaths selected
       = arePathsInScope filePaths (IntentHookEngine.owned_scope intent)) /\
    let cleared := IntentHookEngine.clearSessionIntent selected in
    (forall tool,
       fst (IntentHookEngine.gatekeeper tool cleared)
       = negb (existsb (String.eqb tool) IntentHookEngine.restrictedTools)) /\
    (forall filePaths,
       isWithinScope (IntentHookEngine.validateScope filePaths cleared) = false) /\
    (forall filePath, IntentHookEngine.isFileInScope filePath cleared = false).
Proof.
  intros Hreg. unfold IntentHookEngine.selectActiveIntent. rewrite Hreg.
  eexists. split; [reflexivity|]. split; [|split; [reflexivity|]].
  - intros tool. unfold IntentHookEngine.gatekeeper.
    cbn [IntentHookEngine.currentSessionIntent]. now destruct (existsb _ _).
  - cbv zeta. split; [|split; reflexivity].
    intros tool. unfold IntentHookEngine.gatekeeper, IntentHookEngine.clearSessionIntent.
    cbn [IntentHookEngine.currentSessionIntent]. now destruct (existsb _ _).
Qed.

Lemma session_lifecycle_witness :
  authRegistry !! "INT-001" = Some authIntent /\
  exists selected,
    IntentHookEngine.selectActiveIntent authRegistry "INT-001" idleEngine
    = IntentHookEngine.Selected selected /\
    forall tool, IntentHookEngine.gatekeeper tool selected = (true, None).
Proof.
  split; [apply lookup_insert_eq|].
  destruct (session_lifecycle authRegistry "INT-001" authIntent idleEngine
              (lookup_insert_eq _ _ _)) as [selected [Hsel [Hgate _]]].
  exists selected. split; [exact Hsel | exact Hgate].
Defined.

(** X18.  An out-of-scope change from request to decision, with an
    active intent and a log that takes both writes.  The request carries
    the id of the active intent and is pending; the decision does not
    end the wait, the next firing of the timer does, and hands the
    caller [approved] and [requires_override], absent read as false;
    both records are then found under the intent, the decision merged
    with the request.  Scope validation and the gatekeeper answer as
    before the approval: an approved override widens no scope. *)
Theorem out_of_scope_approval_round_trip
    (e : IntentHookEngine.Engine) (intent : IntentHookEngine.Intent)
    (nowMs : N) (random36 nowIso loggedAt changeSummary diffText : string)
    (filesAffected outOfScopeFiles : list string)
    (decidedAt decisionLoggedAt who : string) (flag : bool)
    (notes : option string) (override : option bool) :
  IntentHookEngine.currentSessionIntent e = Some intent ->
  let asked :=
    IntentHookEngine.requestApprovalForOutOfScope nowMs random36 nowIso true loggedAt
      changeSummary diffText filesAffected outOfScopeFiles e in
  let request := snd asked in
  let decided :=
    IntentHookEngine.recordApprovalDecision true decidedAt decisionLoggedAt
      (request_id request) flag who notes override (fst asked) in
  let resumed := pollTick (request_id request) (IntentHookEngine.approvalManager decided) in
  intent_id request = Some (IntentHookEngine.id intent) /\
  IntentHookEngine.isApprovalPending (request_id request) (fst asked) = true /\
  IntentHookEngine.isApprovalPending (request_id request) decided = true /\
  option_map IntentHookEngine.approvalOutcome (snd resumed)
  = Some (flag, orFalse override) /\
  IntentHookEngine.isApprovalPending (request_id request)
    (withManager (fst resumed) decided) = false /\
  (exists decision,
     snd resumed = Some decision /\
     IntentHookEngine.getIntentApprovals true (IntentHookEngine.id intent) decided
     = IntentHookEngine.getIntentApprovals true (IntentHookEngine.id intent) e
       ++ [RequestRecord request loggedAt;
           DecisionRecord (KnownRequest request) decision decisionLoggedAt]) /\
  (forall filePaths,
     IntentHookEngine.validateScope filePaths (withManager (fst resumed) decided)
     = IntentHookEngine.validateScope filePaths e) /\
  (forall tool,
     IntentHookEngine.gatekeeper tool (withManager (fst resumed) decided)
     = IntentHookEngine.gatekeeper tool e).
Proof.
  intros Hintent. cbv zeta.
  unfold IntentHookEngine.requestApprovalForOutOfScope,
    IntentHookEngine.recordApprovalDecision, IntentHookEngine.isApprovalPending,
    IntentHookEngine.getIntentApprovals.
  cbn [fst snd IntentHookEngine.approvalManager IntentHookEngine.currentSessionIntent
       IntentHookEngine.intents].
  rewrite Hintent. cbn [option_map].
  set (request := createRequest _ _ _ _ _ _ _ _).
  set (submitted := submitForApproval true loggedAt request _).
  assert (Hpending : getPendingRequest (request_id request) submitted = Some request)
    by apply submitForApproval_pending.
  split; [reflexivity|].
  split; [now rewrite Hpending|].
  split; [now rewrite recordDecision_pending, Hpending|].
  assert (Hpolls : existsb (String.eqb (request_id request)) (pollers submitted) = true)
    by apply submitForApproval_polls.
  unfold pollTick. rewrite recordDecision_pollers, Hpolls.
  pose proof (recordDecision_getDecision true decidedAt decisionLoggedAt
                (request_id request) flag who notes override submitted) as Hdec.
  unfold getDecision in Hdec. rewrite Hdec.
  cbn [fst snd option_map].
  split; [reflexivity|].
  split.
  { unfold withManager, getPendingRequest.
    cbn [IntentHookEngine.approvalManager pendingRequests].
    now rewrite lookup_delete_eq. }
  split.
  { eexists. split; [reflexivity|].
    unfold getApprovalsByIntent. rewrite recordDecision_log, Hpending.
    unfold appendRecord, submitted, submitForApproval, logRequest, appendRecord.
    cbn [approvalLog]. rewrite !List.filter_app. rewrite <- app_assoc. f_equal.
    cbn [List.filter record_intent_id app]. unfold request at 1 3.
    cbn [createRequest intent_id fieldIs]. now rewrite String.eqb_refl. }
  split.
  - intros filePaths. unfold IntentHookEngine.validateScope, withManager.
    cbn [IntentHookEngine.currentSessionIntent]. now rewrite Hintent.
  - intros tool. unfold IntentHookEngine.gatekeeper, withManager.
    cbn [IntentHookEngine.currentSessionIntent]. now rewrite Hintent.
Qed.

Lemma out_of_scope_approval_round_trip_witness :
  IntentHookEngine.currentSessionIntent authSession = Some authIntent /\
  intent_id
    (snd (IntentHookEngine.requestApprovalForOutOfScope 1700000000000 "0.4fzyo82mvyr"
            "2023-11-14T22:13:20.000Z" true "2023-11-14T22:13:20.001Z"
            "Touch the billing module" "diff content here"
            ["src/billing/invoice.ts"] ["src/billing/invoice.ts"] authSession))
  = Some "INT-001".
Proof.
  split; [reflexivity|].
  exact (proj1 (out_of_scope_approval_round_trip authSession authIntent
                  1700000000000 "0.4fzyo82mvyr" "2023-11-14T22:13:20.000Z"
                  "2023-11-14T22:13:20.001Z" "Touch the billing module"
                  "diff content here" ["src/billing/invoice.ts"]
                  ["src/billing/invoice.ts"] "2023-11-14T22:13:21.000Z"
                  "2023-11-14T22:13:21.001Z" "alice" true None (Some true) eq_refl)).
Defined.

(** X19.  Without an active intent the approval still runs, but the
    request is created without intent id: the caller is resumed with the
    decision, yet neither the request nor the decision is found by
    [getIntentApprovals], whichever intent id is asked for. *)
Theorem approval_without_intent_is_not_indexed
    (e : IntentHookEngine.Engine)
    (nowMs : N) (random36 nowIso loggedAt changeSummary diffText : string)
    (filesAffected outOfScopeFiles : list string) (diskOk decisionDiskOk : bool)
    (decidedAt decisionLoggedAt who : string) (flag : bool)
    (notes : option string) (override : option bool) :
  IntentHookEngine.currentSessionIntent e = None ->
  let asked :=
    IntentHookEngine.requestApprovalForOutOfScope nowMs random36 nowIso diskOk loggedAt
      changeSummary diffText filesAffected outOfScopeFiles e in
  let request := snd asked in
  let decided :=
    IntentHookEngine.recordApprovalDecision decisionDiskOk decidedAt decisionLoggedAt
      (request_id request) flag who notes override (fst asked) in
  intent_id request = None /\
  option_map IntentHookEngine.approvalOutcome
    (snd (pollTick (request_id request) (IntentHookEngine.approvalManager decided)))
  = Some (flag, orFalse override) /\
  (forall intentId,
     IntentHookEngine.getIntentApprovals true intentId decided
     = IntentHookEngine.getIntentApprovals true intentId e).
Proof.
  intros Hintent. cbv zeta.
  unfold IntentHookEngine.requestApprovalForOutOfScope,
    IntentHookEngine.recordApprovalDecision, IntentHookEngine.getIntentApprovals.
  cbn [fst snd IntentHookEngine.approvalManager IntentHookEngine.currentSessionIntent
       IntentHookEngine.intents].
  rewrite Hintent. cbn [option_map].
  set (request := createRequest _ _ _ _ _ _ _ _).
  set (submitted := submitForApproval diskOk loggedAt request _).
  assert (Hpending : getPendingRequest (request_id request) submitted = Some request)
    by apply submitForApproval_pending.
  assert (Hpolls : existsb (String.eqb (request_id request)) (pollers submitted) = true)
    by apply submitForApproval_polls.
  split; [reflexivity|]. split.
  - unfold pollTick. rewrite recordDecision_pollers, Hpolls.
    pose proof (recordDecision_getDecision decisionDiskOk decidedAt decisionLoggedAt
                  (request_id request) flag who notes override submitted) as Hdec.
    unfold getDecision in Hdec. now rewrite Hdec.
  - intros intentId. unfold getApprovalsByIntent.
    rewrite recordDecision_log, Hpending.
    unfold submitted, submitForApproval, logRequest. cbn [approvalLog].
    destruct decisionDiskOk, diskOk; unfold appendRecord;
      rewrite ?List.filter_app; cbn [List.filter record_intent_id];
      unfold request; cbn [createRequest intent_id fieldIs];
      now rewrite ?app_nil_r.
Qed.

Lemma approval_without_intent_is_not_indexed_witness :
  IntentHookEngine.currentSessionIntent idleEngine = None /\
  forall intentId,
    IntentHookEngine.getIntentApprovals true intentId
      (IntentHookEngine.recordApprovalDecision true "2023-11-14T22:13:21.000Z"
         "2023-11-14T22:13:21.001Z" "approval-1700000000000-4fzyo82mv" true "alice"
         None None
         (fst (IntentHookEngine.requestApprovalForOutOfScope 1700000000000
                 "0.4fzyo82mvyr" "2023-11-14T22:13:20.000Z" true
                 "2023-11-14T22:13:20.001Z" "Touch the billing module"
                 "diff content here" ["src/billing/invoice.ts"]
                 ["src/billing/invoice.ts"] idleEngine)))
    = IntentHookEngine.getIntentApprovals true intentId idleEngine.
Proof.
  split; [reflexivity|].
  exact (proj2 (proj2 (approval_without_intent_is_not_indexed idleEngine
                         1700000000000 "0.4fzyo82mvyr" "2023-11-14T22:13:20.000Z"
                         "2023-11-14T22:13:20.001Z" "Touch the billing module"
                         "diff content here" ["src/billing/invoice.ts"]
                         ["src/billing/invoice.ts"] true true
                         "2023-11-14T22:13:21.000Z" "2023-11-14T22:13:21.001Z"
                         "alice" true None None eq_refl))).
Defined.

(** ** The summary of an out-of-scope request *)

Lemma startsWith_extend (s p t : string) :
  Js.startsWith s p = true -> Js.startsWith (s +:+ t) p = true.
Proof.
  revert s; induction p as [|c p IH]; intros s H.
  - now destruct (s +:+ t).
  - destruct s as [|d s]; cbn [Js.startsWith] in H; [discriminate|].
    cbn [String.append Js.startsWith].
    destruct (Ascii.eqb _ _); [|discriminate]. now apply IH.
Qed.

Lemma endsWith_append (u suf : string) : Js.endsWith (u +:+ suf) suf = true.
Proof.
  induction u as [|c u IH].
  - cbn [String.append]. destruct suf; cbn [Js.endsWith]; now rewrite String.eqb_refl.
  - cbn [String.append Js.endsWith]. now rewrite IH, orb_true_r.
Qed.

Lemma includes_extend_r (s sub t : string) :
  Js.includes s sub = true -> Js.includes (s +:+ t) sub = true.
Proof.
  induction s as [|c s IH]; intros H.
  - cbn [Js.includes] in H. destruct sub as [|d sub]; [|discriminate].
    cbn [String.append]. destruct t; reflexivity.
  - cbn [Js.includes] in H. cbn [String.append Js.includes].
    apply orb_true_iff in H as [H|H].
    + change (String c (s +:+ t)) with (String c s +:+ t).
      now rewrite (startsWith_extend _ _ _ H).
    + now rewrite (IH H), orb_true_r.
Qed.

Lemma includes_extend_l (u s sub : string) :
  Js.includes s sub = true -> Js.includes (u +:+ s) sub = true.
Proof.
  induction u as [|c u IH]; intros H; [exact H|].
  cbn [String.append Js.includes]. now rewrite (IH H), orb_true_r.
Qed.

Lemma includes_self (s t : string) : Js.includes (s +:+ t) s = true.
Proof. exact (includes_append EmptyString s t). Qed.

Lemma join_names_each (sep : string) (render : string -> string)
    (items : list string) (item : string) :
  In item items -> Js.includes (Js.join sep (map render items)) (render item) = true.
Proof.
  induction items as [|x items IH]; [intros []|].
  intros [->|Hin].
  - cbn [map Js.join]. destruct (map render items) eqn:Hm.
    + rewrite <- (append_empty_r (render item)) at 1. apply includes_self.
    + apply includes_self.
  - specialize (IH Hin). cbn [map Js.join].
    destruct items as [|y items]; [destruct Hin|].
    cbn [map] in *. apply includes_extend_l. now apply includes_extend_l.
Qed.

(** X20.  The change summary of the request made by
    [requestApprovalForOutOfScope] begins with the caller's summary,
    names every file that was passed as out of scope, each as a list
    item, and closes with the demand for human approval; the diff and
    the list of affected files are handed on as given. *)
Theorem out_of_scope_request_names_every_file
    (e : IntentHookEngine.Engine)
    (nowMs : N) (random36 nowIso loggedAt changeSummary diffText : string)
    (filesAffected outOfScopeFiles : list string) (diskOk : bool) :
  let request :=
    snd (IntentHookEngine.requestApprovalForOutOfScope nowMs random36 nowIso diskOk
           loggedAt changeSummary diffText filesAffected outOfScopeFiles e) in
  Js.startsWith (change_summary request) changeSummary = true /\
  Forall (fun file => Js.includes (change_summary request) ("  - " +:+ file) = true)
    outOfScopeFiles /\
  Js.endsWith (change_summary request)
    "Human approval required to override scope enforcement." = true /\
  diff request = diffText /\
  files_affected request = filesAffected /\
  request_id request = requestIdOf nowMs random36.
Proof.
  cbv zeta. unfold IntentHookEngine.requestApprovalForOutOfScope.
  cbn [snd createRequest change_summary diff files_affected request_id].
  unfold IntentHookEngine.outOfScopeSummary.
  split; [apply startsWith_append|].
  split; [|split; [|split; [reflexivity|split; reflexivity]]].
  - apply List.Forall_forall. intros file Hin.
    do 5 apply includes_extend_l.
    apply includes_extend_r. now apply (join_names_each _ (fun f => "  - " +:+ f)).
  - rewrite <- !append_assoc. apply endsWith_append.
Qed.

(* ===================================================================== *)
(** * Properties of the lesson recorder *)
(* ===================================================================== *)

Lemma recordLessons_cons (call : LessonCall) (calls : list LessonCall)
    (file : option string) :
  recordLessons (call :: calls) file
  = recordLessons calls
      (fst (LessonRecorder.appendLessonToClaude (call_iso call) (call_error call)
              (call_text call) file)).
Proof. reflexivity. Qed.

Lemma recordLessons_none_written (calls : list LessonCall) (file : option string) :
  written calls = [] -> recordLessons calls file = file.
Proof.
  revert file; induction calls as [|call calls IH]; intros file H; [reflexivity|].
  rewrite recordLessons_cons. cbn [written flat_map] in H.
  unfold LessonRecorder.appendLessonToClaude.
  destruct (call_error call); [|discriminate].
  cbn [fst]. now apply IH.
Qed.

Lemma recordLessons_content (calls : list LessonCall) (file : option string) :
  written calls <> [] ->
  recordLessons calls file = Some (contentOrHeader file +:+ concatAll (written calls)).
Proof.
  revert file; induction calls as [|call calls IH]; intros file H.
  - now contradiction H.
  - rewrite recordLessons_cons. cbn [written flat_map] in *.
    unfold LessonRecorder.appendLessonToClaude.
    destruct (call_error call) as [msg|]; cbn [fst app] in *.
    + now apply IH.
    + fold (written calls) in *. destruct (written calls) as [|w ws] eqn:Hw.
      * rewrite recordLessons_none_written by exact Hw.
        cbn [concatAll fold_right]. rewrite append_empty_r.
        now destruct file.
      * rewrite IH by discriminate.
        cbn [concatAll fold_right contentOrHeader].
        destruct file; cbn [contentOrHeader]; now rewrite append_assoc.
Qed.

(** X21.  What a series of calls leaves in [CLAUDE.md].  When no write
    went through, the file is as it was, absent if it was absent.
    Otherwise the file holds what it held before, or the header if it
    did not exist, followed by the entries of the successful calls in
    call order: earlier content is never rewritten, the header is
    written only on creation, and a failed call leaves no trace.  A call
    reports success exactly when its write went through. *)
Theorem lessons_accumulate (calls : list LessonCall) (file : option string) :
  (written calls = [] -> recordLessons calls file = file) /\
  (written calls <> [] ->
   recordLessons calls file
   = Some (contentOrHeader file +:+ concatAll (written calls))) /\
  (forall iso writeError lessonText,
     LessonRecorder.success
       (snd (LessonRecorder.appendLessonToClaude iso writeError lessonText file))
     = match writeError with None => true | Some _ => false end).
Proof.
  split; [apply recordLessons_none_written|].
  split; [apply recordLessons_content|].
  intros iso writeError lessonText. now destruct writeError.
Qed.

Lemma substring_append (a b : string) (n : nat) :
  String.substring 0 (String.length a + n) (a +:+ b) = a +:+ String.substring 0 n b.
Proof.
  induction a as [|c a IH]; [reflexivity|].
  cbn [String.length Nat.add String.append String.substring]. now rewrite IH.
Qed.

Lemma replaceFirst_after (needle : ascii) (repl before rest : string) :
  Js.includes before (String needle EmptyString) = false ->
  LessonRecorder.replaceFirst (String needle EmptyString) repl
    (before +:+ String needle rest)
  = before +:+ repl +:+ rest.
Proof.
  induction before as [|c before IH]; intros Hfree.
  - cbn [String.append LessonRecorder.replaceFirst Js.startsWith String.length
         LessonRecorder.skipChars].
    now rewrite Ascii.eqb_refl.
  - pose proof (includes_head _ _ Hfree) as Hhead.
    cbn [Js.startsWith] in Hhead. rewrite andb_true_r in Hhead.
    cbn [String.append LessonRecorder.replaceFirst Js.startsWith].
    rewrite Hhead. cbn [andb]. f_equal. apply IH. exact (includes_tail _ _ _ Hfree).
Qed.

Lemma substring_length (n : nat) (s : string) :
  n <= String.length s -> String.length (String.substring 0 n s) = n.
Proof.
  revert s; induction n as [|n IH]; intros s H.
  - now destruct s.
  - destruct s as [|c s]; cbn [String.length] in H; [lia|].
    cbn [String.substring String.length]. rewrite IH; [reflexivity | lia].
Qed.

(** X22.  The stamp of an entry.  For a clock reading made of a date
    of ten characters without the letter T, the letter T, and a time of
    at least eight characters, which is what [toISOString] gives for
    the years 0 to 9999, the stamp is the date, a blank, the first eight
    characters of the time and [" UTC"], 23 characters in all: the
    fraction of a second and the zone letter are cut off. *)
Theorem lessonEntry_timestamp (date time lessonText : string) :
  String.length date = 10 ->
  Js.includes date "T" = false ->
  8 <= String.length time ->
  LessonRecorder.timestampOf (date +:+ "T" +:+ time)
  = date +:+ " " +:+ Js.substr 0 8 time +:+ " UTC" /\
  String.length (LessonRecorder.timestampOf (date +:+ "T" +:+ time)) = 23 /\
  LessonRecorder.lessonEntry (date +:+ "T" +:+ time) lessonText
  = "## Lesson Learned (" +:+ date +:+ " " +:+ Js.substr 0 8 time +:+ " UTC)"
    +:+ String Js.LF EmptyString +:+ lessonText
    +:+ String Js.LF (String Js.LF EmptyString).
Proof.
  intros Hlen Hfree Htime.
  assert (Hstamp : LessonRecorder.timestampOf (date +:+ "T" +:+ time)
                   = date +:+ " " +:+ Js.substr 0 8 time +:+ " UTC").
  { unfold LessonRecorder.timestampOf.
    change (date +:+ "T" +:+ time) with (date +:+ String "T" time).
    rewrite (replaceFirst_after "T" " " date time Hfree).
    unfold Js.substr. change 19 with (10 + 9). rewrite <- Hlen.
    rewrite substring_append. rewrite append_assoc. reflexivity. }
  split; [exact Hstamp|]. split.
  - rewrite Hstamp. rewrite !length_append. unfold Js.substr.
    rewrite substring_length by exact Htime. rewrite Hlen. reflexivity.
  - unfold LessonRecorder.lessonEntry. rewrite Hstamp. cbv zeta.
    rewrite !append_assoc. reflexivity.
Qed.

Lemma lessonEntry_timestamp_witness :
  String.length "2026-02-20" = 10 /\
  Js.includes "2026-02-20" "T" = false /\
  8 <= String.length "14:30:00.123Z" /\
  LessonRecorder.timestampOf "2026-02-20T14:30:00.123Z" = "2026-02-20 14:30:00 UTC".
Proof.
  split; [reflexivity|]. split; [reflexivity|]. split; [cbn; lia|].
  apply (lessonEntry_timestamp "2026-02-20" "14:30:00.123Z" "Lint failed");
    [reflexivity | reflexivity | cbn; lia].
Defined.

(* ===================================================================== *)
(** * Properties of [factorial] *)
(* ===================================================================== *)

Lemma factorial_base (fuel : nat) (n : PrimFloat.float) :
  PrimFloat.leb n PrimFloat.one = true ->
  Hello.factorial fuel n = Some PrimFloat.one.
Proof. intros H. destruct fuel; cbn [Hello.factorial]; now rewrite H. Qed.

Lemma factorial_more_fuel (fuel : nat) (n x : PrimFloat.float) :
  Hello.factorial fuel n = Some x -> Hello.factorial (S fuel) n = Some x.
Proof.
  revert n x; induction fuel as [|fuel IH]; intros n x H.
  - cbn [Hello.factorial] in *. now destruct (PrimFloat.leb n PrimFloat.one).
  - remember (S fuel) as bound eqn:Hb. cbn [Hello.factorial]. subst bound.
    cbn [Hello.factorial] in H.
    destruct (PrimFloat.leb n PrimFloat.one); [exact H|].
    destruct (Hello.factorial fuel (PrimFloat.sub n PrimFloat.one)) as [y|] eqn:Hy;
      [|discriminate].
    now rewrite (IH _ _ Hy).
Qed.

Lemma factorial_fuel_le (fuel bound : nat) (n x : PrimFloat.float) :
  fuel <= bound ->
  Hello.factorial fuel n = Some x -> Hello.factorial bound n = Some x.
Proof.
  induction 1 as [|bound Hle IH]; [trivial|].
  intros H. now apply factorial_more_fuel, IH.
Qed.

Lemma factorial_nan (fuel : nat) : Hello.factorial fuel PrimFloat.nan = None.
Proof.
  induction fuel as [|fuel IH]; [reflexivity|].
  cbn [Hello.factorial].
  change (PrimFloat.leb PrimFloat.nan PrimFloat.one) with false.
  change (PrimFloat.sub PrimFloat.nan PrimFloat.one) with PrimFloat.nan.
  now rewrite IH.
Qed.

(** X23.  [factorial] in the floats of the language.  For every
    integer from 0 to 22 it returns the factorial exactly, as soon as
    the stack allows as many nested calls as the argument; at 23, as
    soon as the stack allows 23 nested calls, it returns
    25852016738884978212864, the product rounded to the nearest float,
    which is not the factorial 25852016738884976640000.  An
    argument that is at most 1, negative ones included, gives 1 without
    a nested call, and for NaN the recursion never ends, whatever the
    depth allowed. *)
Theorem factorial_exact_up_to_22 :
  (forall k fuel,
     k <= 22 -> k <= fuel ->
     exists x,
       Hello.factorial fuel (floatOfNat k) = Some x /\
       integerValue x = Some (productUpTo k)) /\
  (forall fuel,
     23 <= fuel ->
     exists x,
       Hello.factorial fuel (floatOfNat 23) = Some x /\
       integerValue x = Some 25852016738884978212864%Z /\
       productUpTo 23 = 25852016738884976640000%Z /\
       integerValue x <> Some (productUpTo 23)) /\
  (forall fuel n,
     PrimFloat.leb n PrimFloat.one = true ->
     Hello.factorial fuel n = Some PrimFloat.one) /\
  (forall fuel, Hello.factorial fuel PrimFloat.nan = None).
Proof.
  split; [|split; [|split]].
  - intros k fuel Hk Hfuel.
    do 23 (destruct k as [|k];
           [eexists; split;
            [eapply factorial_fuel_le; [exact Hfuel | vm_compute; reflexivity]
            | vm_compute; reflexivity]|]).
    lia.
  - intros fuel Hfuel. eexists.
    split; [eapply factorial_fuel_le; [exact Hfuel | vm_compute; reflexivity]|].
    split; [vm_compute; reflexivity|].
    split; [vm_compute; reflexivity | vm_compute; discriminate].
  - intros fuel n. apply factorial_base.
  - apply factorial_nan.
Qed.
